(** * StreamDeck-AudioSwitcher: volatile device identity and the toggle controller

    A shallow embedding of [Sources/ButtonSettings.cpp] and
    [Sources/AudioSwitcherStreamDeckPlugin.cpp].

    - [std::string] is [string] (a sequence of 8-bit [ascii] characters);
    - [nlohmann::json] is the inductive type [json]; a conversion that throws
      [nlohmann::json::type_error] returns [None];
    - the audio subsystem (list of devices, state of a device, default
      device) is an explicit [AudioWorld] record read by the code;
    - calls on [mConnectionManager], [SetDefaultAudioDeviceID] and the
      injected key events are recorded, in order, in a list of [Effect]s;
    - a handler yields an [Outcome]: the plugin afterwards, its effects, and
      whether it returned or was left by an exception;
    - [mButtons] is a [gmap string Button];
    - the mutex and the debug log are left out. *)

From Stdlib Require Import ZArith Ascii String List Bool Lia.
From stdpp Require Import base option list sorting gmap strings.

Import ListNotations.
Local Open Scope string_scope.
Local Open Scope bool_scope.
Local Open Scope list_scope.

#[local] Set Warnings "-register-all".

(** ** Audio devices (header [AudioDevices/AudioDevices.h]) *)

Module Audio.

(** The code names both directions. *)
Inductive AudioDeviceDirection := INPUT | OUTPUT.

(** Modelled from the spec: the enumeration [AudioDeviceRole] is declared in
    the audio library's header; the code only names [DEFAULT], the other role
    is the one of the data model ("default/communications"). *)
Inductive AudioDeviceRole := DEFAULT | COMMUNICATION.

(** Modelled from the spec: the enumeration [AudioDeviceState] is declared in
    the audio library's header; the code only names [CONNECTED], the other
    two states are those of the data model ("Connected|Disconnected|Unknown"). *)
Inductive AudioDeviceState := CONNECTED | DISCONNECTED | UNKNOWN.

Definition direction_eqb (a b : AudioDeviceDirection) : bool :=
  match a, b with
  | INPUT, INPUT | OUTPUT, OUTPUT => true
  | _, _ => false
  end.

Definition role_eqb (a b : AudioDeviceRole) : bool :=
  match a, b with
  | DEFAULT, DEFAULT | COMMUNICATION, COMMUNICATION => true
  | _, _ => false
  end.

Definition state_eqb (a b : AudioDeviceState) : bool :=
  match a, b with
  | CONNECTED, CONNECTED | DISCONNECTED, DISCONNECTED | UNKNOWN, UNKNOWN => true
  | _, _ => false
  end.

(** [struct AudioDeviceInfo]: the fields the two source files read. *)
Record AudioDeviceInfo := mkDevice {
  id : string;
  interfaceName : string;
  endpointName : string;
  displayName : string;
  direction : AudioDeviceDirection;
  state : AudioDeviceState;
}.

(** A default-constructed [AudioDeviceInfo]: empty strings.  Its direction
    and state are the library's business; they are taken to be [INPUT] and
    [UNKNOWN], and no statement below depends on that. *)
Definition no_device : AudioDeviceInfo :=
  mkDevice "" "" "" "" INPUT UNKNOWN.

(** What the code reads from the operating system.  [GetAudioDeviceList]
    returns a map from id to device; it is given here by its entries in
    iteration order. *)
Record AudioWorld := mkWorld {
  GetAudioDeviceList : AudioDeviceDirection -> list (string * AudioDeviceInfo);
  GetAudioDeviceState : string -> AudioDeviceState;
  GetDefaultAudioDeviceID : AudioDeviceDirection -> AudioDeviceRole -> string;
}.

(** [devices.contains(key)] and [devices.at(key)] on such a map. *)
Fixpoint map_find {A : Type} (key : string) (m : list (string * A)) : option A :=
  match m with
  | [] => None
  | (k, v) :: rest => if String.eqb k key then Some v else map_find key rest
  end.

End Audio.
Export Audio.

(** ** A backtracking matcher for [std::regex] (ECMAScript grammar)

    Only the constructs of the pattern of [FuzzifyInterface] are present.
    The matcher tries the alternatives in the order of the ECMAScript
    semantics (a greedy quantifier first takes as many iterations as it can)
    and hands what is left of the input to a continuation. *)

Module Regex.

Inductive regex :=
| Bol                                  (* ^ *)
| Eol                                  (* $ *)
| Class (p : ascii -> bool)            (* one character of a class *)
| Seq (r1 r2 : regex)
| Plus (r : regex)                     (* r+ , greedy *)
| Opt (r : regex)                      (* r? , greedy *)
| Group (i : nat) (r : regex).         (* the i-th capture group *)

(** Capture groups, most recent first. *)
Definition captures := list (nat * string).

Fixpoint capture (i : nat) (c : captures) : string :=
  match c with
  | [] => ""
  | (j, s) :: rest => if Nat.eqb i j then s else capture i rest
  end.

Definition orelse {A} (x : option A) (y : option A) : option A :=
  match x with Some _ => x | None => y end.

(** The first [n] characters of [s]. *)
Fixpoint take_string (n : nat) (s : string) : string :=
  match n, s with
  | S n', String c s' => String c (take_string n' s')
  | _, _ => ""
  end.

(** The iterations of a greedy [r+], [body] matching one [r]: after each
    iteration that consumed something, try one more before continuing with
    [k].  [fuel] bounds the number of further iterations. *)
Fixpoint plus_loop
    (body : string -> captures ->
            (string -> captures -> option captures) -> option captures)
    (k : string -> captures -> option captures)
    (fuel : nat) (s : string) (c : captures) {struct fuel} : option captures :=
  body s c
    (fun s' c' =>
       match fuel with
       | S fuel' =>
           if Nat.ltb (String.length s') (String.length s)
           then orelse (plus_loop body k fuel' s' c') (k s' c')
           else k s' c'
       | O => k s' c'
       end).

(** [run r len s c k]: match [r] at the head of [s], the rest of an input of
    [len] characters, then continue with [k]. *)
Fixpoint run (r : regex) (len : nat) (s : string) (c : captures)
    (k : string -> captures -> option captures) {struct r} : option captures :=
  match r with
  | Bol => if Nat.eqb (String.length s) len then k s c else None
  | Eol => match s with EmptyString => k s c | _ => None end
  | Class p =>
      match s with
      | String a s' => if p a then k s' c else None
      | EmptyString => None
      end
  | Seq r1 r2 => run r1 len s c (fun s' c' => run r2 len s' c' k)
  | Opt r' => orelse (run r' len s c k) (k s c)
  | Group i r' =>
      run r' len s c
        (fun s' c' =>
           k s' ((i, take_string (String.length s - String.length s') s) :: c'))
  | Plus r' => plus_loop (run r' len) k (String.length s) s c
  end.

(** [std::regex_match(name, captures, pattern)]: the whole of [name]. *)
Definition regex_match (name : string) (pattern : regex) : option captures :=
  run pattern (String.length name) name []
    (fun s c => match s with EmptyString => Some c | _ => None end).

Definition is_digit (a : ascii) : bool :=
  (N.leb 48 (N_of_ascii a)) && (N.leb (N_of_ascii a) 57).

(** [.] matches every character but a line terminator. *)
Definition is_line_terminator (a : ascii) : bool :=
  (N.eqb (N_of_ascii a) 10) || (N.eqb (N_of_ascii a) 13).

Definition dot (a : ascii) : bool := negb (is_line_terminator a).

Definition lit (x : ascii) (a : ascii) : bool := Ascii.eqb x a.

End Regex.

(** ** [ButtonSettings.cpp]: the volatile id of a configured device *)

Inductive DeviceMatchStrategy := ID | Fuzzy.

Module Import Resolver.
Import Regex.

(** The pattern ["^([0-9]+- )?(.+)$"]. *)
Definition pattern : regex :=
  Seq Bol
    (Seq (Opt (Group 1 (Seq (Plus (Class is_digit))
                          (Seq (Class (lit "-")) (Class (lit " "))))))
       (Seq (Group 2 (Plus (Class dot))) Eol)).

Definition FuzzifyInterface (name : string) : string :=
  match regex_match name pattern with
  | None => name
  | Some captures => capture 2 captures
  end.

(** The loop of [GetVolatileID] over the entries of the device list. *)
Fixpoint fuzzy_scan (device : AudioDeviceInfo) (fuzzyInterface : string)
    (entries : list (string * AudioDeviceInfo)) : option string :=
  match entries with
  | [] => None
  | (otherID, other) :: rest =>
      if negb (state_eqb (state other) CONNECTED) then
        fuzzy_scan device fuzzyInterface rest
      else
        let otherFuzzyInterface := FuzzifyInterface (interfaceName other) in
        if String.eqb fuzzyInterface otherFuzzyInterface
           && String.eqb (endpointName device) (endpointName other)
        then Some otherID
        else fuzzy_scan device fuzzyInterface rest
  end.

Definition GetVolatileID (w : AudioWorld) (device : AudioDeviceInfo)
    (strategy : DeviceMatchStrategy) : string :=
  if String.eqb (id device) "" then ""
  else
    match strategy with
    | ID => id device
    | Fuzzy =>
        if state_eqb (GetAudioDeviceState w (id device)) CONNECTED then id device
        else
          let fuzzyInterface := FuzzifyInterface (interfaceName device) in
          match fuzzy_scan device fuzzyInterface
                  (GetAudioDeviceList w (direction device)) with
          | Some otherID => otherID
          | None => id device
          end
    end.

End Resolver.

(** ** JSON values ([nlohmann::json]) *)

Module Json.

Inductive json :=
| JNull
| JBool (b : bool)
| JInt (n : Z)
| JFloat (mantissa exponent : Z)
| JString (s : string)
| JArray (items : list json)
| JObject (members : list (string * json)).

(** [j.find(key)] on an object; a value that is not an object has no member. *)
Definition json_find (j : json) (key : string) : option json :=
  match j with
  | JObject members => map_find key members
  | _ => None
  end.

(** [j.contains(key)]. *)
Definition contains (j : json) (key : string) : bool :=
  match json_find j key with Some _ => true | None => false end.

(** [j.at(key)]; [None] when it throws. *)
Definition json_at (j : json) (key : string) : option json := json_find j key.

Definition is_string (j : json) : bool :=
  match j with JString _ => true | _ => false end.

(** The implicit conversions [bool b = j] and [std::string s = j]; they throw
    [type_error] on a value of another type. *)
Definition get_bool (j : json) : option bool :=
  match j with JBool b => Some b | _ => None end.

Definition get_string (j : json) : option string :=
  match j with JString s => Some s | _ => None end.

(** [static_cast<int>] of a 64-bit JSON integer. *)
Definition to_int (n : Z) : Z :=
  ((n + 2147483648) mod 4294967296 - 2147483648)%Z.

(** [EPLJSONUtils::GetIntByName(j, name)] of the StreamDeck SDK: the member
    when it is an integer, 0 otherwise. *)
Definition GetIntByName (j : json) (name : string) : Z :=
  match json_find j name with
  | Some (JInt n) => to_int n
  | _ => 0%Z
  end.

(** The interface of [audio_json.h]: JSON conversions of the audio library's
    types.  A [from_json] that throws returns [None]. *)
Record AudioJson := mkAudioJson {
  direction_from_json : json -> option AudioDeviceDirection;
  direction_to_json : AudioDeviceDirection -> json;
  role_from_json : json -> option AudioDeviceRole;
  role_to_json : AudioDeviceRole -> json;
  device_from_json : json -> option AudioDeviceInfo;
  device_to_json : AudioDeviceInfo -> json;
}.

End Json.
Export Json.

(** ** [ButtonSettings.h] and the JSON conversions of [ButtonSettings.cpp] *)

Record HotkeyConfig := mkHotkey {
  enabled : bool;
  ctrl : bool;
  alt : bool;
  shift : bool;
  win : bool;
  keyCode : string;
}.

Definition default_hotkey : HotkeyConfig :=
  mkHotkey false false false false false "".

(** [struct ButtonSettings]; its fields [direction] and [role] are
    [bs_direction] and [bs_role], [direction] being the field of a device. *)
Record ButtonSettings := mkSettings {
  bs_direction : AudioDeviceDirection;
  bs_role : AudioDeviceRole;
  primaryDevice : AudioDeviceInfo;
  secondaryDevice : AudioDeviceInfo;
  matchStrategy : DeviceMatchStrategy;
  primaryHotkey : HotkeyConfig;
  secondaryHotkey : HotkeyConfig;
}.

Definition default_settings : ButtonSettings :=
  mkSettings INPUT DEFAULT no_device no_device ID default_hotkey default_hotkey.

Definition VolatilePrimaryID (w : AudioWorld) (bs : ButtonSettings) : string :=
  GetVolatileID w (primaryDevice bs) (matchStrategy bs).

Definition VolatileSecondaryID (w : AudioWorld) (bs : ButtonSettings) : string :=
  GetVolatileID w (secondaryDevice bs) (matchStrategy bs).

Module Import Codec.

(** Assignments to one field. *)
Definition set_enabled (hk : HotkeyConfig) (b : bool) : HotkeyConfig :=
  mkHotkey b (ctrl hk) (alt hk) (shift hk) (win hk) (keyCode hk).
Definition set_ctrl (hk : HotkeyConfig) (b : bool) : HotkeyConfig :=
  mkHotkey (enabled hk) b (alt hk) (shift hk) (win hk) (keyCode hk).
Definition set_alt (hk : HotkeyConfig) (b : bool) : HotkeyConfig :=
  mkHotkey (enabled hk) (ctrl hk) b (shift hk) (win hk) (keyCode hk).
Definition set_shift (hk : HotkeyConfig) (b : bool) : HotkeyConfig :=
  mkHotkey (enabled hk) (ctrl hk) (alt hk) b (win hk) (keyCode hk).
Definition set_win (hk : HotkeyConfig) (b : bool) : HotkeyConfig :=
  mkHotkey (enabled hk) (ctrl hk) (alt hk) (shift hk) b (keyCode hk).
Definition set_keyCode (hk : HotkeyConfig) (s : string) : HotkeyConfig :=
  mkHotkey (enabled hk) (ctrl hk) (alt hk) (shift hk) (win hk) s.

Definition set_id (d : AudioDeviceInfo) (s : string) : AudioDeviceInfo :=
  mkDevice s (interfaceName d) (endpointName d) (displayName d)
    (direction d) (state d).

Definition set_direction (bs : ButtonSettings) (x : AudioDeviceDirection) :=
  mkSettings x (bs_role bs) (primaryDevice bs) (secondaryDevice bs)
    (matchStrategy bs) (primaryHotkey bs) (secondaryHotkey bs).
Definition set_role (bs : ButtonSettings) (x : AudioDeviceRole) :=
  mkSettings (bs_direction bs) x (primaryDevice bs) (secondaryDevice bs)
    (matchStrategy bs) (primaryHotkey bs) (secondaryHotkey bs).
Definition set_primaryDevice (bs : ButtonSettings) (x : AudioDeviceInfo) :=
  mkSettings (bs_direction bs) (bs_role bs) x (secondaryDevice bs)
    (matchStrategy bs) (primaryHotkey bs) (secondaryHotkey bs).
Definition set_secondaryDevice (bs : ButtonSettings) (x : AudioDeviceInfo) :=
  mkSettings (bs_direction bs) (bs_role bs) (primaryDevice bs) x
    (matchStrategy bs) (primaryHotkey bs) (secondaryHotkey bs).
Definition set_matchStrategy (bs : ButtonSettings) (x : DeviceMatchStrategy) :=
  mkSettings (bs_direction bs) (bs_role bs) (primaryDevice bs)
    (secondaryDevice bs) x (primaryHotkey bs) (secondaryHotkey bs).
Definition set_primaryHotkey (bs : ButtonSettings) (x : HotkeyConfig) :=
  mkSettings (bs_direction bs) (bs_role bs) (primaryDevice bs)
    (secondaryDevice bs) (matchStrategy bs) x (secondaryHotkey bs).
Definition set_secondaryHotkey (bs : ButtonSettings) (x : HotkeyConfig) :=
  mkSettings (bs_direction bs) (bs_role bs) (primaryDevice bs)
    (secondaryDevice bs) (matchStrategy bs) (primaryHotkey bs) x.

(** [NLOHMANN_JSON_SERIALIZE_ENUM(DeviceMatchStrategy, ...)]: the first entry
    of the table stands for every value the table does not list. *)
Definition strategy_table : list (DeviceMatchStrategy * string) :=
  [(ID, "ID"); (Fuzzy, "Fuzzy")].

Definition strategy_from_json (j : json) : DeviceMatchStrategy :=
  match
    find (fun e => match j with
                   | JString s => String.eqb s (snd e)
                   | _ => false
                   end) strategy_table
  with
  | Some e => fst e
  | None => ID
  end.

Definition strategy_to_json (x : DeviceMatchStrategy) : json :=
  match x with ID => JString "ID" | Fuzzy => JString "Fuzzy" end.

(** One [if (j.contains(name)) x = j.at(name); else if (j.contains(alias))
    x = j.at(alias);] statement: the value converted by [conv] and stored by
    [store], or [hk] as it was. *)
Definition read_member {A T : Type} (j : json) (name alias : string)
    (conv : json -> option A) (store : T -> A -> T) (hk : T) : option T :=
  if contains j name then
    v ← json_at j name; x ← conv v; Some (store hk x)
  else if contains j alias then
    v ← json_at j alias; x ← conv v; Some (store hk x)
  else Some hk.

(** [void from_json(const nlohmann::json& j, HotkeyConfig& hk)]. *)
Definition from_json_HotkeyConfig (j : json) (hk : HotkeyConfig)
    : option HotkeyConfig :=
  hk ← read_member j "enabled" "hotkeyEnabled" get_bool set_enabled hk;
  hk ← read_member j "ctrl" "hotkeyCtrl" get_bool set_ctrl hk;
  hk ← read_member j "alt" "hotkeyAlt" get_bool set_alt hk;
  hk ← read_member j "shift" "hotkeyShift" get_bool set_shift hk;
  hk ← read_member j "win" "hotkeyWin" get_bool set_win hk;
  read_member j "keyCode" "hotkeyKey" get_string set_keyCode hk.

(** [j.get<HotkeyConfig>()], the conversion behind [bs.primaryHotkey = j]:
    [from_json] on a default-constructed value. *)
Definition get_HotkeyConfig (j : json) : option HotkeyConfig :=
  from_json_HotkeyConfig j default_hotkey.

(** [void to_json(nlohmann::json& j, const HotkeyConfig& hk)]. *)
Definition to_json_HotkeyConfig (hk : HotkeyConfig) : json :=
  JObject
    [("enabled", JBool (enabled hk));
     ("ctrl", JBool (ctrl hk));
     ("alt", JBool (alt hk));
     ("shift", JBool (shift hk));
     ("win", JBool (win hk));
     ("keyCode", JString (keyCode hk))].

Section WithAudioJson.
Variable aj : AudioJson.

(** The [primary] and [secondary] members: a bare id, or a whole device. *)
Definition read_device (j : json) (name : string) (d : AudioDeviceInfo)
    : option AudioDeviceInfo :=
  if contains j name then
    v ← json_at j name;
    if is_string v then s ← get_string v; Some (set_id d s)
    else device_from_json aj v
  else Some d.

(** [void from_json(const nlohmann::json& j, ButtonSettings& bs)]. *)
Definition from_json_ButtonSettings (j : json) (bs : ButtonSettings)
    : option ButtonSettings :=
  if negb (contains j "direction") then Some bs
  else
    v ← json_at j "direction";
    x ← direction_from_json aj v;
    let bs := set_direction bs x in
    bs ← (if contains j "role" then
            v ← json_at j "role"; x ← role_from_json aj v; Some (set_role bs x)
          else Some bs);
    p ← read_device j "primary" (primaryDevice bs);
    let bs := set_primaryDevice bs p in
    s ← read_device j "secondary" (secondaryDevice bs);
    let bs := set_secondaryDevice bs s in
    bs ← (if contains j "matchStrategy" then
            v ← json_at j "matchStrategy";
            Some (set_matchStrategy bs (strategy_from_json v))
          else Some bs);
    bs ← (if contains j "primaryHotkey" then
            v ← json_at j "primaryHotkey"; x ← get_HotkeyConfig v;
            Some (set_primaryHotkey bs x)
          else if contains j "hotkey" then
            v ← json_at j "hotkey"; x ← get_HotkeyConfig v;
            Some (set_primaryHotkey bs x)
          else Some bs);
    if contains j "secondaryHotkey" then
      v ← json_at j "secondaryHotkey"; x ← get_HotkeyConfig v;
      Some (set_secondaryHotkey bs x)
    else Some bs.

(** [j.get<ButtonSettings>()], the conversion behind [settings = j]. *)
Definition get_ButtonSettings (j : json) : option ButtonSettings :=
  from_json_ButtonSettings j default_settings.

(** [void to_json(nlohmann::json& j, const ButtonSettings& bs)]. *)
Definition to_json_ButtonSettings (bs : ButtonSettings) : json :=
  JObject
    [("direction", direction_to_json aj (bs_direction bs));
     ("role", role_to_json aj (bs_role bs));
     ("primary", device_to_json aj (primaryDevice bs));
     ("secondary", device_to_json aj (secondaryDevice bs));
     ("matchStrategy", strategy_to_json (matchStrategy bs));
     ("primaryHotkey", to_json_HotkeyConfig (primaryHotkey bs));
     ("secondaryHotkey", to_json_HotkeyConfig (secondaryHotkey bs))].

End WithAudioJson.

End Codec.

(** ** [AudioSwitcherStreamDeckPlugin.cpp] *)

Definition SET_ACTION_ID : string := "com.fredemmott.audiooutputswitch.set".
Definition TOGGLE_ACTION_ID : string := "com.fredemmott.audiooutputswitch.toggle".

(** One element of the array given to [SendInput] (the Windows structure
    [INPUT], with the fields the code sets). *)
Record INPUT_ := mkInput {
  type : Z;
  wVk : Z;
  dwFlags : Z;
}.

(** What a handler does to the outside, in order. *)
Inductive Effect :=
| SetState (state : Z) (context : string)
| ShowAlertForContext (context : string)
| SetSettings (settings : json) (context : string)
| SendToPropertyInspector (action context : string) (payload : json)
| SetDefaultAudioDeviceID (direction : AudioDeviceDirection)
    (role : AudioDeviceRole) (deviceID : string)
| SendInput (inputs : list INPUT_)
| CGEventPost (virtualKey : Z) (keyDown : bool) (flags : Z).

Inductive Exception := json_exception | invalid_argument | out_of_range.

Inductive Completion := Returns | Throws (e : Exception).

(** The build targets of [TriggerHotkey]; the Windows one comes with the
    keyboard layout behind [VkKeyScanA]. *)
Inductive Platform :=
| Win32 (VkKeyScanA : ascii -> Z)
| Apple
| OtherPlatform.

Module Import Hotkey.

(** *** [std::stoi] *)

Definition isspace (a : ascii) : bool :=
  let n := N_of_ascii a in
  (N.eqb n 32) || ((N.leb 9 n) && (N.leb n 13)).

Fixpoint skip_spaces (s : string) : string :=
  match s with
  | String a s' => if isspace a then skip_spaces s' else s
  | EmptyString => s
  end.

(** The digits at the head of [s], read in base 10 after [acc]. *)
Fixpoint read_digits (s : string) (acc : option Z) : option Z :=
  match s with
  | String a s' =>
      if Regex.is_digit a then
        read_digits s'
          (Some (10 * default 0%Z acc + (Z.of_N (N_of_ascii a) - 48))%Z)
      else acc
  | EmptyString => acc
  end.

Definition INT_MIN : Z := (-2147483648)%Z.
Definition INT_MAX : Z := 2147483647%Z.

(** [std::stoi(s)]: white space, an optional sign, decimal digits. *)
Definition stoi (s : string) : Exception + Z :=
  let s := skip_spaces s in
  let '(negative, s) :=
    match s with
    | String "-"%char s' => (true, s')
    | String "+"%char s' => (false, s')
    | _ => (false, s)
    end in
  match read_digits s None with
  | None => inl invalid_argument
  | Some n =>
      let v := if negative then (- n)%Z else n in
      if (Z.leb INT_MIN v) && (Z.leb v INT_MAX) then inr v
      else inl out_of_range
  end.

(** [s.substr(1)] and [s.substr(0, 1)] of a string that is not empty. *)
Definition substr_from_1 (s : string) : string :=
  match s with String _ s' => s' | EmptyString => "" end.

Definition substr_0_1 (s : string) : string :=
  match s with String a _ => String a "" | EmptyString => "" end.

(** *** The Windows branch *)

Definition INPUT_KEYBOARD : Z := 1.
Definition KEYEVENTF_KEYUP : Z := 2.
Definition VK_TAB : Z := 9.
Definition VK_RETURN : Z := 13.
Definition VK_SHIFT : Z := 16.
Definition VK_CONTROL : Z := 17.
Definition VK_MENU : Z := 18.
Definition VK_ESCAPE : Z := 27.
Definition VK_SPACE : Z := 32.
Definition VK_LWIN : Z := 91.
Definition VK_F1 : Z := 112.

Definition LOBYTE (x : Z) : Z := Z.land x 255.

(** A [char] stored in a [WORD]: sign extension, then 16 bits. *)
Definition char_to_WORD (a : ascii) : Z :=
  let n := Z.of_N (N_of_ascii a) in
  if Z.ltb n 128 then n else (n + 65280)%Z.

Definition is_key_letter_or_digit (a : ascii) : bool :=
  let n := N_of_ascii a in
  ((N.leb 65 n) && (N.leb n 90)) || ((N.leb 48 n) && (N.leb n 57)).

(** The value of [vkCode] when the key events are put together. *)
Definition win_vkCode (VkKeyScanA : ascii -> Z) (keyCode : string) : Z :=
  if Nat.eqb (String.length keyCode) 1 then
    match keyCode with
    | String a _ =>
        let scanCode := VkKeyScanA a in
        if negb (Z.eqb scanCode (-1)) then LOBYTE scanCode else 0%Z
    | EmptyString => 0%Z
    end
  else if String.eqb (substr_0_1 keyCode) "F"
          && Nat.leb (String.length keyCode) 3 then
    match stoi (substr_from_1 keyCode) with
    | inr fKey =>
        if (Z.leb 1 fKey) && (Z.leb fKey 24) then (VK_F1 + (fKey - 1))%Z
        else 0%Z
    | inl _ => 0%Z                     (* catch (const std::exception&) *)
    end
  else if String.eqb keyCode "SPACE" then VK_SPACE
  else if String.eqb keyCode "ENTER" || String.eqb keyCode "RETURN" then VK_RETURN
  else if String.eqb keyCode "ESCAPE" || String.eqb keyCode "ESC" then VK_ESCAPE
  else if String.eqb keyCode "TAB" then VK_TAB
  else if Nat.eqb (String.length keyCode) 1 then
    match keyCode with
    | String key _ => char_to_WORD key
    | EmptyString => 0%Z
    end
  else
    match keyCode with
    | String key _ =>
        if is_key_letter_or_digit key then Z.of_N (N_of_ascii key) else 0%Z
    | EmptyString => 0%Z
    end.

Definition press (vk : Z) : INPUT_ := mkInput INPUT_KEYBOARD vk 0.

Definition release (i : INPUT_) : INPUT_ :=
  mkInput (type i) (wVk i) KEYEVENTF_KEYUP.

Definition win_modifiers (hotkey : HotkeyConfig) : list INPUT_ :=
  (if ctrl hotkey then [press VK_CONTROL] else [])
  ++ (if alt hotkey then [press VK_MENU] else [])
  ++ (if shift hotkey then [press VK_SHIFT] else [])
  ++ (if win hotkey then [press VK_LWIN] else []).

Definition TriggerHotkey_win (VkKeyScanA : ascii -> Z) (hotkey : HotkeyConfig)
    : list Effect * Completion :=
  let modifiers := win_modifiers hotkey in
  let vkCode := win_vkCode VkKeyScanA (keyCode hotkey) in
  if negb (Z.eqb vkCode 0) then
    let key := press (LOBYTE vkCode) in
    ([SendInput (modifiers ++ [key] ++ [release key]
                 ++ map release (rev modifiers))], Returns)
  else ([], Returns).

(** *** The macOS branch *)

Definition kCGEventFlagMaskShift : Z := 131072.
Definition kCGEventFlagMaskControl : Z := 262144.
Definition kCGEventFlagMaskAlternate : Z := 524288.
Definition kCGEventFlagMaskCommand : Z := 1048576.

Definition fKeyCodes : list Z :=
  [122; 120; 99; 118; 96; 97; 98; 100; 101; 109; 103; 111]%Z.

(** The value of [keyCode], or the exception that leaves the function. *)
Definition mac_keyCode (keyCode : string) : Exception + Z :=
  if Nat.eqb (String.length keyCode) 1 then
    match keyCode with
    | String key _ =>
        let n := N_of_ascii key in
        if (N.leb 65 n) && (N.leb n 90) then inr (Z.of_N n - 65)%Z else inr 0%Z
    | EmptyString => inr 0%Z
    end
  else if String.eqb (substr_0_1 keyCode) "F"
          && Nat.leb (String.length keyCode) 3 then
    match stoi (substr_from_1 keyCode) with
    | inr fKey =>
        if (Z.leb 1 fKey) && (Z.leb fKey 12)
        then inr (nth (Z.to_nat (fKey - 1)) fKeyCodes 0%Z)
        else inr 0%Z
    | inl e => inl e
    end
  else inr 0%Z.

Definition mac_flags (hotkey : HotkeyConfig) : Z :=
  let flags := 0%Z in
  let flags := if ctrl hotkey then Z.lor flags kCGEventFlagMaskControl else flags in
  let flags := if alt hotkey then Z.lor flags kCGEventFlagMaskAlternate else flags in
  let flags := if shift hotkey then Z.lor flags kCGEventFlagMaskShift else flags in
  if win hotkey then Z.lor flags kCGEventFlagMaskCommand else flags.

Definition TriggerHotkey_mac (hotkey : HotkeyConfig) : list Effect * Completion :=
  match mac_keyCode (keyCode hotkey) with
  | inl e => ([], Throws e)
  | inr keyCode =>
      if negb (Z.eqb keyCode 0) then
        let flags := mac_flags hotkey in
        ([CGEventPost keyCode true flags; CGEventPost keyCode false flags],
         Returns)
      else ([], Returns)
  end.

(** [void TriggerHotkey(const HotkeyConfig& hotkey)]. *)
Definition TriggerHotkey (p : Platform) (hotkey : HotkeyConfig)
    : list Effect * Completion :=
  if negb (enabled hotkey) || String.eqb (keyCode hotkey) "" then ([], Returns)
  else
    match p with
    | Win32 VkKeyScanA => TriggerHotkey_win VkKeyScanA hotkey
    | Apple => TriggerHotkey_mac hotkey
    | OtherPlatform => ([], Returns)
    end.

End Hotkey.

(** *** The plugin and its handlers *)

Record Button := mkButton {
  action : string;
  context : string;
  settings : ButtonSettings;
}.

(** The value [mButtons[context]] creates for a context it does not hold. *)
Definition default_button : Button := mkButton "" "" default_settings.

Record Plugin := mkPlugin {
  mVisibleContexts : gset string;
  mButtons : gmap string Button;
}.

(** What a handler leaves behind: the plugin, what it did, and whether it
    returned or an exception left it. *)
Record Outcome := mkOutcome {
  plugin : Plugin;
  effects : list Effect;
  completion : Completion;
}.

Module Import Handlers.

Definition set_settings (b : Button) (s : ButtonSettings) : Button :=
  mkButton (action b) (context b) s.

Definition set_mButtons (st : Plugin) (m : gmap string Button) : Plugin :=
  mkPlugin (mVisibleContexts st) m.

(** [mButtons[context]]: the button, and the map that now holds it. *)
Definition subscript (st : Plugin) (context : string) : Button * Plugin :=
  let button := default default_button (mButtons st !! context) in
  (button, set_mButtons st (<[context := button]> (mButtons st))).

(** [bool FillAudioDeviceInfo(AudioDeviceInfo& di)]: the value of [di]
    afterwards, and the result. *)
Definition FillAudioDeviceInfo (w : AudioWorld) (di : AudioDeviceInfo)
    : AudioDeviceInfo * bool :=
  if String.eqb (id di) "" then (di, false)
  else if negb (String.eqb (displayName di) "") then (di, false)
  else
    let devices := GetAudioDeviceList w (direction di) in
    match map_find (id di) devices with
    | None => (di, false)
    | Some found => (found, true)
    end.

(** [action == SET_ACTION_ID]. *)
Definition is_set (action : string) : bool := String.eqb action SET_ACTION_ID.

(** The calls at the end of [UpdateState]. *)
Definition report_state (action : string) (activeDevice primaryID secondaryID
    context : string) : list Effect :=
  if is_set action then
    [SetState (if String.eqb activeDevice primaryID then 0 else 1)%Z context]
  else if String.eqb activeDevice primaryID then [SetState 0%Z context]
  else if String.eqb activeDevice secondaryID then [SetState 1%Z context]
  else [ShowAlertForContext context].

(** [void UpdateState(const std::string& context,
    const std::string& optionalDefaultDevice = {})]. *)
Definition UpdateState (w : AudioWorld) (st : Plugin) (context : string)
    (optionalDefaultDevice : string) : Outcome :=
  let '(button, st) := subscript st context in
  let action := action button in
  let settings := settings button in
  let activeDevice :=
    if String.eqb optionalDefaultDevice ""
    then GetDefaultAudioDeviceID w (bs_direction settings) (bs_role settings)
    else optionalDefaultDevice in
  let primaryID := VolatilePrimaryID w settings in
  let secondaryID := VolatileSecondaryID w settings in
  mkOutcome st
    (report_state action activeDevice primaryID secondaryID context) Returns.

(** The order of two entries of [mButtons]: the map is ordered by its keys,
    and [std::string] keys compare byte by byte, a proper prefix first. *)
Definition key_le (x y : string * Button) : Prop :=
  Is_true (String.leb (fst x) (fst y)).

#[export] Instance key_le_dec (x y : string * Button) : Decision (key_le x y) :=
  Is_true_dec (String.leb (fst x) (fst y)).

(** The entries of [mButtons] as [for (const auto& [context, button] :
    mButtons)] visits them: by increasing key. *)
Definition entries_in_key_order (m : gmap string Button)
    : list (string * Button) :=
  merge_sort key_le (map_to_list m).

(** [void OnDefaultDeviceChanged(direction, role, device)]: the loop over
    the entries of [mButtons], in the order of their keys. *)
Definition OnDefaultDeviceChanged (w : AudioWorld) (st : Plugin)
    (direction : AudioDeviceDirection) (role : AudioDeviceRole)
    (device : string) : Outcome :=
  fold_left
    (fun o entry =>
       let '(context, button) := entry in
       if negb (direction_eqb (bs_direction (settings button)) direction) then o
       else if negb (role_eqb (bs_role (settings button)) role) then o
       else
         let o' := UpdateState w (plugin o) context device in
         mkOutcome (plugin o') (effects o ++ effects o') (completion o'))
    (entries_in_key_order (mButtons st))
    (mkOutcome st [] Returns).

(** [void KeyDownForAction(inAction, inContext, inPayload, inDeviceID)]. *)
Definition KeyDownForAction (st : Plugin) (inAction inContext : string)
    (inPayload : json) (inDeviceID : string) : Outcome :=
  let state := GetIntByName inPayload "state" in
  mkOutcome st [] Returns.

(** [void WillDisappearForAction(inAction, inContext, inPayload, inDeviceID)]. *)
Definition WillDisappearForAction (st : Plugin) (inAction inContext : string)
    (inPayload : json) (inDeviceID : string) : Outcome :=
  mkOutcome
    (mkPlugin (mVisibleContexts st ∖ {[inContext]})
       (delete inContext (mButtons st)))
    [] Returns.

Section WithAudioJson.
Variable aj : AudioJson.

(** [void FillButtonDeviceInfo(const std::string& context)]. *)
Definition FillButtonDeviceInfo (w : AudioWorld) (st : Plugin)
    (context : string) : Outcome :=
  match mButtons st !! context with
  | None => mkOutcome st [] (Throws out_of_range)       (* mButtons.at *)
  | Some button =>
      let settings := settings button in
      let '(primary, filledPrimary) :=
        FillAudioDeviceInfo w (primaryDevice settings) in
      let settings := set_primaryDevice settings primary in
      let '(secondary, filledSecondary) :=
        FillAudioDeviceInfo w (secondaryDevice settings) in
      let settings := set_secondaryDevice settings secondary in
      let st :=
        set_mButtons st (<[context := set_settings button settings]> (mButtons st)) in
      if filledPrimary || filledSecondary then
        mkOutcome st
          [SetSettings (to_json_ButtonSettings aj settings) context] Returns
      else mkOutcome st [] Returns
  end.

(** [void KeyUpForAction(inAction, inContext, inPayload, inDeviceID)]. *)
Definition KeyUpForAction (p : Platform) (w : AudioWorld) (st : Plugin)
    (inAction inContext : string) (inPayload : json) (inDeviceID : string)
    : Outcome :=
  if negb (contains inPayload "settings") then mkOutcome st [] Returns
  else
    let '(button, st) := subscript st inContext in
    match json_at inPayload "settings" ≫= get_ButtonSettings aj with
    | None => mkOutcome st [] (Throws json_exception)
    | Some decoded =>
        let st :=
          set_mButtons st
            (<[inContext := set_settings button decoded]> (mButtons st)) in
        let filled := FillButtonDeviceInfo w st inContext in
        match completion filled with
        | Throws _ => filled
        | Returns =>
            let st := plugin filled in
            let done := mkOutcome st in
            let settings := settings (fst (subscript st inContext)) in
            let state := GetIntByName inPayload "state" in
            let deviceID :=
              if negb (Z.eqb state 0) || is_set inAction
              then VolatilePrimaryID w settings
              else VolatileSecondaryID w settings in
            if String.eqb deviceID "" then done (effects filled) Returns
            else
              let deviceState := GetAudioDeviceState w deviceID in
              if negb (state_eqb deviceState CONNECTED) then
                done
                  (effects filled
                   ++ (if is_set inAction then [SetState 1%Z inContext] else [])
                   ++ [ShowAlertForContext inContext])
                  Returns
              else if is_set inAction
                      && String.eqb deviceID
                           (GetDefaultAudioDeviceID w (bs_direction settings)
                              (bs_role settings)) then
                done (effects filled ++ [SetState state inContext]) Returns
              else
                let hotkeyToUse :=
                  if negb (Z.eqb state 0) || is_set inAction
                  then primaryHotkey settings
                  else secondaryHotkey settings in
                let '(keys, c) :=
                  if enabled hotkeyToUse
                     && negb (String.eqb (keyCode hotkeyToUse) "")
                  then TriggerHotkey p hotkeyToUse
                  else ([], Returns) in
                done
                  (effects filled
                   ++ [SetDefaultAudioDeviceID (bs_direction settings)
                         (bs_role settings) deviceID]
                   ++ keys)
                  c
        end
    end.

(** [void WillAppearForAction(inAction, inContext, inPayload, inDeviceID)]. *)
Definition WillAppearForAction (w : AudioWorld) (st : Plugin)
    (inAction inContext : string) (inPayload : json) (inDeviceID : string)
    : Outcome :=
  let button := mkButton inAction inContext default_settings in
  let st :=
    mkPlugin (mVisibleContexts st ∪ {[inContext]})
      (<[inContext := button]> (mButtons st)) in
  if negb (contains inPayload "settings") then mkOutcome st [] Returns
  else
    match json_at inPayload "settings" ≫= get_ButtonSettings aj with
    | None => mkOutcome st [] (Throws json_exception)
    | Some decoded =>
        let st :=
          set_mButtons st
            (<[inContext := set_settings button decoded]> (mButtons st)) in
        let updated := UpdateState w st inContext "" in
        let filled := FillButtonDeviceInfo w (plugin updated) inContext in
        mkOutcome (plugin filled) (effects updated ++ effects filled)
          (completion filled)
    end.

(** [void DidReceiveSettings(inAction, inContext, inPayload, inDeviceID)]. *)
Definition DidReceiveSettings (w : AudioWorld) (st : Plugin)
    (inAction inContext : string) (inPayload : json) (inDeviceID : string)
    : Outcome :=
  WillAppearForAction w st inAction inContext inPayload inDeviceID.

End WithAudioJson.

End Handlers.

(** ** Definitions the statements below refer to *)

Module Import Reference.
Import Regex.

(** A greedy [p+] for a character class [p]: the first character must be in
    [p]; then one more iteration is tried before the continuation. *)
Fixpoint plus_class (p : ascii -> bool)
    (k : string -> captures -> option captures) (s : string) (c : captures)
    : option captures :=
  match s with
  | String a s' =>
      if p a then orelse (plus_class p k s' c) (k s' c) else None
  | EmptyString => None
  end.

(** The continuation of [regex_match]: the input is used up. *)
Definition at_end (s : string) (c : captures) : option captures :=
  match s with EmptyString => Some c | _ => None end.

(** The remainder of [name] after a leading ["<digits>- "], when [name]
    starts with one. *)
Fixpoint drop_digits (s : string) : string :=
  match s with
  | String a s' => if is_digit a then drop_digits s' else s
  | EmptyString => s
  end.

Definition after_ordinal (name : string) : option string :=
  match name with
  | String a _ =>
      if is_digit a then
        match drop_digits name with
        | String a1 (String a2 rest) =>
            if Ascii.eqb "-" a1 && Ascii.eqb " " a2 then Some rest else None
        | _ => None
        end
      else None
  | EmptyString => None
  end.

(** The normalisation in the words of the specification: "stripping an
    optional numeric ordinal prefix of the form <digits>- ". *)
Definition strip_ordinal_prefix (name : string) : string :=
  match after_ordinal name with
  | Some rest => rest
  | None => name
  end.

Fixpoint no_line_break (s : string) : bool :=
  match s with
  | String a s' => dot a && no_line_break s'
  | EmptyString => true
  end.

(** A candidate of the scan, for a normalisation [norm] of interface names. *)
Definition fuzzy_candidate (norm : string -> string) (device : AudioDeviceInfo)
    (entry : string * AudioDeviceInfo) : bool :=
  state_eqb (state (snd entry)) CONNECTED
  && String.eqb (norm (interfaceName device)) (norm (interfaceName (snd entry)))
  && String.eqb (endpointName device) (endpointName (snd entry)).

(** The resolution under the fuzzy strategy in the words of the
    specification, for a normalisation [norm]. *)
Definition resolve_fuzzy (norm : string -> string) (w : AudioWorld)
    (device : AudioDeviceInfo) : string :=
  if state_eqb (GetAudioDeviceState w (id device)) CONNECTED then id device
  else
    match find (fuzzy_candidate norm device)
            (GetAudioDeviceList w (direction device)) with
    | Some entry => fst entry
    | None => id device
    end.

(** Modelled from the spec: the DeviceSnapshot Provider over a live set of
    devices ([listDevices(direction)] and the state of the device with a
    given id; a device that is not in the set is [UNKNOWN]). *)
Definition provider_of (live : list AudioDeviceInfo)
    (defaults : AudioDeviceDirection -> AudioDeviceRole -> string) : AudioWorld :=
  mkWorld
    (fun dir =>
       map (fun d => (id d, d))
         (filter (fun d => direction_eqb (direction d) dir = true) live))
    (fun i =>
       match find (fun d => String.eqb (id d) i) live with
       | Some d => state d
       | None => UNKNOWN
       end)
    defaults.

(** Modelled from the spec: the conversions of [audio_json.h], which is not
    among the sources: enumerations as their names in lower case, the first
    one standing for every other value, and a device as an object of its six
    members. *)
Definition model_direction_from_json (j : json) : option AudioDeviceDirection :=
  match j with
  | JString s => if String.eqb s "output" then Some OUTPUT else Some INPUT
  | _ => Some INPUT
  end.

Definition model_direction_to_json (x : AudioDeviceDirection) : json :=
  match x with INPUT => JString "input" | OUTPUT => JString "output" end.

Definition model_role_from_json (j : json) : option AudioDeviceRole :=
  match j with
  | JString s =>
      if String.eqb s "communication" then Some COMMUNICATION else Some DEFAULT
  | _ => Some DEFAULT
  end.

Definition model_role_to_json (x : AudioDeviceRole) : json :=
  match x with
  | DEFAULT => JString "default"
  | COMMUNICATION => JString "communication"
  end.

Definition model_state_from_json (j : json) : option AudioDeviceState :=
  match j with
  | JString s =>
      if String.eqb s "connected" then Some CONNECTED
      else if String.eqb s "disconnected" then Some DISCONNECTED
      else Some UNKNOWN
  | _ => Some UNKNOWN
  end.

Definition model_state_to_json (x : AudioDeviceState) : json :=
  match x with
  | CONNECTED => JString "connected"
  | DISCONNECTED => JString "disconnected"
  | UNKNOWN => JString "unknown"
  end.

Definition model_device_from_json (j : json) : option AudioDeviceInfo :=
  i ← json_at j "id" ≫= get_string;
  n ← json_at j "interfaceName" ≫= get_string;
  e ← json_at j "endpointName" ≫= get_string;
  d ← json_at j "displayName" ≫= get_string;
  dir ← json_at j "direction" ≫= model_direction_from_json;
  st ← json_at j "state" ≫= model_state_from_json;
  Some (mkDevice i n e d dir st).

Definition model_device_to_json (d : AudioDeviceInfo) : json :=
  JObject
    [("id", JString (id d));
     ("interfaceName", JString (interfaceName d));
     ("endpointName", JString (endpointName d));
     ("displayName", JString (displayName d));
     ("direction", model_direction_to_json (direction d));
     ("state", model_state_to_json (state d))].

Definition audio_json_model : AudioJson :=
  mkAudioJson model_direction_from_json model_direction_to_json
    model_role_from_json model_role_to_json
    model_device_from_json model_device_to_json.

(** The scenario of the specification: a stored descriptor "3- Headset" and the
    same headset now listed without its ordinal, under another id. *)
Definition headset_descriptor : AudioDeviceInfo :=
  mkDevice "A" "3- Headset" "Speakers" "" OUTPUT UNKNOWN.

Definition headset_live : list AudioDeviceInfo :=
  [mkDevice "B" "Headset" "Speakers" "Headset (Speakers)" OUTPUT CONNECTED].

(** A descriptor whose interface name is an ordinal and nothing else. *)
Definition bare_ordinal_descriptor : AudioDeviceInfo :=
  mkDevice "A" "3- " "Speakers" "" OUTPUT UNKNOWN.

Definition bare_ordinal_live : list AudioDeviceInfo :=
  [mkDevice "B" "7- " "Speakers" "Speakers" OUTPUT CONNECTED].

Definition no_default (_ : AudioDeviceDirection) (_ : AudioDeviceRole) : string :=
  "".

(** The value one [if contains / else if contains] statement stores: the
    member [name], else the member [alias], converted by [conv]; [dflt] when
    the object has neither; [None] when the conversion throws. *)
Definition member_value {A : Type} (j : json) (name alias : string)
    (conv : json -> option A) (dflt : A) : option A :=
  if contains j name then json_at j name ≫= conv
  else if contains j alias then json_at j alias ≫= conv
  else Some dflt.

(** The member [name] of [j], when there is one, converts. *)
Definition converts {A : Type} (j : json) (name : string)
    (conv : json -> option A) : Prop :=
  forall v, json_at j name = Some v -> is_Some (conv v).

(** The member the code reads for [name], the alias when [name] is absent,
    converts. *)
Definition converts_or_alias {A : Type} (j : json) (name alias : string)
    (conv : json -> option A) : Prop :=
  converts j name conv /\ (contains j name = false -> converts j alias conv).

(** The members of a hotkey object that are there have the type of their
    field. *)
Definition hotkey_members_convert (h : json) : Prop :=
  converts_or_alias h "enabled" "hotkeyEnabled" get_bool
  /\ converts_or_alias h "ctrl" "hotkeyCtrl" get_bool
  /\ converts_or_alias h "alt" "hotkeyAlt" get_bool
  /\ converts_or_alias h "shift" "hotkeyShift" get_bool
  /\ converts_or_alias h "win" "hotkeyWin" get_bool
  /\ converts_or_alias h "keyCode" "hotkeyKey" get_string.

(** A device member converts: it is a string, or [audio_json.h] reads it. *)
Definition device_converts (aj : AudioJson) (v : json) : option unit :=
  if is_string v then Some tt
  else match device_from_json aj v with Some _ => Some tt | None => None end.

(** The members of a settings blob that are there convert. *)
Definition settings_members_convert (aj : AudioJson) (j : json) : Prop :=
  converts j "direction" (direction_from_json aj)
  /\ converts j "role" (role_from_json aj)
  /\ converts j "primary" (device_converts aj)
  /\ converts j "secondary" (device_converts aj)
  /\ converts_or_alias j "primaryHotkey" "hotkey" get_HotkeyConfig
  /\ converts j "secondaryHotkey" get_HotkeyConfig.

(** The member names read for backward compatibility only. *)
Definition legacy_aliases : list string :=
  ["hotkey"; "hotkeyEnabled"; "hotkeyCtrl"; "hotkeyAlt"; "hotkeyShift";
   "hotkeyWin"; "hotkeyKey"].

Definition hotkey_members : list string :=
  ["enabled"; "ctrl"; "alt"; "shift"; "win"; "keyCode"].

(** A hotkey object in its canonical form: the six members, of their types. *)
Definition canonical_hotkey (h : json) : Prop :=
  exists e c a s w k,
    json_at h "enabled" = Some (JBool e)
    /\ json_at h "ctrl" = Some (JBool c)
    /\ json_at h "alt" = Some (JBool a)
    /\ json_at h "shift" = Some (JBool s)
    /\ json_at h "win" = Some (JBool w)
    /\ json_at h "keyCode" = Some (JString k).

(** Two hotkey objects agree on the six canonical members. *)
Definition same_hotkey_members (h1 h2 : json) : Prop :=
  forall name, In name hotkey_members -> json_at h1 name = json_at h2 name.

(** A fully populated blob whose [primary] is a bare id. *)
Definition hotkey_blob (key : string) : json :=
  JObject
    [("enabled", JBool true); ("ctrl", JBool true); ("alt", JBool false);
     ("shift", JBool false); ("win", JBool false); ("keyCode", JString key)].

Definition blob_with_primary (primary : json) : json :=
  JObject
    [("direction", JString "output");
     ("role", JString "default");
     ("primary", primary);
     ("secondary", model_device_to_json (mkDevice "B" "Headset" "Speakers"
                      "Headset (Speakers)" OUTPUT CONNECTED));
     ("matchStrategy", JString "Fuzzy");
     ("primaryHotkey", hotkey_blob "F1");
     ("secondaryHotkey", hotkey_blob "F2")].

(** The device stored for a [primary] or [secondary] member [v]. *)
Definition device_member (aj : AudioJson) (d : AudioDeviceInfo) (v : json)
    : option AudioDeviceInfo :=
  if is_string v then s ← get_string v; Some (set_id d s)
  else device_from_json aj v.

(** [from_json] of a blob that has a [direction], field by field. *)
Definition decode_fields (aj : AudioJson) (j : json) (bs : ButtonSettings)
    : option ButtonSettings :=
  d ← json_at j "direction" ≫= direction_from_json aj;
  r ← member_value j "role" "role" (role_from_json aj) (bs_role bs);
  p ← member_value j "primary" "primary"
        (device_member aj (primaryDevice bs)) (primaryDevice bs);
  s ← member_value j "secondary" "secondary"
        (device_member aj (secondaryDevice bs)) (secondaryDevice bs);
  m ← member_value j "matchStrategy" "matchStrategy"
        (fun v => Some (strategy_from_json v)) (matchStrategy bs);
  ph ← member_value j "primaryHotkey" "hotkey" get_HotkeyConfig
         (primaryHotkey bs);
  sh ← member_value j "secondaryHotkey" "secondaryHotkey" get_HotkeyConfig
         (secondaryHotkey bs);
  Some (mkSettings d r p s m ph sh).

(** [from_json] of a hotkey object, field by field. *)
Definition decode_hotkey_fields (j : json) (hk : HotkeyConfig)
    : option HotkeyConfig :=
  e ← member_value j "enabled" "hotkeyEnabled" get_bool (enabled hk);
  c ← member_value j "ctrl" "hotkeyCtrl" get_bool (ctrl hk);
  a ← member_value j "alt" "hotkeyAlt" get_bool (alt hk);
  s ← member_value j "shift" "hotkeyShift" get_bool (shift hk);
  w ← member_value j "win" "hotkeyWin" get_bool (win hk);
  k ← member_value j "keyCode" "hotkeyKey" get_string (keyCode hk);
  Some (mkHotkey e c a s w k).


Definition legacy_blob : json :=
  JObject
    [("direction", JString "output");
     ("hotkey", JObject [("hotkeyEnabled", JBool true);
                         ("hotkeyKey", JString "A")])].



Definition some_settings : ButtonSettings :=
  mkSettings OUTPUT COMMUNICATION headset_descriptor no_device Fuzzy
    (mkHotkey true true false false false "F5") default_hotkey.

(** *** The controller *)

(** A descriptor that [FillAudioDeviceInfo] repairs with [live]: its id is
    not empty, its display name is, and the device list of its direction has
    [live] under its id. *)
Definition needs_backfill (w : AudioWorld) (di live : AudioDeviceInfo) : Prop :=
  id di <> ""
  /\ displayName di = ""
  /\ map_find (id di) (GetAudioDeviceList w (direction di)) = Some live.

(** The settings of a button after [FillButtonDeviceInfo]. *)
Definition backfilled (w : AudioWorld) (bs : ButtonSettings) : ButtonSettings :=
  set_secondaryDevice
    (set_primaryDevice bs (fst (FillAudioDeviceInfo w (primaryDevice bs))))
    (fst (FillAudioDeviceInfo w (secondaryDevice bs))).

(** The button [KeyUpForAction] works on, once the settings of the payload
    are stored. *)
Definition pressed_button (st : Plugin) (inContext : string)
    (decoded : ButtonSettings) : Plugin :=
  set_mButtons st
    (<[inContext :=
         set_settings (default default_button (mButtons st !! inContext))
           decoded]> (mButtons st)).

(** The two device slots of a button. *)
Inductive Slot := Primary | Secondary.

Definition slot_device (slot : Slot) (bs : ButtonSettings) : AudioDeviceInfo :=
  match slot with Primary => primaryDevice bs | Secondary => secondaryDevice bs end.

Definition slot_hotkey (slot : Slot) (bs : ButtonSettings) : HotkeyConfig :=
  match slot with Primary => primaryHotkey bs | Secondary => secondaryHotkey bs end.

(** The slot an activation targets, in the words of the specification. *)
Definition target_slot (action : string) (reportedState : Z) : Slot :=
  if is_set action || negb (Z.eqb reportedState 0) then Primary else Secondary.

(** The activation of one slot: steps 2 to 6 of the controller. *)
Definition activate (p : Platform) (w : AudioWorld) (action context : string)
    (reportedState : Z) (bs : ButtonSettings) (slot : Slot)
    : list Effect * Completion :=
  let targetId := GetVolatileID w (slot_device slot bs) (matchStrategy bs) in
  if String.eqb targetId "" then ([], Returns)
  else if negb (state_eqb (GetAudioDeviceState w targetId) CONNECTED) then
    ((if is_set action then [SetState 1%Z context] else [])
     ++ [ShowAlertForContext context], Returns)
  else if is_set action
          && String.eqb targetId
               (GetDefaultAudioDeviceID w (bs_direction bs) (bs_role bs)) then
    ([SetState reportedState context], Returns)
  else
    let hotkey := slot_hotkey slot bs in
    let keys :=
      if enabled hotkey && negb (String.eqb (keyCode hotkey) "")
      then TriggerHotkey p hotkey else ([], Returns) in
    (SetDefaultAudioDeviceID (bs_direction bs) (bs_role bs) targetId :: fst keys,
     snd keys).

(** The context an effect is addressed to. *)
Definition effect_context (e : Effect) : option string :=
  match e with
  | SetState _ c | ShowAlertForContext c | SetSettings _ c
  | SendToPropertyInspector _ c _ => Some c
  | _ => None
  end.

Definition addressed_to (context : string) (e : Effect) : bool :=
  match effect_context e with
  | Some c => String.eqb c context
  | None => false
  end.

(** A request to the host to persist settings. *)
Definition is_persist (e : Effect) : bool :=
  match e with SetSettings _ _ => true | _ => false end.

(** A change of the default device, or an injected key event. *)
Definition is_switch_or_key (e : Effect) : bool :=
  match e with
  | SetDefaultAudioDeviceID _ _ _ | SendInput _ | CGEventPost _ _ _ => true
  | _ => false
  end.

Definition is_set_state (e : Effect) : bool :=
  match e with SetState _ _ => true | _ => false end.

(** What the loop of [OnDefaultDeviceChanged] does for one entry. *)
Definition notify_entry (w : AudioWorld) (direction : AudioDeviceDirection)
    (role : AudioDeviceRole) (device : string) (entry : string * Button)
    : list Effect :=
  let '(context, button) := entry in
  if direction_eqb (bs_direction (settings button)) direction
     && role_eqb (bs_role (settings button)) role
  then
    report_state (action button)
      (if String.eqb device ""
       then GetDefaultAudioDeviceID w (bs_direction (settings button))
              (bs_role (settings button))
       else device)
      (VolatilePrimaryID w (settings button))
      (VolatileSecondaryID w (settings button)) context
  else [].

(** *** A scenario: one button on the headset of the example *)

(** Settings as decoded from a blob that stored a bare id "B". *)
Definition stale_settings : ButtonSettings :=
  mkSettings OUTPUT DEFAULT (mkDevice "B" "" "" "" OUTPUT UNKNOWN) no_device
    ID default_hotkey default_hotkey.

Definition demo_plugin (action : string) (bs : ButtonSettings) : Plugin :=
  mkPlugin {[ "ctx" ]} {[ "ctx" := mkButton action "ctx" bs ]}.

(** The headset "B" is connected; the default output device is [current]. *)
Definition demo_world (current : string) : AudioWorld :=
  provider_of headset_live (fun _ _ => current).

(** A button between the devices "A" and "B", matched by id. *)
Definition ab_settings : ButtonSettings :=
  mkSettings OUTPUT DEFAULT
    (mkDevice "A" "Headset" "Speakers" "Headset (Speakers)" OUTPUT CONNECTED)
    (mkDevice "B" "Monitor" "Speakers" "Monitor (Speakers)" OUTPUT CONNECTED)
    ID default_hotkey default_hotkey.

(** Two toggle buttons between "A" and "B", registered under the contexts
    "a" and "B". *)
Definition two_buttons : Plugin :=
  mkPlugin {[ "a"; "B" ]}
    (<["a" := mkButton TOGGLE_ACTION_ID "a" ab_settings]>
       {[ "B" := mkButton TOGGLE_ACTION_ID "B" ab_settings ]}).

(** The plugin once the button [context] appeared with the settings
    [decoded]. *)
Definition appeared (st : Plugin) (inAction context : string)
    (decoded : ButtonSettings) : Plugin :=
  mkPlugin (mVisibleContexts st ∪ {[context]})
    (<[context := mkButton inAction context decoded]> (mButtons st)).

(** A Set button on the connected headset "B", already the default device,
    pressed while the host shows it in state 1. *)
Definition headset_settings : ButtonSettings :=
  mkSettings OUTPUT DEFAULT
    (mkDevice "B" "Headset" "Speakers" "Headset (Speakers)" OUTPUT CONNECTED)
    no_device ID (mkHotkey true true false false false "F1") default_hotkey.

Definition press_payload (bs : ButtonSettings) (reportedState : Z) : json :=
  JObject
    [("settings", to_json_ButtonSettings audio_json_model bs);
     ("state", JInt reportedState)].

(** The headset button with a hotkey named "FX": not a single character,
    not a function key, not a named key. *)
Definition fx_hotkey : HotkeyConfig := mkHotkey true false false false false "FX".

Definition fx_settings : ButtonSettings :=
  mkSettings OUTPUT DEFAULT
    (mkDevice "B" "Headset" "Speakers" "Headset (Speakers)" OUTPUT CONNECTED)
    no_device ID fx_hotkey default_hotkey.

End Reference.

(** ** The remaining handlers of [AudioSwitcherStreamDeckPlugin.cpp] *)

Module Import Inspector.

(** [EPLJSONUtils::GetStringByName(j, name)] of the StreamDeck SDK: the
    member when it is a string, the empty string otherwise. *)
Definition GetStringByName (j : json) (name : string) : string :=
  match json_find j name with
  | Some (JString s) => s
  | _ => ""
  end.

(** [json(devices)] for the map [GetAudioDeviceList] returns: an object with
    one member per device, under its key. *)
Definition device_list_to_json (aj : AudioJson)
    (devices : list (string * AudioDeviceInfo)) : json :=
  JObject (map (fun entry => (fst entry, device_to_json aj (snd entry))) devices).

(** [void SendToPlugin(inAction, inContext, inPayload, inDeviceID)]. *)
Definition SendToPlugin (aj : AudioJson) (w : AudioWorld) (st : Plugin)
    (inAction inContext : string) (inPayload : json) (inDeviceID : string)
    : Outcome :=
  let event := GetStringByName inPayload "event" in
  if String.eqb event "getDeviceList" then
    let outputList := GetAudioDeviceList w OUTPUT in
    let inputList := GetAudioDeviceList w INPUT in
    mkOutcome st
      [SendToPropertyInspector inAction inContext
         (JObject
            [("event", JString event);
             ("outputDevices", device_list_to_json aj outputList);
             ("inputDevices", device_list_to_json aj inputList)])]
      Returns
  else mkOutcome st [] Returns.

(** [void DeviceDidConnect(inDeviceID, inDeviceInfo)]. *)
Definition DeviceDidConnect (st : Plugin) (inDeviceID : string)
    (inDeviceInfo : json) : Outcome :=
  mkOutcome st [] Returns.

(** [void DeviceDidDisconnect(inDeviceID)]. *)
Definition DeviceDidDisconnect (st : Plugin) (inDeviceID : string) : Outcome :=
  mkOutcome st [] Returns.

(** [void DidReceiveGlobalSettings(inPayload)]. *)
Definition DidReceiveGlobalSettings (st : Plugin) (inPayload : json) : Outcome :=
  mkOutcome st [] Returns.

End Inspector.

(** ** Further definitions the statements below refer to *)

Module Import Notions.
Import Regex.

(** A string of decimal digits. *)
Fixpoint all_digits (s : string) : bool :=
  match s with
  | String a s' => is_digit a && all_digits s'
  | EmptyString => true
  end.

(** [suffix] is what is left of [s] after some of its first characters. *)
Definition is_suffix (suffix s : string) : Prop :=
  exists before, s = String.append before suffix.

(** An injected key event. *)
Definition is_key_event (e : Effect) : bool :=
  match e with
  | SendInput _ | CGEventPost _ _ _ => true
  | _ => false
  end.

Definition is_switch (e : Effect) : bool :=
  match e with SetDefaultAudioDeviceID _ _ _ => true | _ => false end.

(** The state the host shows for a slot. *)
Definition slot_state (slot : Slot) : Z :=
  match slot with Primary => 0%Z | Secondary => 1%Z end.

(** A button of the direction and role of a notification. *)
Definition concerns (direction : AudioDeviceDirection) (role : AudioDeviceRole)
    (entry : string * Button) : bool :=
  direction_eqb (bs_direction (settings (snd entry))) direction
  && role_eqb (bs_role (settings (snd entry))) role.

(** A state or an alert for a button. *)
Definition is_report (e : Effect) : bool :=
  match e with
  | SetState _ _ | ShowAlertForContext _ => true
  | _ => false
  end.

(** The device list of every direction holds each device under its own id
    and under its own direction. *)
Definition coherent_lists (w : AudioWorld) : Prop :=
  forall dir key d,
    map_find key (GetAudioDeviceList w dir) = Some d ->
    id d = key /\ direction d = dir.

(** A hotkey object with the legacy member names only. *)
Definition legacy_hotkey_blob : json :=
  JObject
    [("hotkeyEnabled", JBool true); ("hotkeyCtrl", JBool true);
     ("hotkeyKey", JString "A")].

(** A hotkey object with a member under both names. *)
Definition mixed_hotkey_blob : json :=
  JObject
    [("enabled", JBool false); ("hotkeyEnabled", JBool true);
     ("keyCode", JString "B"); ("hotkeyKey", JString "A")].

(** A key name that is tried as a function key: two or three characters,
    the first one "F". *)
Definition function_key_form (keyCode : string) : bool :=
  String.eqb (substr_0_1 keyCode) "F" && Nat.leb (String.length keyCode) 3
  && negb (Nat.eqb (String.length keyCode) 1).

(** The names the Windows branch knows. *)
Definition win_named_keys : list string :=
  ["SPACE"; "ENTER"; "RETURN"; "ESCAPE"; "ESC"; "TAB"].

Definition first_char (s : string) : option ascii :=
  match s with String a _ => Some a | EmptyString => None end.

Definition set_hotkey_key (hk : HotkeyConfig) (key : string) : HotkeyConfig :=
  set_keyCode hk key.

(** The field value [x] was read from the member [name], from the member
    [alias] when there is no [name], and is [dflt] when there is neither. *)
Definition reads_member {A : Type} (j : json) (name alias : string)
    (conv : json -> option A) (dflt x : A) : Prop :=
  (forall v, json_at j name = Some v -> conv v = Some x)
  /\ (json_at j name = None ->
      forall v, json_at j alias = Some v -> conv v = Some x)
  /\ (json_at j name = None -> json_at j alias = None -> x = dflt).

End Notions.

(** * Properties *)

Lemma direction_eqb_eq a b : direction_eqb a b = true <-> a = b.
Proof. destruct a, b; simpl; split; congruence. Qed.

Lemma role_eqb_eq a b : role_eqb a b = true <-> a = b.
Proof. destruct a, b; simpl; split; congruence. Qed.

Lemma state_eqb_eq a b : state_eqb a b = true <-> a = b.
Proof. destruct a, b; simpl; split; congruence. Qed.

(** ** The matcher on the pattern of [FuzzifyInterface] *)

Section RegexFacts.
Import Regex.

Lemma plus_loop_class p len k fuel s c :
  String.length s <= fuel ->
  plus_loop (run (Class p) len) k fuel s c = plus_class p k s c.
Proof.
  revert fuel c. induction s as [|a s IH]; intros fuel c Hfuel.
  - destruct fuel; reflexivity.
  - destruct fuel as [|fuel]; [simpl in Hfuel; lia|].
    simpl. destruct (p a); [|reflexivity].
    assert (Hlt : (String.length s <? S (String.length s))%nat = true)
      by (apply Nat.ltb_lt; lia).
    rewrite Hlt, IH; [reflexivity | simpl in Hfuel; lia].
Qed.

Lemma run_plus_class p len k s c :
  run (Plus (Class p)) len s c k = plus_class p k s c.
Proof.
  change (plus_loop (run (Class p) len) k (String.length s) s c
          = plus_class p k s c).
  apply plus_loop_class. lia.
Qed.

Lemma take_string_all s : take_string (String.length s) s = s.
Proof. induction s as [|a s IH]; simpl; [reflexivity | now rewrite IH]. Qed.

(** [(.+)$] at the end of the pattern takes the whole of what is left, which
    must be non-empty and free of line terminators. *)
Lemma plus_dot_to_end k (f : captures -> captures) s c :
  (forall c', k EmptyString c' = Some (f c')) ->
  (forall a s' c', k (String a s') c' = None) ->
  plus_class dot k s c
  = if negb (String.eqb s "") && no_line_break s then Some (f c) else None.
Proof.
  intros Hend Hmore. induction s as [|a s IH]; [reflexivity|].
  cbn [plus_class no_line_break]. destruct (dot a); [|reflexivity].
  rewrite IH. destruct s as [|b s].
  - simpl. apply Hend.
  - cbn [String.eqb negb andb].
    destruct (no_line_break (String b s)); [reflexivity|].
    simpl. apply Hmore.
Qed.

Lemma run_seq r1 r2 len s c k :
  run (Seq r1 r2) len s c k = run r1 len s c (fun s' c' => run r2 len s' c' k).
Proof. reflexivity. Qed.

Lemma run_group i r len s c k :
  run (Group i r) len s c k =
  run r len s c
    (fun s' c' =>
       k s' ((i, take_string (String.length s - String.length s') s) :: c')).
Proof. reflexivity. Qed.

Lemma run_bol len s c k :
  run Bol len s c k = if Nat.eqb (String.length s) len then k s c else None.
Proof. reflexivity. Qed.

Lemma run_class p len s c k :
  run (Class p) len s c k =
  match s with
  | String a s' => if p a then k s' c else None
  | EmptyString => None
  end.
Proof. reflexivity. Qed.

Lemma run_opt r len s c k :
  run (Opt r) len s c k = orelse (run r len s c k) (k s c).
Proof. reflexivity. Qed.

Lemma run_tail len s c :
  run (Seq (Group 2 (Plus (Class dot))) Eol) len s c at_end =
  if negb (String.eqb s "") && no_line_break s then Some ((2, s) :: c) else None.
Proof.
  rewrite run_seq, run_group, run_plus_class.
  rewrite plus_dot_to_end with (f := fun c' => (2, s) :: c').
  - reflexivity.
  - intros c'. simpl. now rewrite Nat.sub_0_r, take_string_all.
  - reflexivity.
Qed.

(** [[0-9]+] followed by something that cannot start with a digit takes all
    the digits at the head. *)
Lemma plus_digits k s c :
  (forall a s' c', is_digit a = true -> k (String a s') c' = None) ->
  plus_class is_digit k s c =
    match s with
    | String a _ => if is_digit a then k (drop_digits s) c else None
    | EmptyString => None
    end.
Proof.
  intros Hk. induction s as [|a s IH]; [reflexivity|].
  cbn [plus_class drop_digits]. destruct (is_digit a) eqn:Ha; [|reflexivity].
  rewrite IH. destruct s as [|b s]; [reflexivity|].
  cbn [drop_digits]. destruct (is_digit b) eqn:Hb.
  - destruct (k (drop_digits s) c) eqn:E; [reflexivity|].
    simpl. now apply Hk.
  - reflexivity.
Qed.

End RegexFacts.

(** [FuzzifyInterface] drops a leading ["<digits>- "] exactly when something
    without a line break follows it, and leaves every other name whole. *)
Lemma FuzzifyInterface_spec name :
  FuzzifyInterface name =
    match after_ordinal name with
    | Some rest =>
        if negb (String.eqb rest "") && no_line_break rest then rest else name
    | None => name
    end.
Proof.
  unfold FuzzifyInterface, Regex.regex_match, pattern.
  fold at_end.
  rewrite run_seq, run_bol, Nat.eqb_refl.
  rewrite run_seq, run_opt.
  rewrite run_group, run_seq, run_plus_class.
  rewrite plus_digits.
  2:{ intros a s' c' Ha. rewrite run_seq, run_class.
      destruct a as [[] [] [] [] [] [] [] []]; try reflexivity; discriminate Ha. }
  rewrite run_tail. unfold after_ordinal.
  match goal with
  | |- context [Regex.orelse _ ?alt] => set (whole := alt)
  end.
  assert (Hwhole : match whole with
                   | Some captures => Regex.capture 2 captures
                   | None => name
                   end = name).
  { subst whole. destruct (negb (name =? "") && no_line_break name); reflexivity. }
  clearbody whole.
  destruct name as [|a name]; [exact Hwhole|].
  destruct (Regex.is_digit a); [|exact Hwhole].
  rewrite run_seq, run_class.
  destruct (drop_digits (String a name)) as [|a1 [|a2 rest]].
  - exact Hwhole.
  - unfold Regex.lit. destruct (Ascii.eqb "-" a1); exact Hwhole.
  - unfold Regex.lit. rewrite run_class.
    destruct (Ascii.eqb "-" a1); [|exact Hwhole].
    destruct (Ascii.eqb " " a2); [|exact Hwhole].
    rewrite run_tail. cbn [andb].
    destruct (negb (rest =? "") && no_line_break rest); [reflexivity|].
    exact Hwhole.
Qed.

(** ** The volatile id *)

Lemma fuzzy_scan_find device entries :
  fuzzy_scan device (FuzzifyInterface (interfaceName device)) entries =
  match find (fuzzy_candidate FuzzifyInterface device) entries with
  | Some entry => Some (fst entry)
  | None => None
  end.
Proof.
  induction entries as [|[otherID other] rest IH]; [reflexivity|].
  cbn [fuzzy_scan find]. unfold fuzzy_candidate at 1. cbn [fst snd].
  destruct (state_eqb (state other) CONNECTED); cbn [negb andb]; [|exact IH].
  destruct (FuzzifyInterface (interfaceName device)
            =? FuzzifyInterface (interfaceName other));
    cbn [andb]; [|exact IH].
  destruct (endpointName device =? endpointName other); [reflexivity | exact IH].
Qed.

Lemma GetVolatileID_empty w device strategy :
  id device = "" -> GetVolatileID w device strategy = "".
Proof. intros H. unfold GetVolatileID. now rewrite H. Qed.

Lemma GetVolatileID_ID w device : GetVolatileID w device ID = id device.
Proof.
  unfold GetVolatileID. destruct (String.eqb_spec (id device) ""); congruence.
Qed.

Lemma GetVolatileID_Fuzzy w device :
  id device <> "" ->
  GetVolatileID w device Fuzzy = resolve_fuzzy FuzzifyInterface w device.
Proof.
  intros Hid. unfold GetVolatileID, resolve_fuzzy.
  destruct (String.eqb_spec (id device) ""); [contradiction|].
  destruct (state_eqb (GetAudioDeviceState w (id device)) CONNECTED);
    [reflexivity|].
  rewrite fuzzy_scan_find.
  now destruct (find _ _).
Qed.

Example fuzzify_ordinal : FuzzifyInterface "2- Speakers" = "Speakers".
Proof. reflexivity. Qed.

Example fuzzify_plain : FuzzifyInterface "Speakers" = "Speakers".
Proof. reflexivity. Qed.

Example fuzzify_two_ordinals : FuzzifyInterface "12- 3- Foo" = "3- Foo".
Proof. reflexivity. Qed.

Example fuzzify_bare_ordinal : FuzzifyInterface "3- " = "3- ".
Proof. reflexivity. Qed.

Example fuzzify_empty : FuzzifyInterface "" = "".
Proof. reflexivity. Qed.

(** No connected device with the endpoint name of the descriptor: the stale
    id comes back. *)
Example no_match_fallback :
  GetVolatileID
    (provider_of
       [mkDevice "B" "Headset" "Microphone" "" OUTPUT CONNECTED;
        mkDevice "C" "Headset" "Speakers" "" OUTPUT DISCONNECTED;
        mkDevice "D" "Headset" "Speakers" "" INPUT CONNECTED]
       no_default)
    headset_descriptor Fuzzy = "A".
Proof. reflexivity. Qed.

(** Several candidates: the first one of the list. *)
Example first_candidate :
  GetVolatileID
    (provider_of
       [mkDevice "B" "5- Headset" "Speakers" "" OUTPUT CONNECTED;
        mkDevice "C" "Headset" "Speakers" "" OUTPUT CONNECTED]
       no_default)
    headset_descriptor Fuzzy = "B".
Proof. reflexivity. Qed.

(** C1 (amended).  Under the fuzzy strategy a descriptor with a non-empty id
    resolves to its own id when the device of that id is connected; otherwise
    to the id of the first connected entry of the device list of its
    direction whose normalised interface name and whose endpoint name are
    equal to the descriptor's; otherwise to its own id.  The normalisation
    [FuzzifyInterface] removes a leading ["<digits>- "] only when at least
    one character follows it and no line break does; every other name is
    kept whole.  The descriptor "3- Headset" of id "A" resolves to "B". *)
Theorem fuzzy_resolution (w : AudioWorld) (device : AudioDeviceInfo) :
  id device <> "" ->
  GetVolatileID w device Fuzzy = resolve_fuzzy FuzzifyInterface w device
  /\ (forall name,
        FuzzifyInterface name =
          match after_ordinal name with
          | Some rest =>
              if negb (String.eqb rest "") && no_line_break rest
              then rest else name
          | None => name
          end)
  /\ (forall defaults,
        GetVolatileID (provider_of headset_live defaults)
          headset_descriptor Fuzzy = "B").
Proof.
  intros Hid. split; [now apply GetVolatileID_Fuzzy|].
  split; [exact FuzzifyInterface_spec | reflexivity].
Qed.

Lemma fuzzy_resolution_witness :
  id headset_descriptor <> ""
  /\ GetVolatileID (provider_of headset_live no_default) headset_descriptor Fuzzy
     = resolve_fuzzy FuzzifyInterface (provider_of headset_live no_default)
         headset_descriptor.
Proof.
  split; [discriminate|].
  apply (fuzzy_resolution (provider_of headset_live no_default)
           headset_descriptor).
  discriminate.
Defined.

(** C1 as the specification words it, with the ordinal stripped from every
    name that starts with one, is not what the code computes: for the
    interface name "3- " the pattern needs a character after the ordinal, so
    the name stays whole and differs from "7- ". *)
Lemma fuzzy_resolution_bare_ordinal :
  GetVolatileID (provider_of bare_ordinal_live no_default)
    bare_ordinal_descriptor Fuzzy = "A"
  /\ resolve_fuzzy strip_ordinal_prefix (provider_of bare_ordinal_live no_default)
       bare_ordinal_descriptor = "B"
  /\ GetVolatileID (provider_of bare_ordinal_live no_default)
       bare_ordinal_descriptor Fuzzy
     <> resolve_fuzzy strip_ordinal_prefix
          (provider_of bare_ordinal_live no_default) bare_ordinal_descriptor.
Proof. repeat split; try reflexivity. vm_compute. discriminate. Qed.

(** ** Decoding and encoding the settings *)

Lemma contains_json_at j name :
  contains j name = true <-> exists v, json_at j name = Some v.
Proof.
  unfold contains, json_at. destruct (json_find j name); split.
  - eauto.
  - reflexivity.
  - discriminate.
  - intros [v Hv]. discriminate.
Qed.

Lemma contains_false_json_at j name :
  contains j name = false <-> json_at j name = None.
Proof.
  unfold contains, json_at. destruct (json_find j name); split;
    congruence.
Qed.

Lemma member_value_present {A} j name alias (conv : json -> option A) dflt v :
  json_at j name = Some v -> member_value j name alias conv dflt = conv v.
Proof.
  intros H. unfold member_value.
  assert (Hc : contains j name = true) by (apply contains_json_at; eauto).
  now rewrite Hc, H.
Qed.

Lemma member_value_alias {A} j name alias (conv : json -> option A) dflt v :
  contains j name = false -> json_at j alias = Some v ->
  member_value j name alias conv dflt = conv v.
Proof.
  intros Hn H. unfold member_value. rewrite Hn.
  assert (Hc : contains j alias = true) by (apply contains_json_at; eauto).
  now rewrite Hc, H.
Qed.

Lemma member_value_absent {A} j name alias (conv : json -> option A) dflt :
  contains j name = false -> contains j alias = false ->
  member_value j name alias conv dflt = Some dflt.
Proof. intros Hn Ha. unfold member_value. now rewrite Hn, Ha. Qed.

Lemma member_value_total {A} j name alias (conv : json -> option A) dflt :
  converts_or_alias j name alias conv ->
  is_Some (member_value j name alias conv dflt).
Proof.
  intros [Hn Ha]. unfold member_value.
  destruct (contains j name) eqn:Cn.
  - apply contains_json_at in Cn as [v Hv]. rewrite Hv. simpl. eauto.
  - destruct (contains j alias) eqn:Ca; [|eauto].
    apply contains_json_at in Ca as [v Hv]. rewrite Hv. simpl.
    now apply Ha.
Qed.

Lemma converts_alias_self {A} j name (conv : json -> option A) :
  converts j name conv -> converts_or_alias j name name conv.
Proof. intros H. split; [exact H | intros _; exact H]. Qed.

Lemma read_member_value {A T} j name alias (conv : json -> option A)
    (store : T -> A -> T) (proj : T -> A) hk :
  store hk (proj hk) = hk ->
  read_member j name alias conv store hk =
  x ← member_value j name alias conv (proj hk); Some (store hk x).
Proof.
  intros Hstore. unfold read_member, member_value.
  destruct (contains j name).
  - destruct (json_at j name) as [v|]; [|reflexivity]. simpl.
    now destruct (conv v).
  - destruct (contains j alias).
    + destruct (json_at j alias) as [v|]; [|reflexivity]. simpl.
      now destruct (conv v).
    + simpl. now rewrite Hstore.
Qed.

Lemma from_json_HotkeyConfig_fields j hk :
  from_json_HotkeyConfig j hk = decode_hotkey_fields j hk.
Proof.
  unfold from_json_HotkeyConfig, decode_hotkey_fields.
  destruct hk as [e c a s w k].
  rewrite (read_member_value _ _ _ _ set_enabled enabled) by reflexivity.
  cbn [enabled ctrl alt shift win keyCode].
  destruct (member_value j "enabled" _ _ _) as [e'|]; [|reflexivity].
  cbn [mbind option_bind].
  rewrite (read_member_value _ _ _ _ set_ctrl ctrl) by reflexivity.
  cbn [ctrl set_enabled].
  destruct (member_value j "ctrl" _ _ _) as [c'|]; [|reflexivity].
  cbn [mbind option_bind].
  rewrite (read_member_value _ _ _ _ set_alt alt) by reflexivity.
  cbn [alt set_ctrl].
  destruct (member_value j "alt" _ _ _) as [a'|]; [|reflexivity].
  cbn [mbind option_bind].
  rewrite (read_member_value _ _ _ _ set_shift shift) by reflexivity.
  cbn [shift set_alt].
  destruct (member_value j "shift" _ _ _) as [s'|]; [|reflexivity].
  cbn [mbind option_bind].
  rewrite (read_member_value _ _ _ _ set_win win) by reflexivity.
  cbn [win set_shift].
  destruct (member_value j "win" _ _ _) as [w'|]; [|reflexivity].
  cbn [mbind option_bind].
  rewrite (read_member_value _ _ _ _ set_keyCode keyCode) by reflexivity.
  cbn [keyCode set_win].
  destruct (member_value j "keyCode" _ _ _) as [k'|]; reflexivity.
Qed.

Lemma from_json_ButtonSettings_noop aj j bs :
  contains j "direction" = false -> from_json_ButtonSettings aj j bs = Some bs.
Proof. intros H. unfold from_json_ButtonSettings. now rewrite H. Qed.

Lemma from_json_ButtonSettings_fields aj j bs :
  contains j "direction" = true ->
  from_json_ButtonSettings aj j bs = decode_fields aj j bs.
Proof.
  intros Hc. unfold from_json_ButtonSettings, decode_fields.
  rewrite Hc. cbn [negb]. destruct bs as [d r p s m ph sh].
  cbn [bs_direction bs_role primaryDevice secondaryDevice matchStrategy
       primaryHotkey secondaryHotkey].
  destruct (json_at j "direction") as [v|]; [|reflexivity].
  cbn [mbind option_bind].
  destruct (direction_from_json aj v) as [d'|]; [|reflexivity].
  cbn [mbind option_bind].
  unfold member_value, read_device, device_member.
  destruct (contains j "role");
    [destruct (json_at j "role") as [vr|]; [|reflexivity];
     cbn [mbind option_bind];
     destruct (role_from_json aj vr); [|reflexivity] |];
    cbn [mbind option_bind set_direction set_role bs_direction bs_role
         primaryDevice secondaryDevice matchStrategy primaryHotkey
         secondaryHotkey].
  all: destruct (contains j "primary");
    [destruct (json_at j "primary") as [vp|]; [|reflexivity];
     cbn [mbind option_bind];
     destruct (is_string vp);
     [destruct (get_string vp); [|reflexivity]
     |destruct (device_from_json aj vp); [|reflexivity]] |];
    cbn [mbind option_bind set_primaryDevice bs_direction bs_role
         primaryDevice secondaryDevice matchStrategy primaryHotkey
         secondaryHotkey].
  all: destruct (contains j "secondary");
    [destruct (json_at j "secondary") as [vs|]; [|reflexivity];
     cbn [mbind option_bind];
     destruct (is_string vs);
     [destruct (get_string vs); [|reflexivity]
     |destruct (device_from_json aj vs); [|reflexivity]] |];
    cbn [mbind option_bind set_secondaryDevice bs_direction bs_role
         primaryDevice secondaryDevice matchStrategy primaryHotkey
         secondaryHotkey].
  all: destruct (contains j "matchStrategy");
    [destruct (json_at j "matchStrategy") as [vm|]; [|reflexivity] |];
    cbn [mbind option_bind set_matchStrategy bs_direction bs_role
         primaryDevice secondaryDevice matchStrategy primaryHotkey
         secondaryHotkey].
  all: destruct (contains j "primaryHotkey");
    [destruct (json_at j "primaryHotkey") as [vh|]; [|reflexivity];
     cbn [mbind option_bind];
     destruct (get_HotkeyConfig vh); [|reflexivity]
    |destruct (contains j "hotkey");
     [destruct (json_at j "hotkey") as [vh|]; [|reflexivity];
      cbn [mbind option_bind];
      destruct (get_HotkeyConfig vh); [|reflexivity] |]];
    cbn [mbind option_bind set_primaryHotkey bs_direction bs_role
         primaryDevice secondaryDevice matchStrategy primaryHotkey
         secondaryHotkey].
  all: destruct (contains j "secondaryHotkey");
    [destruct (json_at j "secondaryHotkey") as [vh2|]; [|reflexivity];
     cbn [mbind option_bind];
     destruct (get_HotkeyConfig vh2); reflexivity |];
    reflexivity.
Qed.


Lemma device_member_total aj d v :
  is_Some (device_converts aj v) -> is_Some (device_member aj d v).
Proof.
  unfold device_converts, device_member.
  destruct v; cbn [is_string]; try (destruct (device_from_json aj _);
    [eauto | intros [? ?]; discriminate]).
  intros _. simpl. eauto.
Qed.

Lemma from_json_ButtonSettings_soft aj j bs :
  contains j "direction" = true -> settings_members_convert aj j ->
  exists bs',
    from_json_ButtonSettings aj j bs = Some bs'
    /\ (exists v, json_at j "direction" = Some v
                  /\ direction_from_json aj v = Some (bs_direction bs'))
    /\ (contains j "role" = false -> bs_role bs' = bs_role bs)
    /\ (contains j "primary" = false -> primaryDevice bs' = primaryDevice bs)
    /\ (contains j "secondary" = false ->
        secondaryDevice bs' = secondaryDevice bs)
    /\ (contains j "matchStrategy" = false ->
        matchStrategy bs' = matchStrategy bs)
    /\ (contains j "primaryHotkey" = false -> contains j "hotkey" = false ->
        primaryHotkey bs' = primaryHotkey bs)
    /\ (contains j "secondaryHotkey" = false ->
        secondaryHotkey bs' = secondaryHotkey bs).
Proof.
  intros Hdir (Hd & Hr & Hp & Hs & Hph & Hsh).
  rewrite from_json_ButtonSettings_fields by assumption.
  unfold decode_fields.
  apply contains_json_at in Hdir as [v Hv].
  destruct (Hd v Hv) as [d Ed]. rewrite Hv. cbn [mbind option_bind]. rewrite Ed.
  cbn [mbind option_bind].
  destruct (member_value_total j "role" "role" _ (bs_role bs)
              (converts_alias_self _ _ _ Hr)) as [r Er].
  assert (Hp' : converts j "primary" (device_member aj (primaryDevice bs))).
  { intros x Hx. apply device_member_total. now apply Hp. }
  assert (Hs' : converts j "secondary" (device_member aj (secondaryDevice bs))).
  { intros x Hx. apply device_member_total. now apply Hs. }
  destruct (member_value_total j "primary" "primary" _ (primaryDevice bs)
              (converts_alias_self _ _ _ Hp')) as [p Ep].
  destruct (member_value_total j "secondary" "secondary" _ (secondaryDevice bs)
              (converts_alias_self _ _ _ Hs')) as [s Es].
  assert (Hm : converts j "matchStrategy"
                 (fun v => Some (strategy_from_json v))) by (intros x Hx; eauto).
  destruct (member_value_total j "matchStrategy" "matchStrategy" _
              (matchStrategy bs) (converts_alias_self _ _ _ Hm)) as [m Em].
  destruct (member_value_total j "primaryHotkey" "hotkey" _ (primaryHotkey bs)
              Hph) as [ph Eph].
  destruct (member_value_total j "secondaryHotkey" "secondaryHotkey" _
              (secondaryHotkey bs) (converts_alias_self _ _ _ Hsh)) as [sh Esh].
  rewrite Er, Ep, Es, Em, Eph, Esh. cbn [mbind option_bind].
  eexists. split; [reflexivity|].
  cbn [bs_direction bs_role primaryDevice secondaryDevice matchStrategy
       primaryHotkey secondaryHotkey].
  split; [eauto|].
  repeat split.
  - intros H. rewrite member_value_absent in Er by assumption. now inversion Er.
  - intros H. rewrite member_value_absent in Ep by assumption. now inversion Ep.
  - intros H. rewrite member_value_absent in Es by assumption. now inversion Es.
  - intros H. rewrite member_value_absent in Em by assumption. now inversion Em.
  - intros H1 H2. rewrite member_value_absent in Eph by assumption.
    now inversion Eph.
  - intros H. rewrite member_value_absent in Esh by assumption.
    now inversion Esh.
Qed.

(** Through [settings = blob] a blob without a [direction] gives the
    default settings. *)
Lemma get_ButtonSettings_directionless aj j :
  contains j "direction" = false -> get_ButtonSettings aj j = Some default_settings.
Proof. apply from_json_ButtonSettings_noop. Qed.





(** The legacy form of the primary hotkey decodes into the primary hotkey. *)
Example legacy_alias_decode :
  get_ButtonSettings audio_json_model legacy_blob =
  Some (mkSettings OUTPUT DEFAULT no_device no_device ID
          (mkHotkey true false false false false "A") default_hotkey).
Proof. reflexivity. Qed.

Lemma to_json_HotkeyConfig_no_alias hk alias :
  In alias legacy_aliases -> contains (to_json_HotkeyConfig hk) alias = false.
Proof.
  intros H. simpl in H.
  repeat (destruct H as [<-|H]; [reflexivity|]). contradiction.
Qed.

Lemma to_json_ButtonSettings_no_alias aj bs alias :
  In alias legacy_aliases -> contains (to_json_ButtonSettings aj bs) alias = false.
Proof.
  intros H. simpl in H.
  repeat (destruct H as [<-|H]; [reflexivity|]). contradiction.
Qed.

Lemma get_HotkeyConfig_canonical h :
  canonical_hotkey h ->
  exists hk,
    get_HotkeyConfig h = Some hk
    /\ same_hotkey_members (to_json_HotkeyConfig hk) h.
Proof.
  intros (e & c & a & s & w & k & He & Hc & Ha & Hs & Hw & Hk).
  exists (mkHotkey e c a s w k). split.
  - unfold get_HotkeyConfig. rewrite from_json_HotkeyConfig_fields.
    unfold decode_hotkey_fields.
    rewrite (member_value_present _ _ _ _ _ _ He).
    rewrite (member_value_present _ _ _ _ _ _ Hc).
    rewrite (member_value_present _ _ _ _ _ _ Ha).
    rewrite (member_value_present _ _ _ _ _ _ Hs).
    rewrite (member_value_present _ _ _ _ _ _ Hw).
    rewrite (member_value_present _ _ _ _ _ _ Hk).
    reflexivity.
  - intros name Hin. simpl in Hin.
    repeat (destruct Hin as [<-|Hin]; [symmetry; assumption|]). contradiction.
Qed.

Lemma strategy_round_trip m : strategy_from_json (strategy_to_json m) = m.
Proof. now destruct m. Qed.

(** C8 (amended).  For a blob that holds every canonical member in its
    canonical form ([direction], [role] and the two devices as [audio_json.h]
    writes them, the devices as whole descriptors and not as bare ids,
    [matchStrategy] "ID" or "Fuzzy", the two hotkeys with their six members
    of the right types), decoding succeeds and encoding the result gives back
    the value of every canonical member; the encoded blob and its hotkeys
    have no member under a legacy alias. *)
Theorem encode_decode_canonical (aj : AudioJson) (blob : json)
    (dir : AudioDeviceDirection) (role : AudioDeviceRole)
    (p s : AudioDeviceInfo) (m : DeviceMatchStrategy) (ph sh : json) :
  (forall d, direction_from_json aj (direction_to_json aj d) = Some d) ->
  (forall r, role_from_json aj (role_to_json aj r) = Some r) ->
  (forall d, device_from_json aj (device_to_json aj d) = Some d) ->
  (forall d, is_string (device_to_json aj d) = false) ->
  json_at blob "direction" = Some (direction_to_json aj dir) ->
  json_at blob "role" = Some (role_to_json aj role) ->
  json_at blob "primary" = Some (device_to_json aj p) ->
  json_at blob "secondary" = Some (device_to_json aj s) ->
  json_at blob "matchStrategy" = Some (strategy_to_json m) ->
  json_at blob "primaryHotkey" = Some ph -> canonical_hotkey ph ->
  json_at blob "secondaryHotkey" = Some sh -> canonical_hotkey sh ->
  exists bs,
    get_ButtonSettings aj blob = Some bs
    /\ json_at (to_json_ButtonSettings aj bs) "direction" = json_at blob "direction"
    /\ json_at (to_json_ButtonSettings aj bs) "role" = json_at blob "role"
    /\ json_at (to_json_ButtonSettings aj bs) "primary" = json_at blob "primary"
    /\ json_at (to_json_ButtonSettings aj bs) "secondary" = json_at blob "secondary"
    /\ json_at (to_json_ButtonSettings aj bs) "matchStrategy"
       = json_at blob "matchStrategy"
    /\ (exists ph',
          json_at (to_json_ButtonSettings aj bs) "primaryHotkey" = Some ph'
          /\ same_hotkey_members ph' ph
          /\ forall alias, In alias legacy_aliases -> contains ph' alias = false)
    /\ (exists sh',
          json_at (to_json_ButtonSettings aj bs) "secondaryHotkey" = Some sh'
          /\ same_hotkey_members sh' sh
          /\ forall alias, In alias legacy_aliases -> contains sh' alias = false)
    /\ (forall alias, In alias legacy_aliases ->
        contains (to_json_ButtonSettings aj bs) alias = false).
Proof.
  intros Ldir Lrole Ldev Lstr Hdir Hrole Hp Hs Hm Hph Cph Hsh Csh.
  destruct (get_HotkeyConfig_canonical ph Cph) as (hp & Ehp & Shp).
  destruct (get_HotkeyConfig_canonical sh Csh) as (hs & Ehs & Shs).
  exists (mkSettings dir role p s m hp hs).
  split.
  - unfold get_ButtonSettings.
    rewrite from_json_ButtonSettings_fields
      by (apply contains_json_at; eauto).
    unfold decode_fields. rewrite Hdir. cbn [mbind option_bind]. rewrite Ldir.
    cbn [mbind option_bind].
    rewrite (member_value_present _ _ _ _ _ _ Hrole), Lrole.
    cbn [mbind option_bind].
    assert (Lmem : forall d0 d, device_member aj d0 (device_to_json aj d) = Some d).
    { intros d0 d. unfold device_member. now rewrite Lstr, Ldev. }
    rewrite (member_value_present _ _ _ _ _ _ Hp), Lmem. cbn [mbind option_bind].
    rewrite (member_value_present _ _ _ _ _ _ Hs), Lmem. cbn [mbind option_bind].
    rewrite (member_value_present _ _ _ _ _ _ Hm). cbn [mbind option_bind].
    rewrite strategy_round_trip.
    rewrite (member_value_present _ _ _ _ _ _ Hph), Ehp. cbn [mbind option_bind].
    rewrite (member_value_present _ _ _ _ _ _ Hsh), Ehs. reflexivity.
  - rewrite Hdir, Hrole, Hp, Hs, Hm.
    repeat (split; [reflexivity|]).
    split; [|split].
    + exists (to_json_HotkeyConfig hp). split; [reflexivity|].
      split; [exact Shp | intros; now apply to_json_HotkeyConfig_no_alias].
    + exists (to_json_HotkeyConfig hs). split; [reflexivity|].
      split; [exact Shs | intros; now apply to_json_HotkeyConfig_no_alias].
    + intros; now apply to_json_ButtonSettings_no_alias.
Qed.

Lemma hotkey_blob_canonical key : canonical_hotkey (hotkey_blob key).
Proof. exists true, true, false, false, false, key. repeat split. Qed.

Lemma model_device_round_trip d :
  model_device_from_json (model_device_to_json d) = Some d.
Proof. destruct d as [i n e dn [] []]; reflexivity. Qed.

Lemma encode_decode_canonical_witness :
  exists bs,
    get_ButtonSettings audio_json_model
      (blob_with_primary (model_device_to_json headset_descriptor)) = Some bs
    /\ json_at (to_json_ButtonSettings audio_json_model bs) "primary"
       = json_at (blob_with_primary (model_device_to_json headset_descriptor))
           "primary".
Proof.
  destruct (encode_decode_canonical audio_json_model
              (blob_with_primary (model_device_to_json headset_descriptor))
              OUTPUT DEFAULT headset_descriptor
              (mkDevice "B" "Headset" "Speakers" "Headset (Speakers)"
                 OUTPUT CONNECTED)
              Fuzzy (hotkey_blob "F1") (hotkey_blob "F2"))
    as (bs & E & _ & _ & Hp & _).
  - intros []; reflexivity.
  - intros []; reflexivity.
  - exact model_device_round_trip.
  - reflexivity.
  - reflexivity.
  - reflexivity.
  - reflexivity.
  - reflexivity.
  - reflexivity.
  - reflexivity.
  - apply hotkey_blob_canonical.
  - reflexivity.
  - apply hotkey_blob_canonical.
  - exists bs. split; assumption.
Defined.

(** C8 as stated fails on a blob whose [primary] is a bare id, a form of the
    canonical member the decoder accepts: the encoder writes the whole
    descriptor. *)
Lemma encode_decode_bare_id :
  (exists bs,
     get_ButtonSettings audio_json_model (blob_with_primary (JString "A"))
     = Some bs
     /\ id (primaryDevice bs) = "A")
  /\ json_at (blob_with_primary (JString "A")) "primary" = Some (JString "A")
  /\ (forall bs,
        get_ButtonSettings audio_json_model (blob_with_primary (JString "A"))
        = Some bs ->
        json_at (to_json_ButtonSettings audio_json_model bs) "primary"
        <> json_at (blob_with_primary (JString "A")) "primary").
Proof.
  split; [eexists; split; reflexivity|]. split; [reflexivity|].
  intros bs E. vm_compute in E. inversion E; subst. vm_compute. discriminate.
Qed.

(** ** Backfilling the device descriptors *)

Lemma FillAudioDeviceInfo_fill w di live :
  needs_backfill w di live -> FillAudioDeviceInfo w di = (live, true).
Proof.
  intros (Hid & Hname & Hfind). unfold FillAudioDeviceInfo.
  destruct (String.eqb_spec (id di) ""); [contradiction|].
  rewrite Hname. cbn [String.eqb negb]. now rewrite Hfind.
Qed.

Lemma FillAudioDeviceInfo_keep w di :
  (forall live, ~ needs_backfill w di live) ->
  FillAudioDeviceInfo w di = (di, false).
Proof.
  intros Hno. unfold FillAudioDeviceInfo.
  destruct (String.eqb_spec (id di) "") as [|Hid]; [reflexivity|].
  destruct (String.eqb_spec (displayName di) "") as [Hname|]; [|reflexivity].
  cbn [negb].
  destruct (map_find (id di) (GetAudioDeviceList w (direction di)))
    as [live|] eqn:E; [|reflexivity].
  exfalso. apply (Hno live). now repeat split.
Qed.

Lemma FillAudioDeviceInfo_flag w di :
  snd (FillAudioDeviceInfo w di) = true ->
  exists live, needs_backfill w di live /\ fst (FillAudioDeviceInfo w di) = live.
Proof.
  unfold FillAudioDeviceInfo.
  destruct (String.eqb_spec (id di) "") as [|Hid]; [discriminate|].
  destruct (String.eqb_spec (displayName di) "") as [Hname|]; [|discriminate].
  cbn [negb].
  destruct (map_find (id di) (GetAudioDeviceList w (direction di)))
    as [live|] eqn:E; [|discriminate].
  intros _. exists live. now repeat split.
Qed.

Lemma FillButtonDeviceInfo_eq aj w st context button :
  mButtons st !! context = Some button ->
  FillButtonDeviceInfo aj w st context =
  mkOutcome
    (set_mButtons st
       (<[context := set_settings button (backfilled w (settings button))]>
          (mButtons st)))
    (if snd (FillAudioDeviceInfo w (primaryDevice (settings button)))
        || snd (FillAudioDeviceInfo w (secondaryDevice (settings button)))
     then [SetSettings
             (to_json_ButtonSettings aj (backfilled w (settings button)))
             context]
     else [])
    Returns.
Proof.
  intros H. unfold FillButtonDeviceInfo, backfilled. rewrite H.
  destruct (FillAudioDeviceInfo w (primaryDevice (settings button)))
    as [p fp].
  cbn [set_primaryDevice secondaryDevice fst snd].
  destruct (FillAudioDeviceInfo w (secondaryDevice (settings button)))
    as [s fs].
  cbn [fst snd]. now destruct (fp || fs).
Qed.

(** C9.  [FillButtonDeviceInfo] on a registered button returns; each of the
    two descriptors that has an id, no display name and a device under its id
    in the list of its direction is replaced by that device, and then the
    settings are sent to the host to be persisted; a descriptor that is not
    in this case is kept; when neither is, nothing is sent. *)
Theorem backfill_persists (aj : AudioJson) (w : AudioWorld) (st : Plugin)
    (context : string) (button : Button) :
  mButtons st !! context = Some button ->
  let o := FillButtonDeviceInfo aj w st context in
  let after := backfilled w (settings button) in
  completion o = Returns
  /\ mButtons (plugin o) !! context = Some (set_settings button after)
  /\ (forall live, needs_backfill w (primaryDevice (settings button)) live ->
      primaryDevice after = live
      /\ effects o = [SetSettings (to_json_ButtonSettings aj after) context])
  /\ (forall live, needs_backfill w (secondaryDevice (settings button)) live ->
      secondaryDevice after = live
      /\ effects o = [SetSettings (to_json_ButtonSettings aj after) context])
  /\ ((forall live, ~ needs_backfill w (primaryDevice (settings button)) live) ->
      primaryDevice after = primaryDevice (settings button))
  /\ ((forall live, ~ needs_backfill w (secondaryDevice (settings button)) live) ->
      secondaryDevice after = secondaryDevice (settings button))
  /\ ((forall live, ~ needs_backfill w (primaryDevice (settings button)) live) ->
      (forall live, ~ needs_backfill w (secondaryDevice (settings button)) live) ->
      effects o = []).
Proof.
  intros H o after. subst o after.
  rewrite (FillButtonDeviceInfo_eq aj w st context button H).
  cbn [completion plugin effects mButtons set_mButtons].
  split; [reflexivity|]. split; [apply lookup_insert_eq|].
  unfold backfilled.
  cbn [primaryDevice secondaryDevice set_primaryDevice set_secondaryDevice].
  repeat split.
  - now rewrite (FillAudioDeviceInfo_fill _ _ _ H0).
  - now rewrite (FillAudioDeviceInfo_fill _ _ _ H0).
  - now rewrite (FillAudioDeviceInfo_fill _ _ _ H0).
  - rewrite (FillAudioDeviceInfo_fill _ _ _ H0). cbn [snd].
    now rewrite orb_true_r.
  - intros Hno. now rewrite (FillAudioDeviceInfo_keep _ _ Hno).
  - intros Hno. now rewrite (FillAudioDeviceInfo_keep _ _ Hno).
  - intros Hp Hs.
    now rewrite (FillAudioDeviceInfo_keep _ _ Hp),
                (FillAudioDeviceInfo_keep _ _ Hs).
Qed.

Lemma backfill_persists_witness :
  mButtons (demo_plugin SET_ACTION_ID stale_settings) !! "ctx"
  = Some (mkButton SET_ACTION_ID "ctx" stale_settings)
  /\ effects (FillButtonDeviceInfo audio_json_model (demo_world "B")
                (demo_plugin SET_ACTION_ID stale_settings) "ctx")
     = [SetSettings
          (to_json_ButtonSettings audio_json_model
             (backfilled (demo_world "B") stale_settings)) "ctx"].
Proof.
  assert (H : mButtons (demo_plugin SET_ACTION_ID stale_settings) !! "ctx"
              = Some (mkButton SET_ACTION_ID "ctx" stale_settings))
    by apply lookup_singleton_eq.
  split; [exact H|].
  destruct (backfill_persists audio_json_model (demo_world "B")
              (demo_plugin SET_ACTION_ID stale_settings) "ctx" _ H)
    as (_ & _ & Hp & _).
  apply (Hp (mkDevice "B" "Headset" "Speakers" "Headset (Speakers)"
               OUTPUT CONNECTED)).
  repeat split. discriminate.
Defined.

(** ** The handlers *)

Lemma subscript_registered st context button :
  mButtons st !! context = Some button ->
  subscript st context = (button, st).
Proof.
  intros H. unfold subscript. rewrite H. cbn [default].
  destruct st as [v m]. unfold set_mButtons. cbn [mVisibleContexts mButtons] in *.
  now rewrite insert_id.
Qed.

Lemma UpdateState_registered w st context device button :
  mButtons st !! context = Some button ->
  UpdateState w st context device =
  mkOutcome st (notify_entry w (bs_direction (settings button))
                  (bs_role (settings button)) device (context, button))
    Returns.
Proof.
  intros H. unfold UpdateState. rewrite (subscript_registered _ _ _ H).
  unfold notify_entry.
  assert (Hd : direction_eqb (bs_direction (settings button))
                 (bs_direction (settings button)) = true)
    by (now destruct (bs_direction (settings button))).
  assert (Hr : role_eqb (bs_role (settings button))
                 (bs_role (settings button)) = true)
    by (now destruct (bs_role (settings button))).
  now rewrite Hd, Hr.
Qed.

Lemma notify_entry_matching w direction role device context button :
  direction_eqb (bs_direction (settings button)) direction = true ->
  role_eqb (bs_role (settings button)) role = true ->
  notify_entry w direction role device (context, button) =
  notify_entry w (bs_direction (settings button)) (bs_role (settings button))
    device (context, button).
Proof.
  intros Hd Hr. unfold notify_entry. rewrite Hd, Hr.
  destruct (bs_direction (settings button)), (bs_role (settings button));
    reflexivity.
Qed.

Lemma OnDefaultDeviceChanged_fold w st direction role device entries acc :
  (forall c b, In (c, b) entries -> mButtons st !! c = Some b) ->
  fold_left
    (fun o entry =>
       let '(context, button) := entry in
       if negb (direction_eqb (bs_direction (settings button)) direction) then o
       else if negb (role_eqb (bs_role (settings button)) role) then o
       else
         let o' := UpdateState w (plugin o) context device in
         mkOutcome (plugin o') (effects o ++ effects o') (completion o'))
    entries (mkOutcome st acc Returns)
  = mkOutcome st
      (acc ++ flat_map (notify_entry w direction role device) entries) Returns.
Proof.
  revert acc. induction entries as [|[c b] rest IH]; intros acc Hreg.
  - simpl. now rewrite app_nil_r.
  - cbn [fold_left flat_map].
    assert (Hb : mButtons st !! c = Some b) by (apply Hreg; now left).
    assert (Hrest : forall c' b', In (c', b') rest -> mButtons st !! c' = Some b')
      by (intros; apply Hreg; now right).
    destruct (direction_eqb (bs_direction (settings b)) direction) eqn:Hd;
      cbn [negb].
    + destruct (role_eqb (bs_role (settings b)) role) eqn:Hr; cbn [negb].
      * cbn [plugin]. rewrite (UpdateState_registered _ _ _ _ _ Hb).
        cbn [plugin effects completion].
        rewrite IH by assumption. rewrite <- app_assoc.
        now rewrite (notify_entry_matching _ _ _ _ _ _ Hd Hr).
      * rewrite IH by assumption. unfold notify_entry at 2. rewrite Hd, Hr.
        reflexivity.
    + rewrite IH by assumption. unfold notify_entry at 2. rewrite Hd.
      reflexivity.
Qed.

(** The visiting order holds exactly the entries of the map, each key
    once, and is sorted by key. *)
Lemma elem_of_entries_in_key_order (m : gmap string Button) c b :
  (c, b) ∈ entries_in_key_order m <-> m !! c = Some b.
Proof.
  unfold entries_in_key_order.
  rewrite (merge_sort_Permutation key_le (map_to_list m)).
  apply elem_of_map_to_list.
Qed.

Lemma NoDup_fst_entries_in_key_order (m : gmap string Button) :
  NoDup ((entries_in_key_order m).*1).
Proof.
  unfold entries_in_key_order.
  rewrite (merge_sort_Permutation key_le (map_to_list m)).
  apply NoDup_fst_map_to_list.
Qed.

Lemma entries_in_key_order_singleton c (b : Button) :
  entries_in_key_order {[c := b]} = [(c, b)].
Proof.
  unfold entries_in_key_order. now rewrite map_to_list_singleton.
Qed.

#[local] Instance key_le_total : Total key_le.
Proof.
  intros x y. unfold key_le.
  destruct (String.leb_total (fst x) (fst y)) as [H|H]; rewrite H; cbn; auto.
Qed.

Lemma ascii_compare_trans a b c o :
  Ascii.compare a b = o -> Ascii.compare b c = o -> Ascii.compare a c = o.
Proof.
  unfold Ascii.compare. destruct o; intros H1 H2.
  - apply N.compare_eq_iff in H1, H2. apply N.compare_eq_iff. congruence.
  - apply N.compare_lt_iff in H1. apply N.compare_lt_iff in H2.
    apply N.compare_lt_iff. exact (N.lt_trans _ _ _ H1 H2).
  - apply N.compare_gt_iff in H1. apply N.compare_gt_iff in H2.
    apply N.compare_gt_iff. exact (N.lt_trans _ _ _ H2 H1).
Qed.

Lemma string_compare_lt_trans s1 : forall s2 s3,
  String.compare s1 s2 = Lt -> String.compare s2 s3 = Lt ->
  String.compare s1 s3 = Lt.
Proof.
  induction s1 as [|a s1 IH]; intros [|b s2] [|c s3]; cbn;
    try discriminate; try reflexivity.
  destruct (Ascii.compare a b) eqn:Hab; try discriminate;
    destruct (Ascii.compare b c) eqn:Hbc; try discriminate; intros H1 H2.
  - rewrite (ascii_compare_trans _ _ _ _ Hab Hbc). eauto.
  - apply Ascii.compare_eq_iff in Hab. subst b. now rewrite Hbc.
  - apply Ascii.compare_eq_iff in Hbc. subst c. now rewrite Hab.
  - now rewrite (ascii_compare_trans _ _ _ _ Hab Hbc).
Qed.

#[local] Instance key_le_trans : Transitive key_le.
Proof.
  intros [x bx] [y by_] [z bz]. unfold key_le, String.leb. cbn [fst].
  destruct (String.compare x y) eqn:Hxy; cbn; try contradiction;
    destruct (String.compare y z) eqn:Hyz; cbn; try contradiction;
    intros _ _.
  - pose proof (String.compare_eq_iff _ _ Hxy). subst. now rewrite Hyz.
  - apply String.compare_eq_iff in Hxy. subst. now rewrite Hyz.
  - apply String.compare_eq_iff in Hyz. subst. now rewrite Hxy.
  - now rewrite (string_compare_lt_trans _ _ _ Hxy Hyz).
Qed.

Lemma entries_in_key_order_sorted (m : gmap string Button) :
  StronglySorted key_le (entries_in_key_order m).
Proof. apply StronglySorted_merge_sort; apply _. Qed.

Lemma OnDefaultDeviceChanged_eq w st direction role device :
  OnDefaultDeviceChanged w st direction role device =
  mkOutcome st
    (flat_map (notify_entry w direction role device)
       (entries_in_key_order (mButtons st)))
    Returns.
Proof.
  unfold OnDefaultDeviceChanged.
  rewrite OnDefaultDeviceChanged_fold; [reflexivity|].
  intros c b Hin. apply elem_of_entries_in_key_order. now apply list_elem_of_In.
Qed.

Lemma report_state_addressed action active primaryID secondaryID context e :
  In e (report_state action active primaryID secondaryID context) ->
  effect_context e = Some context.
Proof.
  unfold report_state.
  destruct (is_set action);
    [|destruct (active =? primaryID); [|destruct (active =? secondaryID)]];
    intros [<-|[]]; reflexivity.
Qed.

Lemma notify_entry_addressed w direction role device context button e :
  In e (notify_entry w direction role device (context, button)) ->
  effect_context e = Some context.
Proof.
  unfold notify_entry.
  destruct (_ && _); [apply report_state_addressed | intros []].
Qed.

Lemma filter_addressed_all context effs :
  (forall e, In e effs -> effect_context e = Some context) ->
  List.filter (addressed_to context) effs = effs.
Proof.
  induction effs as [|e effs IH]; intros H; [reflexivity|].
  cbn [List.filter]. unfold addressed_to at 1.
  rewrite (H e) by now left. rewrite String.eqb_refl.
  f_equal. apply IH. intros; apply H; now right.
Qed.

Lemma filter_addressed_none context other effs :
  other <> context ->
  (forall e, In e effs -> effect_context e = Some other) ->
  List.filter (addressed_to context) effs = [].
Proof.
  intros Hne. induction effs as [|e effs IH]; intros H; [reflexivity|].
  cbn [List.filter]. unfold addressed_to at 1.
  rewrite (H e) by now left.
  destruct (String.eqb_spec other context); [contradiction|].
  apply IH. intros; apply H; now right.
Qed.

Lemma filter_notifications w direction role device context button
    (entries : list (string * Button)) :
  NoDup (entries.*1) -> (context, button) ∈ entries ->
  List.filter (addressed_to context)
    (flat_map (notify_entry w direction role device) entries)
  = notify_entry w direction role device (context, button).
Proof.
  induction entries as [|[c b] rest IH]; intros Hnd Hin.
  - now apply elem_of_nil in Hin.
  - cbn [flat_map]. rewrite List.filter_app.
    cbn [fmap list_fmap fst] in Hnd. apply NoDup_cons in Hnd as [Hc Hnd].
    apply elem_of_cons in Hin as [Heq|Hin].
    + inversion Heq; subst c b.
      rewrite filter_addressed_all
        by (intros e; apply notify_entry_addressed).
      assert (Hrest : List.filter (addressed_to context)
                        (flat_map (notify_entry w direction role device) rest)
                      = []).
      { clear IH Hnd. induction rest as [|[c' b'] rest IH]; [reflexivity|].
        cbn [flat_map]. rewrite List.filter_app.
        assert (c' <> context).
        { intros ->. apply Hc. cbn [fmap list_fmap fst]. apply elem_of_cons.
          now left. }
        rewrite (filter_addressed_none context c') by
          (try assumption; intros e; apply notify_entry_addressed).
        apply IH. intros Hin. apply Hc. cbn [fmap list_fmap fst].
        apply elem_of_cons. now right. }
      rewrite Hrest. apply app_nil_r.
    + assert (c <> context).
      { intros ->. apply Hc.
        apply (list_elem_of_fmap_2 fst) in Hin. exact Hin. }
      rewrite (filter_addressed_none context c) by
        (try assumption; intros e; apply notify_entry_addressed).
      now apply IH.
Qed.


Lemma UpdateState_effects w st context device button :
  mButtons st !! context = Some button ->
  UpdateState w st context device =
  mkOutcome st
    (report_state (action button)
       (if String.eqb device ""
        then GetDefaultAudioDeviceID w (bs_direction (settings button))
               (bs_role (settings button))
        else device)
       (VolatilePrimaryID w (settings button))
       (VolatileSecondaryID w (settings button)) context)
    Returns.
Proof.
  intros H. unfold UpdateState. now rewrite (subscript_registered _ _ _ H).
Qed.

Lemma WillAppearForAction_eq aj w st inAction inContext inPayload inDeviceID
    sj decoded :
  json_at inPayload "settings" = Some sj ->
  get_ButtonSettings aj sj = Some decoded ->
  WillAppearForAction aj w st inAction inContext inPayload inDeviceID =
  let st' := appeared st inAction inContext decoded in
  let filled := FillButtonDeviceInfo aj w st' inContext in
  mkOutcome (plugin filled)
    (effects (UpdateState w st' inContext "") ++ effects filled)
    (completion filled).
Proof.
  intros Hs Hd. unfold WillAppearForAction.
  assert (Hc : contains inPayload "settings" = true)
    by (apply contains_json_at; eauto).
  rewrite Hc, Hs. cbn [negb mbind option_bind]. rewrite Hd.
  unfold set_mButtons, set_settings.
  cbn [mVisibleContexts mButtons action context].
  rewrite insert_insert_eq. fold (appeared st inAction inContext decoded).
  assert (Hreg : mButtons (appeared st inAction inContext decoded) !! inContext
                 = Some (mkButton inAction inContext decoded))
    by apply lookup_insert_eq.
  rewrite (UpdateState_effects _ _ _ _ _ Hreg). reflexivity.
Qed.




Lemma pressed_button_lookup st inContext decoded :
  mButtons (pressed_button st inContext decoded) !! inContext
  = Some (set_settings (default default_button (mButtons st !! inContext))
            decoded).
Proof. apply lookup_insert_eq. Qed.

(** [KeyUpForAction] on a payload whose settings decode: the settings are
    stored and backfilled, then one slot is activated. *)
Lemma KeyUpForAction_eq p aj w st inAction inContext inPayload inDeviceID
    sj decoded :
  json_at inPayload "settings" = Some sj ->
  get_ButtonSettings aj sj = Some decoded ->
  KeyUpForAction aj p w st inAction inContext inPayload inDeviceID =
  let filled :=
    FillButtonDeviceInfo aj w (pressed_button st inContext decoded) inContext in
  let reportedState := GetIntByName inPayload "state" in
  let act :=
    activate p w inAction inContext reportedState (backfilled w decoded)
      (target_slot inAction reportedState) in
  mkOutcome (plugin filled) (effects filled ++ fst act) (snd act).
Proof.
  intros Hs Hd. unfold KeyUpForAction.
  assert (Hc : contains inPayload "settings" = true)
    by (apply contains_json_at; eauto).
  rewrite Hc, Hs. cbn [negb mbind option_bind]. rewrite Hd.
  unfold subscript at 1. cbv beta iota zeta.
  assert (Hst : set_mButtons
                  (set_mButtons st
                     (<[inContext := default default_button
                                       (mButtons st !! inContext)]>
                        (mButtons st)))
                  (<[inContext :=
                       set_settings
                         (default default_button (mButtons st !! inContext))
                         decoded]>
                     (mButtons
                        (set_mButtons st
                           (<[inContext := default default_button
                                             (mButtons st !! inContext)]>
                              (mButtons st)))))
                = pressed_button st inContext decoded).
  { unfold pressed_button, set_mButtons. cbn [mVisibleContexts mButtons].
    now rewrite insert_insert_eq. }
  rewrite Hst. clear Hst.
  rewrite (FillButtonDeviceInfo_eq aj w _ _ _
             (pressed_button_lookup st inContext decoded)).
  cbn [completion plugin effects settings set_settings].
  match goal with
  | |- context [settings (fst (subscript ?s inContext))] =>
      assert (Hsub : settings (fst (subscript s inContext))
                     = backfilled w decoded)
        by (unfold subscript; cbn [fst set_mButtons mButtons];
            rewrite lookup_insert_eq; reflexivity);
      rewrite !Hsub; clear Hsub
  end.
  unfold activate, target_slot.
  rewrite (orb_comm (negb (GetIntByName inPayload "state" =? 0)%Z)
             (is_set inAction)).
  unfold VolatilePrimaryID, VolatileSecondaryID.
  destruct (is_set inAction || negb (GetIntByName inPayload "state" =? 0)%Z);
    cbn [slot_device slot_hotkey].
  all: match goal with
       | |- context [String.eqb (GetVolatileID ?w ?d ?m) ""] =>
           destruct (String.eqb (GetVolatileID w d m) "");
             [cbn [fst snd]; now rewrite app_nil_r|]
       end.
  all: match goal with
       | |- context [state_eqb ?x CONNECTED] =>
           destruct (state_eqb x CONNECTED); cbn [negb fst snd];
             [|reflexivity]
       end.
  all: match goal with
       | |- context [is_set ?a && ?b] =>
           destruct (is_set a && b); cbn [fst snd]; [reflexivity|]
       end.
  all: match goal with
       | |- context [if ?c then TriggerHotkey ?p ?h else _] =>
           destruct (if c then TriggerHotkey p h else ([], Returns)) as [keys c']
       end; reflexivity.
Qed.

Lemma FillButtonDeviceInfo_persist aj w st context e :
  In e (effects (FillButtonDeviceInfo aj w st context)) ->
  exists blob, e = SetSettings blob context.
Proof.
  unfold FillButtonDeviceInfo.
  destruct (mButtons st !! context) as [button|]; [|intros []].
  destruct (FillAudioDeviceInfo w (primaryDevice (settings button))) as [p fp].
  destruct (FillAudioDeviceInfo w _) as [s fs].
  destruct (fp || fs); cbn [effects]; [|intros []].
  intros [<-|[]]. eauto.
Qed.

(** The activation of a slot reads nothing of the other slot. *)
Lemma activate_slot_only p w action context reportedState bs bs' slot :
  slot_device slot bs = slot_device slot bs' ->
  slot_hotkey slot bs = slot_hotkey slot bs' ->
  matchStrategy bs = matchStrategy bs' ->
  bs_direction bs = bs_direction bs' ->
  bs_role bs = bs_role bs' ->
  activate p w action context reportedState bs slot
  = activate p w action context reportedState bs' slot.
Proof.
  intros Hd Hh Hm Hdir Hrole. unfold activate.
  now rewrite Hd, Hh, Hm, Hdir, Hrole.
Qed.

(** C2.  An activation whose payload carries settings that decode stores and
    backfills them, then activates one slot: the primary one when the action
    is Set or the reported state is not 0, the secondary one otherwise (a
    Toggle action in state 0).  The device resolved and the hotkey fired are
    those of that slot; the other slot is not read. *)
Theorem target_slot_selection (aj : AudioJson) (p : Platform) (w : AudioWorld)
    (st : Plugin) (inAction inContext : string) (inPayload : json)
    (inDeviceID : string) (sj : json) (decoded : ButtonSettings) :
  json_at inPayload "settings" = Some sj ->
  get_ButtonSettings aj sj = Some decoded ->
  let reportedState := GetIntByName inPayload "state" in
  let bs := backfilled w decoded in
  let persist :=
    effects (FillButtonDeviceInfo aj w (pressed_button st inContext decoded)
               inContext) in
  let o := KeyUpForAction aj p w st inAction inContext inPayload inDeviceID in
  (is_set inAction = true \/ reportedState <> 0%Z ->
   effects o
   = persist ++ fst (activate p w inAction inContext reportedState bs Primary)
   /\ completion o
      = snd (activate p w inAction inContext reportedState bs Primary))
  /\ (is_set inAction = false -> reportedState = 0%Z ->
      effects o
      = persist ++ fst (activate p w inAction inContext reportedState bs Secondary)
      /\ completion o
         = snd (activate p w inAction inContext reportedState bs Secondary))
  /\ (forall slot bs',
        slot_device slot bs = slot_device slot bs' ->
        slot_hotkey slot bs = slot_hotkey slot bs' ->
        matchStrategy bs = matchStrategy bs' ->
        bs_direction bs = bs_direction bs' ->
        bs_role bs = bs_role bs' ->
        activate p w inAction inContext reportedState bs slot
        = activate p w inAction inContext reportedState bs' slot)
  /\ (forall slot,
        GetVolatileID w (slot_device slot bs) (matchStrategy bs) <> "" ->
        GetAudioDeviceState w
          (GetVolatileID w (slot_device slot bs) (matchStrategy bs)) = CONNECTED ->
        is_set inAction = false ->
        fst (activate p w inAction inContext reportedState bs slot)
        = SetDefaultAudioDeviceID (bs_direction bs) (bs_role bs)
            (GetVolatileID w (slot_device slot bs) (matchStrategy bs))
          :: (if enabled (slot_hotkey slot bs)
                 && negb (String.eqb (keyCode (slot_hotkey slot bs)) "")
              then fst (TriggerHotkey p (slot_hotkey slot bs)) else [])).
Proof.
  intros Hs Hd reportedState bs persist o. subst o persist bs reportedState.
  rewrite (KeyUpForAction_eq _ _ _ _ _ _ _ _ _ _ Hs Hd).
  cbn [effects completion].
  split; [|split; [|split]].
  - intros Hprimary. unfold target_slot.
    assert (E : is_set inAction || negb (GetIntByName inPayload "state" =? 0)%Z
                = true).
    { destruct Hprimary as [->|Hne]; [reflexivity|].
      apply Z.eqb_neq in Hne. rewrite Hne. apply orb_true_r. }
    now rewrite E.
  - intros Hset Hzero. unfold target_slot. rewrite Hset, Hzero. now split.
  - intros slot bs'. apply activate_slot_only.
  - intros slot Hid Hconn Hset. unfold activate.
    destruct (String.eqb_spec
                (GetVolatileID w (slot_device slot (backfilled w decoded))
                   (matchStrategy (backfilled w decoded))) "");
      [contradiction|].
    rewrite Hconn, Hset. cbn [state_eqb negb andb fst].
    now destruct (_ && _).
Qed.

Lemma press_payload_settings bs reportedState :
  json_at (press_payload bs reportedState) "settings"
  = Some (to_json_ButtonSettings audio_json_model bs).
Proof. reflexivity. Qed.

Lemma model_settings_round_trip bs :
  get_ButtonSettings audio_json_model (to_json_ButtonSettings audio_json_model bs)
  = Some bs.
Proof.
  destruct bs as [[] [] [i1 n1 e1 d1 [] []] [i2 n2 e2 d2 [] []] []
                    [a1 b1 c1 f1 g1 k1] [a2 b2 c2 f2 g2 k2]];
    reflexivity.
Qed.

Lemma target_slot_selection_witness :
  json_at (press_payload ab_settings 0) "settings"
  = Some (to_json_ButtonSettings audio_json_model ab_settings)
  /\ get_ButtonSettings audio_json_model
       (to_json_ButtonSettings audio_json_model ab_settings) = Some ab_settings
  /\ effects (KeyUpForAction audio_json_model Apple (demo_world "A")
                (demo_plugin TOGGLE_ACTION_ID ab_settings) TOGGLE_ACTION_ID "ctx"
                (press_payload ab_settings 0) "")
     = [SetDefaultAudioDeviceID OUTPUT DEFAULT "B"].
Proof.
  split; [reflexivity|]. split; [apply model_settings_round_trip|].
  destruct (target_slot_selection audio_json_model Apple (demo_world "A")
              (demo_plugin TOGGLE_ACTION_ID ab_settings) TOGGLE_ACTION_ID "ctx"
              (press_payload ab_settings 0) ""
              (to_json_ButtonSettings audio_json_model ab_settings) ab_settings
              (press_payload_settings ab_settings 0)
              (model_settings_round_trip ab_settings))
    as (_ & Hsecondary & _).
  destruct (Hsecondary eq_refl eq_refl) as [E _].
  rewrite E.
  rewrite (FillButtonDeviceInfo_eq audio_json_model _ _ _ _
             (pressed_button_lookup _ "ctx" ab_settings)).
  reflexivity.
Defined.

Lemma persist_not_switch aj w st context e :
  In e (effects (FillButtonDeviceInfo aj w st context)) ->
  is_switch_or_key e = false /\ is_set_state e = false.
Proof.
  intros H. apply FillButtonDeviceInfo_persist in H as [blob ->]. now split.
Qed.

(** C3 (amended).  A Set activation whose target (the primary slot) resolves
    to a non-empty id of a connected device that already is the default
    device returns without a call of [SetDefaultAudioDeviceID] and without a
    key event; after the possible backfill request its only effect is to send
    back to the host the state the payload reported, whatever that state
    is. *)
Theorem set_already_default (aj : AudioJson) (p : Platform) (w : AudioWorld)
    (st : Plugin) (inAction inContext : string) (inPayload : json)
    (inDeviceID : string) (sj : json) (decoded : ButtonSettings) :
  json_at inPayload "settings" = Some sj ->
  get_ButtonSettings aj sj = Some decoded ->
  is_set inAction = true ->
  let bs := backfilled w decoded in
  let targetId := VolatilePrimaryID w bs in
  targetId <> "" ->
  GetAudioDeviceState w targetId = CONNECTED ->
  targetId = GetDefaultAudioDeviceID w (bs_direction bs) (bs_role bs) ->
  let persist :=
    effects (FillButtonDeviceInfo aj w (pressed_button st inContext decoded)
               inContext) in
  let o := KeyUpForAction aj p w st inAction inContext inPayload inDeviceID in
  completion o = Returns
  /\ effects o = persist ++ [SetState (GetIntByName inPayload "state") inContext]
  /\ (forall e, In e persist -> exists blob, e = SetSettings blob inContext)
  /\ (forall e, In e (effects o) -> is_switch_or_key e = false).
Proof.
  intros Hs Hd Hset bs targetId Hid Hconn Hdefault persist o.
  assert (Hact : activate p w inAction inContext (GetIntByName inPayload "state")
                   bs (target_slot inAction (GetIntByName inPayload "state"))
                 = ([SetState (GetIntByName inPayload "state") inContext],
                    Returns)).
  { unfold target_slot, activate. rewrite Hset. cbn [orb slot_device].
    fold (VolatilePrimaryID w bs). fold targetId.
    destruct (String.eqb_spec targetId ""); [contradiction|].
    rewrite Hconn. cbn [state_eqb negb andb].
    rewrite <- Hdefault, String.eqb_refl. reflexivity. }
  subst o. rewrite (KeyUpForAction_eq _ _ _ _ _ _ _ _ _ _ Hs Hd).
  cbn zeta. fold bs. rewrite Hact. cbn [effects completion fst snd].
  fold persist.
  split; [reflexivity|]. split; [reflexivity|].
  split; [intros e; apply FillButtonDeviceInfo_persist|].
  intros e Hin. apply in_app_or in Hin as [Hin|[<-|[]]]; [|reflexivity].
  now apply persist_not_switch in Hin.
Qed.

Lemma set_already_default_witness :
  effects (KeyUpForAction audio_json_model Apple (demo_world "B")
             (demo_plugin SET_ACTION_ID headset_settings) SET_ACTION_ID "ctx"
             (press_payload headset_settings 0) "")
  = [SetState 0 "ctx"].
Proof.
  destruct (set_already_default audio_json_model Apple (demo_world "B")
              (demo_plugin SET_ACTION_ID headset_settings) SET_ACTION_ID "ctx"
              (press_payload headset_settings 0) ""
              (to_json_ButtonSettings audio_json_model headset_settings)
              headset_settings
              (press_payload_settings headset_settings 0)
              (model_settings_round_trip headset_settings)
              eq_refl ltac:(discriminate) eq_refl eq_refl)
    as (_ & E & _).
  rewrite E.
  rewrite (FillButtonDeviceInfo_eq audio_json_model _ _ _ _
             (pressed_button_lookup _ "ctx" headset_settings)).
  reflexivity.
Defined.

(** C3 as stated has the reported state reconciled with the current default
    device.  A Set button on the device that is the default one, pressed
    while the host reports state 1, is sent state 1 again; the reconciliation
    of [UpdateState] for the same button and the same default device reports
    state 0. *)
Lemma set_already_default_stale_state :
  VolatilePrimaryID (demo_world "B") headset_settings = "B"
  /\ GetDefaultAudioDeviceID (demo_world "B") OUTPUT DEFAULT = "B"
  /\ effects (KeyUpForAction audio_json_model Apple (demo_world "B")
                (demo_plugin SET_ACTION_ID headset_settings) SET_ACTION_ID "ctx"
                (press_payload headset_settings 1) "")
     = [SetState 1 "ctx"]
  /\ effects (UpdateState (demo_world "B")
                (demo_plugin SET_ACTION_ID headset_settings) "ctx" "")
     = [SetState 0 "ctx"].
Proof.
  split; [reflexivity|]. split; [reflexivity|]. split.
  - rewrite (KeyUpForAction_eq Apple audio_json_model (demo_world "B") _ _ _ _ _
               _ headset_settings
               (press_payload_settings headset_settings 1)
               (model_settings_round_trip headset_settings)).
    cbn zeta. cbn [effects].
    rewrite (FillButtonDeviceInfo_eq audio_json_model _ _ _ _
               (pressed_button_lookup _ "ctx" headset_settings)).
    reflexivity.
  - assert (H : mButtons (demo_plugin SET_ACTION_ID headset_settings) !! "ctx"
                = Some (mkButton SET_ACTION_ID "ctx" headset_settings))
      by apply lookup_singleton_eq.
    rewrite (UpdateState_effects _ _ _ _ _ H). reflexivity.
Qed.

(** C5.  An activation whose target slot resolves to a non-empty id of a
    device that is not connected returns with an alert for the button and
    neither a call of [SetDefaultAudioDeviceID] nor a key event; a Set
    action first sends state 1, any other action sends no state at all. *)
Theorem disconnected_target (aj : AudioJson) (p : Platform) (w : AudioWorld)
    (st : Plugin) (inAction inContext : string) (inPayload : json)
    (inDeviceID : string) (sj : json) (decoded : ButtonSettings) :
  json_at inPayload "settings" = Some sj ->
  get_ButtonSettings aj sj = Some decoded ->
  let reportedState := GetIntByName inPayload "state" in
  let bs := backfilled w decoded in
  let targetId :=
    GetVolatileID w (slot_device (target_slot inAction reportedState) bs)
      (matchStrategy bs) in
  targetId <> "" ->
  GetAudioDeviceState w targetId <> CONNECTED ->
  let persist :=
    effects (FillButtonDeviceInfo aj w (pressed_button st inContext decoded)
               inContext) in
  let o := KeyUpForAction aj p w st inAction inContext inPayload inDeviceID in
  completion o = Returns
  /\ In (ShowAlertForContext inContext) (effects o)
  /\ (forall e, In e (effects o) -> is_switch_or_key e = false)
  /\ (is_set inAction = true ->
      effects o
      = persist ++ [SetState 1 inContext; ShowAlertForContext inContext])
  /\ (is_set inAction = false ->
      effects o = persist ++ [ShowAlertForContext inContext]
      /\ forall e, In e (effects o) -> is_set_state e = false).
Proof.
  intros Hs Hd reportedState bs targetId Hid Hconn persist o.
  assert (Hact : activate p w inAction inContext reportedState bs
                   (target_slot inAction reportedState)
                 = ((if is_set inAction then [SetState 1%Z inContext] else [])
                    ++ [ShowAlertForContext inContext], Returns)).
  { unfold activate. fold targetId.
    destruct (String.eqb_spec targetId ""); [contradiction|].
    destruct (state_eqb (GetAudioDeviceState w targetId) CONNECTED) eqn:E;
      [apply state_eqb_eq in E; contradiction | reflexivity]. }
  subst o. rewrite (KeyUpForAction_eq _ _ _ _ _ _ _ _ _ _ Hs Hd).
  cbn zeta. fold reportedState bs. rewrite Hact.
  cbn [effects completion fst snd]. fold persist.
  split; [reflexivity|]. split; [|split; [|split]].
  - apply in_or_app. right. apply in_or_app. right. now left.
  - intros e Hin. apply in_app_or in Hin as [Hin|Hin].
    + now apply persist_not_switch in Hin.
    + destruct (is_set inAction); cbn in Hin;
        repeat (destruct Hin as [<-|Hin]; [reflexivity|]); contradiction.
  - intros ->. reflexivity.
  - intros ->. split; [reflexivity|].
    intros e Hin. apply in_app_or in Hin as [Hin|[<-|[]]]; [|reflexivity].
    now apply persist_not_switch in Hin.
Qed.

Lemma disconnected_target_witness :
  effects (KeyUpForAction audio_json_model Apple (demo_world "C")
             (demo_plugin SET_ACTION_ID ab_settings) SET_ACTION_ID "ctx"
             (press_payload ab_settings 0) "")
  = [SetState 1 "ctx"; ShowAlertForContext "ctx"].
Proof.
  destruct (disconnected_target audio_json_model Apple (demo_world "C")
              (demo_plugin SET_ACTION_ID ab_settings) SET_ACTION_ID "ctx"
              (press_payload ab_settings 0) ""
              (to_json_ButtonSettings audio_json_model ab_settings) ab_settings
              (press_payload_settings ab_settings 0)
              (model_settings_round_trip ab_settings)
              ltac:(discriminate) ltac:(discriminate))
    as (_ & _ & _ & E & _).
  rewrite (E eq_refl).
  rewrite (FillButtonDeviceInfo_eq audio_json_model _ _ _ _
             (pressed_button_lookup _ "ctx" ab_settings)).
  reflexivity.
Defined.

(** C10.  [KeyDownForAction] returns with the plugin as it was and without
    any effect, for every action, context, payload and device; the same press
    acts when the key is released (here: the default device is set to "B"). *)
Theorem key_down_does_nothing (st : Plugin) (inAction inContext : string)
    (inPayload : json) (inDeviceID : string) :
  plugin (KeyDownForAction st inAction inContext inPayload inDeviceID) = st
  /\ effects (KeyDownForAction st inAction inContext inPayload inDeviceID) = []
  /\ completion (KeyDownForAction st inAction inContext inPayload inDeviceID)
     = Returns
  /\ effects (KeyUpForAction audio_json_model Apple (demo_world "A")
                (demo_plugin TOGGLE_ACTION_ID ab_settings) TOGGLE_ACTION_ID "ctx"
                (press_payload ab_settings 0) "")
     = [SetDefaultAudioDeviceID OUTPUT DEFAULT "B"]
  /\ effects (KeyDownForAction (demo_plugin TOGGLE_ACTION_ID ab_settings)
                TOGGLE_ACTION_ID "ctx" (press_payload ab_settings 0) "") = [].
Proof.
  repeat split; reflexivity.
Qed.

(** ** Key injection *)

Lemma TriggerHotkey_win_returns VkKeyScanA hotkey :
  snd (TriggerHotkey (Win32 VkKeyScanA) hotkey) = Returns.
Proof.
  unfold TriggerHotkey, TriggerHotkey_win.
  destruct (negb (enabled hotkey) || (keyCode hotkey =? "")); [reflexivity|].
  now destruct (negb (win_vkCode VkKeyScanA (keyCode hotkey) =? 0)%Z).
Qed.

(** The array [inputs] has room for the ten events of four modifiers and a
    key. *)
Lemma TriggerHotkey_win_inputs VkKeyScanA hotkey inputs :
  In (SendInput inputs) (fst (TriggerHotkey (Win32 VkKeyScanA) hotkey)) ->
  length inputs <= 10.
Proof.
  unfold TriggerHotkey, TriggerHotkey_win.
  destruct (negb (enabled hotkey) || (keyCode hotkey =? "")); [intros []|].
  destruct (negb (win_vkCode VkKeyScanA (keyCode hotkey) =? 0)%Z);
    [|intros []].
  intros [E|[]]. inversion E; subst. unfold win_modifiers.
  destruct (ctrl hotkey), (alt hotkey), (shift hotkey), (win hotkey);
    cbn; lia.
Qed.

Example stoi_examples :
  stoi "12" = inr 12%Z /\ stoi " 7" = inr 7%Z /\ stoi "-1" = inr (-1)%Z
  /\ stoi "1x" = inr 1%Z /\ stoi "X" = inl invalid_argument
  /\ stoi "" = inl invalid_argument.
Proof. repeat split. Qed.

Example function_key_on_macos :
  TriggerHotkey Apple (mkHotkey true true false false false "F5")
  = ([CGEventPost 96 true 262144; CGEventPost 96 false 262144], Returns).
Proof. reflexivity. Qed.

Example function_key_on_windows VkKeyScanA :
  TriggerHotkey (Win32 VkKeyScanA) (mkHotkey true true false true false "F5")
  = ([SendInput [mkInput 1 17 0; mkInput 1 16 0; mkInput 1 116 0;
                 mkInput 1 116 2; mkInput 1 16 2; mkInput 1 17 2]], Returns).
Proof. reflexivity. Qed.

(** X25.  On macOS the function leaves by an exception exactly when the
    hotkey is enabled and [std::stoi] throws on what follows the "F" of a two
    or three character key name. *)
Lemma TriggerHotkey_mac_throws hotkey e :
  snd (TriggerHotkey Apple hotkey) = Throws e <->
  enabled hotkey = true
  /\ keyCode hotkey <> ""
  /\ String.length (keyCode hotkey) <> 1
  /\ String.length (keyCode hotkey) <= 3
  /\ substr_0_1 (keyCode hotkey) = "F"
  /\ stoi (substr_from_1 (keyCode hotkey)) = inl e.
Proof.
  unfold TriggerHotkey, TriggerHotkey_mac, mac_keyCode.
  destruct (enabled hotkey); cbn [negb orb].
  2:{ split; [discriminate | intros (H & _); discriminate]. }
  destruct (String.eqb_spec (keyCode hotkey) "") as [E|E].
  { split; [discriminate | intros (_ & H & _); contradiction]. }
  destruct (Nat.eqb_spec (String.length (keyCode hotkey)) 1) as [L|L].
  { split.
    - destruct (keyCode hotkey) as [|k rest]; [discriminate|].
      cbv zeta.
      repeat match goal with
             | |- context [if ?c then _ else _] => destruct c
             end; discriminate.
    - intros (_ & _ & H & _); contradiction. }
  destruct (String.eqb_spec (substr_0_1 (keyCode hotkey)) "F") as [F|F];
    cbn [andb].
  2:{ split; [discriminate | intros (_ & _ & _ & _ & H & _); contradiction]. }
  destruct (Nat.leb_spec (String.length (keyCode hotkey)) 3) as [L3|L3].
  2:{ split; [discriminate | intros (_ & _ & _ & H & _); lia]. }
  destruct (stoi (substr_from_1 (keyCode hotkey))) as [e'|fKey].
  - cbn [snd]. split.
    + intros H. inversion H. subst. now repeat split.
    + intros (_ & _ & _ & _ & _ & H). now inversion H.
  - split.
    + repeat match goal with
             | |- context [if ?c then _ else _] => destruct c
             end; discriminate.
    + intros (_ & _ & _ & _ & _ & H). discriminate.
Qed.

(** C7 at the failing input.  On macOS [TriggerHotkey] on the enabled hotkey
    "FX" leaves by the [std::invalid_argument] of [std::stoi], and so does
    [KeyUpForAction], after it has set the default device; the Windows branch
    catches the exception and returns without a key event. *)
Theorem unresolvable_key_throws_on_macos :
  TriggerHotkey Apple fx_hotkey = ([], Throws invalid_argument)
  /\ (forall VkKeyScanA, TriggerHotkey (Win32 VkKeyScanA) fx_hotkey = ([], Returns))
  /\ completion
       (KeyUpForAction audio_json_model Apple (demo_world "A")
          (demo_plugin TOGGLE_ACTION_ID fx_settings) TOGGLE_ACTION_ID "ctx"
          (press_payload fx_settings 1) "")
     = Throws invalid_argument
  /\ effects
       (KeyUpForAction audio_json_model Apple (demo_world "A")
          (demo_plugin TOGGLE_ACTION_ID fx_settings) TOGGLE_ACTION_ID "ctx"
          (press_payload fx_settings 1) "")
     = [SetDefaultAudioDeviceID OUTPUT DEFAULT "B"].
Proof.
  split; [reflexivity|]. split; [reflexivity|].
  rewrite (KeyUpForAction_eq Apple audio_json_model (demo_world "A") _ _ _ _ _
             _ fx_settings
             (press_payload_settings fx_settings 1)
             (model_settings_round_trip fx_settings)).
  cbn zeta. cbn [effects completion].
  rewrite (FillButtonDeviceInfo_eq audio_json_model _ _ _ _
             (pressed_button_lookup _ "ctx" fx_settings)).
  split; reflexivity.
Qed.

(** * Further properties of the code *)

#[local] Set Warnings "-clear-no-such-hyp".

(** ** [FuzzifyInterface] and [GetVolatileID] *)

Lemma append_cons a d s :
  String.append (String a d) s = String a (String.append d s).
Proof. reflexivity. Qed.

Lemma append_nil s : String.append "" s = s.
Proof. reflexivity. Qed.

Lemma drop_digits_split s :
  exists d, all_digits d = true /\ s = String.append d (drop_digits s).
Proof.
  induction s as [|a s (d & Hd & Hs)].
  - exists "". now split.
  - cbn [drop_digits]. destruct (Regex.is_digit a) eqn:Ha.
    + exists (String a d). split; [cbn; now rewrite Ha|].
      change (String a s = String a (String.append d (drop_digits s))).
      now rewrite <- Hs.
    + exists "". now split.
Qed.

Lemma after_ordinal_split name rest :
  after_ordinal name = Some rest ->
  exists d, all_digits d = true /\ d <> ""
            /\ name = String.append d (String "-" (String " " rest)).
Proof.
  unfold after_ordinal. destruct name as [|a name]; [discriminate|].
  destruct (Regex.is_digit a) eqn:Ha; [|discriminate].
  destruct (drop_digits_split (String a name)) as (d & Hd & Hs).
  destruct (drop_digits (String a name)) as [|a1 [|a2 r]] eqn:E;
    try discriminate.
  destruct (Ascii.eqb_spec "-" a1) as [<-|]; [|discriminate].
  destruct (Ascii.eqb_spec " " a2) as [<-|]; [|discriminate].
  cbn [andb]. intros H. inversion H; subst r. exists d.
  split; [exact Hd|]. split; [|exact Hs].
  intros ->. rewrite append_nil in Hs. inversion Hs; subst a. discriminate Ha.
Qed.

Lemma drop_digits_ordinal d tail :
  all_digits d = true ->
  drop_digits (String.append d (String "-" tail)) = String "-" tail.
Proof.
  induction d as [|a d IH]; intros H; [reflexivity|].
  cbn in H. apply andb_prop in H as [Ha Hd].
  rewrite append_cons. cbn [drop_digits]. rewrite Ha. now apply IH.
Qed.

Lemma after_ordinal_ordinal d rest :
  all_digits d = true -> d <> "" ->
  after_ordinal (String.append d (String "-" (String " " rest))) = Some rest.
Proof.
  intros Hd Hne. destruct d as [|a d]; [contradiction|].
  pose proof (drop_digits_ordinal (String a d) (String " " rest) Hd) as E.
  cbn in Hd. apply andb_prop in Hd as [Ha _].
  unfold after_ordinal. rewrite append_cons in *. rewrite Ha, E.
  reflexivity.
Qed.

(** X1.  The normalised name is what is left of the name after some of its
    first characters, it is empty only for the empty name, and a name that
    does not start with a digit is its own normal form. *)
Theorem FuzzifyInterface_suffix (name : string) :
  is_suffix (FuzzifyInterface name) name
  /\ (name <> "" -> FuzzifyInterface name <> "")
  /\ (forall a rest, name = String a rest -> Regex.is_digit a = false ->
      FuzzifyInterface name = name).
Proof.
  rewrite FuzzifyInterface_spec. split; [|split].
  - destruct (after_ordinal name) as [rest|] eqn:E; [|now exists ""].
    destruct (negb (rest =? "") && no_line_break rest); [|now exists ""].
    apply after_ordinal_split in E as (d & _ & _ & ->).
    exists (String.append d "- ").
    clear. induction d as [|a d IH]; [reflexivity|].
    rewrite !append_cons. now rewrite IH.
  - intros Hne. destruct (after_ordinal name) as [rest|]; [|exact Hne].
    destruct (String.eqb_spec rest "") as [->|Hr]; cbn [negb andb];
      [exact Hne|].
    now destruct (no_line_break rest).
  - intros a rest -> Ha. unfold after_ordinal. now rewrite Ha.
Qed.

Lemma FuzzifyInterface_suffix_witness :
  "2- Speakers" <> ""
  /\ FuzzifyInterface "2- Speakers" <> ""
  /\ FuzzifyInterface "Speakers" = "Speakers".
Proof.
  split; [discriminate|]. split.
  - destruct (FuzzifyInterface_suffix "2- Speakers") as (_ & H & _).
    apply H. discriminate.
  - destruct (FuzzifyInterface_suffix "Speakers") as (_ & _ & H).
    apply (H "S"%char "peakers"); reflexivity.
Defined.

(** X2.  Renumbering does not change the normal form: whatever the ordinal
    before a non-empty remainder without a line break, the normalised name is
    that remainder. *)
Theorem FuzzifyInterface_renumbering (d1 d2 rest : string) :
  all_digits d1 = true -> d1 <> "" ->
  all_digits d2 = true -> d2 <> "" ->
  rest <> "" -> no_line_break rest = true ->
  FuzzifyInterface (String.append d1 (String "-" (String " " rest))) = rest
  /\ FuzzifyInterface (String.append d1 (String "-" (String " " rest)))
     = FuzzifyInterface (String.append d2 (String "-" (String " " rest))).
Proof.
  intros H1 N1 H2 N2 Hr Hl.
  assert (E : forall d, all_digits d = true -> d <> "" ->
              FuzzifyInterface (String.append d (String "-" (String " " rest)))
              = rest).
  { intros d Hd Nd. rewrite FuzzifyInterface_spec.
    rewrite (after_ordinal_ordinal d rest Hd Nd). rewrite Hl.
    destruct (String.eqb_spec rest ""); [contradiction | reflexivity]. }
  split; [now apply E|]. now rewrite !E.
Qed.

Lemma FuzzifyInterface_renumbering_witness :
  FuzzifyInterface "3- Headset" = FuzzifyInterface "12- Headset".
Proof.
  apply (FuzzifyInterface_renumbering "3" "12" "Headset");
    solve [reflexivity | discriminate].
Defined.

Lemma fuzzy_scan_sound device fuzzyInterface entries otherID :
  fuzzy_scan device fuzzyInterface entries = Some otherID ->
  exists other,
    In (otherID, other) entries
    /\ state other = CONNECTED
    /\ FuzzifyInterface (interfaceName other) = fuzzyInterface
    /\ endpointName other = endpointName device.
Proof.
  induction entries as [|[k other] rest IH]; [discriminate|].
  cbn [fuzzy_scan].
  destruct (state_eqb (state other) CONNECTED) eqn:Hs; cbn [negb].
  2:{ intros H. destruct (IH H) as (o & Hin & Ho). exists o.
      split; [now right | exact Ho]. }
  destruct (String.eqb_spec fuzzyInterface (FuzzifyInterface (interfaceName other)))
    as [Hf|Hf]; cbn [andb].
  2:{ intros H. destruct (IH H) as (o & Hin & Ho). exists o.
      split; [now right | exact Ho]. }
  destruct (String.eqb_spec (endpointName device) (endpointName other))
    as [He|He].
  2:{ intros H. destruct (IH H) as (o & Hin & Ho). exists o.
      split; [now right | exact Ho]. }
  intros H. inversion H; subst k. exists other.
  split; [now left|]. split; [now apply state_eqb_eq|]. now split.
Qed.

(** X3.  The volatile id is the configured id, or else the key of an entry of
    the device list of the descriptor's direction that is connected and has
    the descriptor's endpoint name and normalised interface name; the latter
    only under the fuzzy strategy, for a non-empty id whose device is not
    connected. *)
Theorem GetVolatileID_range (w : AudioWorld) (device : AudioDeviceInfo)
    (strategy : DeviceMatchStrategy) :
  GetVolatileID w device strategy = id device
  \/ (strategy = Fuzzy
      /\ id device <> ""
      /\ GetAudioDeviceState w (id device) <> CONNECTED
      /\ exists other,
           In (GetVolatileID w device strategy, other)
             (GetAudioDeviceList w (direction device))
           /\ state other = CONNECTED
           /\ FuzzifyInterface (interfaceName other)
              = FuzzifyInterface (interfaceName device)
           /\ endpointName other = endpointName device).
Proof.
  unfold GetVolatileID.
  destruct (String.eqb_spec (id device) "") as [E|E]; [left; congruence|].
  destruct strategy; [now left|].
  destruct (state_eqb (GetAudioDeviceState w (id device)) CONNECTED) eqn:Hs;
    [now left|].
  destruct (fuzzy_scan device _ _) as [otherID|] eqn:Hscan; [|now left].
  right. split; [reflexivity|]. split; [exact E|]. split.
  - intros Hc. rewrite Hc in Hs. discriminate.
  - now apply fuzzy_scan_sound in Hscan.
Qed.

(** ** The JSON conversions *)

Lemma member_value_inv {A} j name alias (conv : json -> option A) dflt x :
  member_value j name alias conv dflt = Some x ->
  reads_member j name alias conv dflt x.
Proof.
  unfold member_value, reads_member, contains, json_at.
  destruct (json_find j name) as [v|].
  - cbn [mbind option_bind]. intros H. split; [|split].
    + intros v' Hv. now inversion Hv; subst.
    + discriminate.
    + discriminate.
  - destruct (json_find j alias) as [v|].
    + cbn [mbind option_bind]. intros H. split; [|split].
      * discriminate.
      * intros _ v' Hv. now inversion Hv; subst.
      * discriminate.
    + intros H. inversion H; subst. split; [|split]; try discriminate.
      reflexivity.
Qed.

Lemma reads_member_converts {A} j name alias (conv : json -> option A) dflt x :
  reads_member j name alias conv dflt x -> converts_or_alias j name alias conv.
Proof.
  intros (Hn & Ha & _). split.
  - intros v Hv. rewrite (Hn v Hv). eauto.
  - intros Hc v Hv. apply contains_false_json_at in Hc.
    rewrite (Ha Hc v Hv). eauto.
Qed.

Lemma decode_hotkey_fields_inv j hk hk' :
  decode_hotkey_fields j hk = Some hk' ->
  member_value j "enabled" "hotkeyEnabled" get_bool (enabled hk)
  = Some (enabled hk')
  /\ member_value j "ctrl" "hotkeyCtrl" get_bool (ctrl hk) = Some (ctrl hk')
  /\ member_value j "alt" "hotkeyAlt" get_bool (alt hk) = Some (alt hk')
  /\ member_value j "shift" "hotkeyShift" get_bool (shift hk) = Some (shift hk')
  /\ member_value j "win" "hotkeyWin" get_bool (win hk) = Some (win hk')
  /\ member_value j "keyCode" "hotkeyKey" get_string (keyCode hk)
     = Some (keyCode hk').
Proof.
  unfold decode_hotkey_fields.
  destruct (member_value j "enabled" _ _ _) as [e|]; [|discriminate].
  destruct (member_value j "ctrl" _ _ _) as [c|]; [|discriminate].
  destruct (member_value j "alt" _ _ _) as [a|]; [|discriminate].
  destruct (member_value j "shift" _ _ _) as [s|]; [|discriminate].
  destruct (member_value j "win" _ _ _) as [w|]; [|discriminate].
  destruct (member_value j "keyCode" _ _ _) as [k|]; [|discriminate].
  cbn [mbind option_bind]. intros H. inversion H; subst. now repeat split.
Qed.

(** X4.  A hotkey object is read member by member, each field from its
    canonical member when the object has it (whatever the legacy member
    holds), from the legacy member otherwise, and left as it was when the
    object has neither. *)
Theorem hotkey_alias_precedence (j : json) (hk hk' : HotkeyConfig) :
  from_json_HotkeyConfig j hk = Some hk' ->
  reads_member j "enabled" "hotkeyEnabled" get_bool (enabled hk) (enabled hk')
  /\ reads_member j "ctrl" "hotkeyCtrl" get_bool (ctrl hk) (ctrl hk')
  /\ reads_member j "alt" "hotkeyAlt" get_bool (alt hk) (alt hk')
  /\ reads_member j "shift" "hotkeyShift" get_bool (shift hk) (shift hk')
  /\ reads_member j "win" "hotkeyWin" get_bool (win hk) (win hk')
  /\ reads_member j "keyCode" "hotkeyKey" get_string (keyCode hk) (keyCode hk').
Proof.
  rewrite from_json_HotkeyConfig_fields. intros H.
  apply decode_hotkey_fields_inv in H as (He & Hc & Ha & Hs & Hw & Hk).
  do 5 (split; [now apply member_value_inv|]).
  now apply member_value_inv.
Qed.

Lemma hotkey_alias_precedence_witness :
  from_json_HotkeyConfig mixed_hotkey_blob default_hotkey
  = Some (mkHotkey false false false false false "B")
  /\ reads_member mixed_hotkey_blob "enabled" "hotkeyEnabled" get_bool
       false false.
Proof.
  split; [reflexivity|].
  apply (hotkey_alias_precedence mixed_hotkey_blob default_hotkey
           (mkHotkey false false false false false "B") eq_refl).
Defined.

Example legacy_hotkey_decode :
  get_HotkeyConfig legacy_hotkey_blob
  = Some (mkHotkey true true false false false "A").
Proof. reflexivity. Qed.

(** X5.  A hotkey object does not decode exactly when a member the decoder
    reads (the canonical one, or the legacy one in its absence) is not of
    the type of its field; the value decoded into plays no part. *)
Theorem hotkey_decode_throws (j : json) (hk : HotkeyConfig) :
  from_json_HotkeyConfig j hk = None <-> ~ hotkey_members_convert j.
Proof.
  rewrite from_json_HotkeyConfig_fields. split.
  - intros HN (He & Hc & Ha & Hs & Hw & Hk).
    unfold decode_hotkey_fields in HN.
    destruct (member_value_total j _ _ _ (enabled hk) He) as [e Ee].
    destruct (member_value_total j _ _ _ (ctrl hk) Hc) as [c Ec].
    destruct (member_value_total j _ _ _ (alt hk) Ha) as [a Ea].
    destruct (member_value_total j _ _ _ (shift hk) Hs) as [s Es].
    destruct (member_value_total j _ _ _ (win hk) Hw) as [w Ew].
    destruct (member_value_total j _ _ _ (keyCode hk) Hk) as [k Ek].
    rewrite Ee, Ec, Ea, Es, Ew, Ek in HN. discriminate HN.
  - intros Hno. destruct (decode_hotkey_fields j hk) as [hk'|] eqn:E;
      [|reflexivity].
    exfalso. apply Hno.
    apply decode_hotkey_fields_inv in E as (He & Hc & Ha & Hs & Hw & Hk).
    unfold hotkey_members_convert, converts_or_alias.
    repeat apply conj;
      match goal with
      | H : member_value j ?n ?a ?conv ?d = Some ?x
        |- converts j ?n ?conv =>
          exact (proj1 (reads_member_converts _ _ _ _ _ _ (member_value_inv _ _ _ _ _ _ H)))
      | H : member_value j ?n ?a ?conv ?d = Some ?x
        |- contains j ?n = false -> converts j ?a ?conv =>
          exact (proj2 (reads_member_converts _ _ _ _ _ _ (member_value_inv _ _ _ _ _ _ H)))
      end.
Qed.

Lemma get_HotkeyConfig_to_json hk :
  get_HotkeyConfig (to_json_HotkeyConfig hk) = Some hk.
Proof. destruct hk as [e c a s w k]. reflexivity. Qed.

(** X6.  Encoding a hotkey and decoding the result gives the hotkey back,
    and the encoded object has the six canonical members and no other. *)
Theorem hotkey_decode_encode (hk : HotkeyConfig) :
  get_HotkeyConfig (to_json_HotkeyConfig hk) = Some hk
  /\ canonical_hotkey (to_json_HotkeyConfig hk)
  /\ (forall name,
        contains (to_json_HotkeyConfig hk) name = true <->
        In name hotkey_members).
Proof.
  split; [apply get_HotkeyConfig_to_json|]. split.
  - exists (enabled hk), (ctrl hk), (alt hk), (shift hk), (win hk), (keyCode hk).
    now repeat split.
  - intros name. unfold contains, to_json_HotkeyConfig, hotkey_members.
    cbn [json_find map_find In].
    repeat match goal with
           | |- context [String.eqb ?k name] =>
               destruct (String.eqb_spec k name)
           end; split; intros H; try reflexivity; try discriminate;
      try (subst; tauto).
Qed.

Lemma decode_fields_inv aj j bs bs' :
  decode_fields aj j bs = Some bs' ->
  json_at j "direction" ≫= direction_from_json aj = Some (bs_direction bs')
  /\ member_value j "role" "role" (role_from_json aj) (bs_role bs)
     = Some (bs_role bs')
  /\ member_value j "primary" "primary" (device_member aj (primaryDevice bs))
       (primaryDevice bs) = Some (primaryDevice bs')
  /\ member_value j "secondary" "secondary"
       (device_member aj (secondaryDevice bs)) (secondaryDevice bs)
     = Some (secondaryDevice bs')
  /\ member_value j "matchStrategy" "matchStrategy"
       (fun v => Some (strategy_from_json v)) (matchStrategy bs)
     = Some (matchStrategy bs')
  /\ member_value j "primaryHotkey" "hotkey" get_HotkeyConfig (primaryHotkey bs)
     = Some (primaryHotkey bs')
  /\ member_value j "secondaryHotkey" "secondaryHotkey" get_HotkeyConfig
       (secondaryHotkey bs) = Some (secondaryHotkey bs').
Proof.
  unfold decode_fields.
  destruct (json_at j "direction" ≫= direction_from_json aj) as [d|];
    [|discriminate].
  destruct (member_value j "role" _ _ _) as [r|]; [|discriminate].
  destruct (member_value j "primary" _ _ _) as [p|]; [|discriminate].
  destruct (member_value j "secondary" _ _ _) as [s|]; [|discriminate].
  destruct (member_value j "matchStrategy" _ _ _) as [m|]; [|discriminate].
  destruct (member_value j "primaryHotkey" _ _ _) as [ph|]; [|discriminate].
  destruct (member_value j "secondaryHotkey" _ _ _) as [sh|]; [|discriminate].
  cbn [mbind option_bind]. intros H. inversion H; subst. now repeat split.
Qed.

Lemma device_member_converts aj d v x :
  device_member aj d v = Some x -> is_Some (device_converts aj v).
Proof.
  unfold device_member, device_converts.
  destruct (is_string v); [eauto|].
  destruct (device_from_json aj v); [eauto | discriminate].
Qed.

Lemma converts_of_member_value {A B} j name (conv : json -> option A)
    (conv' : json -> option B) dflt x :
  (forall v y, conv v = Some y -> is_Some (conv' v)) ->
  member_value j name name conv dflt = Some x -> converts j name conv'.
Proof.
  intros Himp H v Hv. apply member_value_inv in H as (Hn & _).
  exact (Himp v x (Hn v Hv)).
Qed.

(** X7.  A settings blob does not decode exactly when it has a [direction]
    and one of the members the decoder reads does not convert; without a
    [direction] nothing is read, so nothing can fail. *)
Theorem settings_decode_throws (aj : AudioJson) (j : json)
    (bs : ButtonSettings) :
  from_json_ButtonSettings aj j bs = None <->
  contains j "direction" = true /\ ~ settings_members_convert aj j.
Proof.
  split.
  - intros HN. destruct (contains j "direction") eqn:Hd.
    + split; [reflexivity|]. intros Hconv.
      destruct (from_json_ButtonSettings_soft aj j bs Hd Hconv) as (bs' & E & _).
      congruence.
    + rewrite from_json_ButtonSettings_noop in HN by assumption. discriminate.
  - intros [Hd Hno]. rewrite from_json_ButtonSettings_fields by assumption.
    destruct (decode_fields aj j bs) as [bs'|] eqn:E; [|reflexivity].
    exfalso. apply Hno.
    apply decode_fields_inv in E as (Edir & Er & Ep & Es & Em & Eph & Esh).
    unfold settings_members_convert. repeat apply conj.
    + intros v Hv. rewrite Hv in Edir. cbn in Edir. rewrite Edir. eauto.
    + eapply converts_of_member_value; [|exact Er]. intros v y ->. eauto.
    + eapply converts_of_member_value; [|exact Ep].
      intros v y. apply device_member_converts.
    + eapply converts_of_member_value; [|exact Es].
      intros v y. apply device_member_converts.
    + exact (proj1 (reads_member_converts _ _ _ _ _ _
                      (member_value_inv _ _ _ _ _ _ Eph))).
    + exact (proj2 (reads_member_converts _ _ _ _ _ _
                      (member_value_inv _ _ _ _ _ _ Eph))).
    + eapply converts_of_member_value; [|exact Esh]. intros v y ->. eauto.
Qed.

Lemma json_at_encoded aj bs :
  json_at (to_json_ButtonSettings aj bs) "direction"
  = Some (direction_to_json aj (bs_direction bs))
  /\ json_at (to_json_ButtonSettings aj bs) "role"
     = Some (role_to_json aj (bs_role bs))
  /\ json_at (to_json_ButtonSettings aj bs) "primary"
     = Some (device_to_json aj (primaryDevice bs))
  /\ json_at (to_json_ButtonSettings aj bs) "secondary"
     = Some (device_to_json aj (secondaryDevice bs))
  /\ json_at (to_json_ButtonSettings aj bs) "matchStrategy"
     = Some (strategy_to_json (matchStrategy bs))
  /\ json_at (to_json_ButtonSettings aj bs) "primaryHotkey"
     = Some (to_json_HotkeyConfig (primaryHotkey bs))
  /\ json_at (to_json_ButtonSettings aj bs) "secondaryHotkey"
     = Some (to_json_HotkeyConfig (secondaryHotkey bs)).
Proof. repeat split. Qed.

(** X8.  When the conversions of [audio_json.h] read back what they write
    and write a device as something other than a string, decoding the
    encoded settings gives the settings back. *)
Theorem settings_decode_encode (aj : AudioJson) (bs : ButtonSettings) :
  (forall d, direction_from_json aj (direction_to_json aj d) = Some d) ->
  (forall r, role_from_json aj (role_to_json aj r) = Some r) ->
  (forall d, device_from_json aj (device_to_json aj d) = Some d) ->
  (forall d, is_string (device_to_json aj d) = false) ->
  get_ButtonSettings aj (to_json_ButtonSettings aj bs) = Some bs.
Proof.
  intros Ldir Lrole Ldev Lstr.
  destruct (json_at_encoded aj bs) as (Hd & Hr & Hp & Hs & Hm & Hph & Hsh).
  unfold get_ButtonSettings.
  rewrite from_json_ButtonSettings_fields by reflexivity.
  unfold decode_fields. rewrite Hd. cbn [mbind option_bind]. rewrite Ldir.
  cbn [mbind option_bind].
  assert (Lmem : forall d0 d, device_member aj d0 (device_to_json aj d) = Some d).
  { intros d0 d. unfold device_member. now rewrite Lstr, Ldev. }
  rewrite (member_value_present _ _ _ _ _ _ Hr), Lrole. cbn [mbind option_bind].
  rewrite (member_value_present _ _ _ _ _ _ Hp), Lmem. cbn [mbind option_bind].
  rewrite (member_value_present _ _ _ _ _ _ Hs), Lmem. cbn [mbind option_bind].
  rewrite (member_value_present _ _ _ _ _ _ Hm). cbn [mbind option_bind].
  rewrite strategy_round_trip.
  rewrite (member_value_present _ _ _ _ _ _ Hph), get_HotkeyConfig_to_json.
  cbn [mbind option_bind].
  rewrite (member_value_present _ _ _ _ _ _ Hsh), get_HotkeyConfig_to_json.
  now destruct bs.
Qed.

Lemma settings_decode_encode_witness :
  get_ButtonSettings audio_json_model
    (to_json_ButtonSettings audio_json_model some_settings)
  = Some some_settings.
Proof.
  apply (settings_decode_encode audio_json_model some_settings).
  - intros []; reflexivity.
  - intros []; reflexivity.
  - exact model_device_round_trip.
  - reflexivity.
Defined.

Lemma strategy_from_json_Fuzzy j :
  strategy_from_json j = Fuzzy <-> j = JString "Fuzzy".
Proof.
  unfold strategy_from_json, strategy_table.
  destruct j; cbn [find snd fst]; try (split; discriminate).
  destruct (String.eqb_spec s "ID") as [->|H1]; cbn [fst];
    [split; discriminate|].
  destruct (String.eqb_spec s "Fuzzy") as [->|H2]; cbn [fst].
  - now split.
  - split; [discriminate | congruence].
Qed.

(** X9.  The match strategy of decoded settings is [Fuzzy] only for the
    member ["Fuzzy"]; every other value of the member, of whatever type,
    gives [ID] and no error; and both strategies are read back as written. *)
Theorem strategy_decode (aj : AudioJson) (j v : json) (bs bs' : ButtonSettings) :
  contains j "direction" = true ->
  json_at j "matchStrategy" = Some v ->
  from_json_ButtonSettings aj j bs = Some bs' ->
  (matchStrategy bs' = Fuzzy <-> v = JString "Fuzzy")
  /\ (v <> JString "Fuzzy" -> matchStrategy bs' = ID)
  /\ (forall m, strategy_from_json (strategy_to_json m) = m).
Proof.
  intros Hd Hv H. rewrite from_json_ButtonSettings_fields in H by assumption.
  apply decode_fields_inv in H as (_ & _ & _ & _ & Em & _).
  rewrite (member_value_present _ _ _ _ _ _ Hv) in Em.
  inversion Em as [E]. split; [apply strategy_from_json_Fuzzy|].
  split; [|apply strategy_round_trip].
  intros Hne. destruct (strategy_from_json v) eqn:Es; [reflexivity|].
  apply strategy_from_json_Fuzzy in Es. contradiction.
Qed.

Lemma strategy_decode_witness :
  from_json_ButtonSettings audio_json_model
    (JObject [("direction", JString "output"); ("matchStrategy", JString "fuzzy")])
    some_settings
  = Some (set_matchStrategy some_settings ID)
  /\ matchStrategy (set_matchStrategy some_settings ID) = ID.
Proof.
  split; [reflexivity|].
  destruct (strategy_decode audio_json_model
              (JObject [("direction", JString "output");
                        ("matchStrategy", JString "fuzzy")])
              (JString "fuzzy") some_settings
              (set_matchStrategy some_settings ID) eq_refl eq_refl eq_refl)
    as (_ & H & _).
  apply H. discriminate.
Defined.

(** X10.  A [primary] or [secondary] member that is a string is taken as the
    id of the device: only the id changes, the names, the direction and the
    state stay those of the value decoded into, and [audio_json.h] is not
    asked. *)
Theorem bare_id_decode (aj : AudioJson) (j : json) (bs bs' : ButtonSettings) :
  contains j "direction" = true ->
  from_json_ButtonSettings aj j bs = Some bs' ->
  (forall s, json_at j "primary" = Some (JString s) ->
     primaryDevice bs' = set_id (primaryDevice bs) s)
  /\ (forall s, json_at j "secondary" = Some (JString s) ->
        secondaryDevice bs' = set_id (secondaryDevice bs) s).
Proof.
  intros Hd H. rewrite from_json_ButtonSettings_fields in H by assumption.
  apply decode_fields_inv in H as (_ & _ & Ep & Es & _).
  split; intros s Hs.
  - rewrite (member_value_present _ _ _ _ _ _ Hs) in Ep. now inversion Ep.
  - rewrite (member_value_present _ _ _ _ _ _ Hs) in Es. now inversion Es.
Qed.

Lemma bare_id_decode_witness :
  exists bs',
    from_json_ButtonSettings audio_json_model (blob_with_primary (JString "A"))
      some_settings = Some bs'
    /\ primaryDevice bs' = set_id headset_descriptor "A".
Proof.
  eexists. split; [reflexivity|].
  match goal with
  | |- primaryDevice ?bs' = _ =>
      destruct (bare_id_decode audio_json_model
                  (blob_with_primary (JString "A")) some_settings bs'
                  eq_refl eq_refl) as [H _]
  end.
  apply (H "A"). reflexivity.
Defined.

(** X11.  The legacy member [hotkey] stands for [primaryHotkey] alone: it is
    read into the primary hotkey when the blob has no [primaryHotkey], is
    ignored when it has one, and never reaches the secondary hotkey, which
    is left as it was when the blob has no [secondaryHotkey]. *)
Theorem legacy_hotkey_member (aj : AudioJson) (j : json)
    (bs bs' : ButtonSettings) :
  contains j "direction" = true ->
  from_json_ButtonSettings aj j bs = Some bs' ->
  reads_member j "primaryHotkey" "hotkey" get_HotkeyConfig
    (primaryHotkey bs) (primaryHotkey bs')
  /\ (json_at j "secondaryHotkey" = None ->
      secondaryHotkey bs' = secondaryHotkey bs)
  /\ (forall v, json_at j "secondaryHotkey" = Some v ->
        get_HotkeyConfig v = Some (secondaryHotkey bs')).
Proof.
  intros Hd H. rewrite from_json_ButtonSettings_fields in H by assumption.
  apply decode_fields_inv in H as (_ & _ & _ & _ & _ & Eph & Esh).
  split; [now apply member_value_inv|].
  apply member_value_inv in Esh as (Hn & _ & Ha).
  split; [intros Hno; now apply Ha | exact Hn].
Qed.

Lemma legacy_hotkey_member_witness :
  get_ButtonSettings audio_json_model legacy_blob
  = Some (set_primaryHotkey (set_direction default_settings OUTPUT)
            (mkHotkey true false false false false "A"))
  /\ secondaryHotkey
       (set_primaryHotkey (set_direction default_settings OUTPUT)
          (mkHotkey true false false false false "A")) = default_hotkey.
Proof.
  split; [reflexivity|].
  destruct (legacy_hotkey_member audio_json_model legacy_blob default_settings
              (set_primaryHotkey (set_direction default_settings OUTPUT)
                 (mkHotkey true false false false false "A"))
              eq_refl eq_refl) as (_ & H & _).
  apply H. reflexivity.
Defined.

(** ** [KeyUpForAction] *)

Lemma TriggerHotkey_key_events p hotkey e :
  In e (fst (TriggerHotkey p hotkey)) -> is_key_event e = true.
Proof.
  unfold TriggerHotkey.
  destruct (negb (enabled hotkey) || (keyCode hotkey =? "")); [intros []|].
  destruct p as [V| |].
  - unfold TriggerHotkey_win.
    destruct (negb (win_vkCode V (keyCode hotkey) =? 0)%Z); [|intros []].
    intros [<-|[]]. reflexivity.
  - unfold TriggerHotkey_mac.
    destruct (mac_keyCode (keyCode hotkey)) as [x|k]; [intros []|].
    destruct (negb (k =? 0)%Z); [|intros []].
    intros [<-|[<-|[]]]; reflexivity.
  - intros [].
Qed.

(** The five ways an activation ends. *)
Lemma activate_cases p w action context reportedState bs slot :
  let targetId := GetVolatileID w (slot_device slot bs) (matchStrategy bs) in
  let hotkey := slot_hotkey slot bs in
  (targetId = ""
   /\ activate p w action context reportedState bs slot = ([], Returns))
  \/ (targetId <> "" /\ GetAudioDeviceState w targetId <> CONNECTED
      /\ activate p w action context reportedState bs slot
         = ((if is_set action then [SetState 1%Z context] else [])
            ++ [ShowAlertForContext context], Returns))
  \/ (targetId <> "" /\ GetAudioDeviceState w targetId = CONNECTED
      /\ is_set action = true
      /\ targetId = GetDefaultAudioDeviceID w (bs_direction bs) (bs_role bs)
      /\ activate p w action context reportedState bs slot
         = ([SetState reportedState context], Returns))
  \/ (targetId <> "" /\ GetAudioDeviceState w targetId = CONNECTED
      /\ (enabled hotkey = false \/ keyCode hotkey = "")
      /\ activate p w action context reportedState bs slot
         = ([SetDefaultAudioDeviceID (bs_direction bs) (bs_role bs) targetId],
            Returns))
  \/ (targetId <> "" /\ GetAudioDeviceState w targetId = CONNECTED
      /\ enabled hotkey = true /\ keyCode hotkey <> ""
      /\ activate p w action context reportedState bs slot
         = (SetDefaultAudioDeviceID (bs_direction bs) (bs_role bs) targetId
            :: fst (TriggerHotkey p hotkey),
            snd (TriggerHotkey p hotkey))).
Proof.
  intros targetId hotkey. unfold activate. fold targetId. fold hotkey.
  destruct (String.eqb_spec targetId "") as [E|E]; [left; now split|].
  right.
  destruct (state_eqb (GetAudioDeviceState w targetId) CONNECTED) eqn:Hs;
    cbn [negb].
  2:{ left. split; [exact E|]. split; [|reflexivity].
      intros Hc. rewrite Hc in Hs. discriminate. }
  apply state_eqb_eq in Hs. right.
  destruct (is_set action) eqn:Hset; cbn [andb].
  - destruct (String.eqb_spec targetId
                (GetDefaultAudioDeviceID w (bs_direction bs) (bs_role bs)))
      as [Hdef|Hdef].
    + left. now repeat split.
    + right. destruct (enabled hotkey) eqn:He; cbn [andb].
      * destruct (String.eqb_spec (keyCode hotkey) "") as [Hk|Hk]; cbn [negb].
        -- left. repeat split; auto.
        -- right. now repeat split.
      * left. repeat split; auto.
  - right. destruct (enabled hotkey) eqn:He; cbn [andb].
    + destruct (String.eqb_spec (keyCode hotkey) "") as [Hk|Hk]; cbn [negb].
      * left. repeat split; auto.
      * right. now repeat split.
    + left. repeat split; auto.
Qed.

(** X12.  A key-up whose payload has no [settings] does nothing at all.  One
    whose [settings] do not decode is left by the exception of the decoder
    without any effect; every registered button keeps its settings, and a
    context that was not registered now has a button with default settings. *)
Theorem key_up_bad_payload (aj : AudioJson) (p : Platform) (w : AudioWorld)
    (st : Plugin) (inAction inContext : string) (inPayload : json)
    (inDeviceID : string) :
  let o := KeyUpForAction aj p w st inAction inContext inPayload inDeviceID in
  (contains inPayload "settings" = false ->
   o = mkOutcome st [] Returns)
  /\ (forall sj,
        json_at inPayload "settings" = Some sj ->
        get_ButtonSettings aj sj = None ->
        completion o = Throws json_exception
        /\ effects o = []
        /\ mVisibleContexts (plugin o) = mVisibleContexts st
        /\ (forall c button, mButtons st !! c = Some button ->
            mButtons (plugin o) !! c = Some button)
        /\ (forall c, c <> inContext ->
            mButtons (plugin o) !! c = mButtons st !! c)
        /\ (mButtons st !! inContext = None ->
            mButtons (plugin o) !! inContext = Some default_button)).
Proof.
  intros o. subst o. unfold KeyUpForAction. split.
  - intros H. now rewrite H.
  - intros sj Hs Hd.
    assert (Hc : contains inPayload "settings" = true)
      by (apply contains_json_at; eauto).
    rewrite Hc, Hs. cbn [negb mbind option_bind]. rewrite Hd.
    unfold subscript. cbn [completion effects plugin set_mButtons
                           mVisibleContexts mButtons].
    repeat split.
    + intros c button Hb. destruct (decide (inContext = c)) as [->|Hne].
      * rewrite lookup_insert_eq, Hb. reflexivity.
      * now rewrite lookup_insert_ne.
    + intros c Hne. now rewrite lookup_insert_ne.
    + intros Hnone. now rewrite lookup_insert_eq, Hnone.
Qed.

Lemma key_up_bad_payload_witness :
  completion
    (KeyUpForAction audio_json_model Apple (demo_world "A")
       (demo_plugin TOGGLE_ACTION_ID ab_settings) TOGGLE_ACTION_ID "ctx"
       (JObject [("settings",
                  JObject [("direction", JString "output");
                           ("primaryHotkey",
                            JObject [("enabled", JString "yes")])])]) "")
  = Throws json_exception
  /\ mButtons
       (plugin
          (KeyUpForAction audio_json_model Apple (demo_world "A")
             (demo_plugin TOGGLE_ACTION_ID ab_settings) TOGGLE_ACTION_ID "ctx"
             (JObject [("settings",
                        JObject [("direction", JString "output");
                                 ("primaryHotkey",
                                  JObject [("enabled", JString "yes")])])]) ""))
     !! "ctx"
     = Some (mkButton TOGGLE_ACTION_ID "ctx" ab_settings).
Proof.
  destruct (key_up_bad_payload audio_json_model Apple (demo_world "A")
              (demo_plugin TOGGLE_ACTION_ID ab_settings) TOGGLE_ACTION_ID "ctx"
              (JObject [("settings",
                         JObject [("direction", JString "output");
                                  ("primaryHotkey",
                                   JObject [("enabled", JString "yes")])])]) "")
    as [_ H].
  destruct (H _ eq_refl eq_refl) as (Hc & _ & _ & Hb & _).
  split; [exact Hc|]. apply Hb. apply lookup_singleton_eq.
Defined.

(** X13.  A key-up whose settings decode stores them, backfilled, in the
    button of its context, with the action and context the button had (those
    of a default button for a context that was not registered); the other
    buttons and the set of visible contexts are as before, whatever the
    activation does. *)
Theorem key_up_stores_settings (aj : AudioJson) (p : Platform) (w : AudioWorld)
    (st : Plugin) (inAction inContext : string) (inPayload : json)
    (inDeviceID : string) (sj : json) (decoded : ButtonSettings) :
  json_at inPayload "settings" = Some sj ->
  get_ButtonSettings aj sj = Some decoded ->
  let o := KeyUpForAction aj p w st inAction inContext inPayload inDeviceID in
  let old := default default_button (mButtons st !! inContext) in
  mButtons (plugin o) !! inContext
  = Some (mkButton (action old) (context old) (backfilled w decoded))
  /\ (forall c, c <> inContext -> mButtons (plugin o) !! c = mButtons st !! c)
  /\ mVisibleContexts (plugin o) = mVisibleContexts st.
Proof.
  intros Hs Hd o old. subst o.
  rewrite (KeyUpForAction_eq _ _ _ _ _ _ _ _ _ _ Hs Hd). cbn zeta.
  cbn [plugin].
  rewrite (FillButtonDeviceInfo_eq aj w _ _ _
             (pressed_button_lookup st inContext decoded)).
  cbn [plugin set_mButtons mButtons mVisibleContexts pressed_button].
  split; [|split].
  - rewrite lookup_insert_eq. reflexivity.
  - intros c Hne. now rewrite !lookup_insert_ne.
  - reflexivity.
Qed.

Lemma key_up_stores_settings_witness :
  mButtons
    (plugin
       (KeyUpForAction audio_json_model Apple (demo_world "A")
          (demo_plugin TOGGLE_ACTION_ID ab_settings) TOGGLE_ACTION_ID "ctx"
          (press_payload stale_settings 0) ""))
    !! "ctx"
  = Some (mkButton TOGGLE_ACTION_ID "ctx"
            (backfilled (demo_world "A") stale_settings)).
Proof.
  destruct (key_up_stores_settings audio_json_model Apple (demo_world "A")
              (demo_plugin TOGGLE_ACTION_ID ab_settings) TOGGLE_ACTION_ID "ctx"
              (press_payload stale_settings 0) ""
              (to_json_ButtonSettings audio_json_model stale_settings)
              stale_settings
              (press_payload_settings stale_settings 0)
              (model_settings_round_trip stale_settings)) as [H _].
  rewrite H. unfold demo_plugin. cbn [mButtons].
  rewrite lookup_singleton_eq. reflexivity.
Defined.

Lemma backfilled_slot_empty w bs slot :
  id (slot_device slot bs) = "" ->
  slot_device slot (backfilled w bs) = slot_device slot bs.
Proof.
  intros H. unfold backfilled.
  destruct slot; cbn [slot_device primaryDevice secondaryDevice
                      set_primaryDevice set_secondaryDevice] in *;
    unfold FillAudioDeviceInfo; now rewrite H.
Qed.

Lemma backfilled_frame w bs :
  bs_direction (backfilled w bs) = bs_direction bs
  /\ bs_role (backfilled w bs) = bs_role bs
  /\ matchStrategy (backfilled w bs) = matchStrategy bs
  /\ primaryHotkey (backfilled w bs) = primaryHotkey bs
  /\ secondaryHotkey (backfilled w bs) = secondaryHotkey bs.
Proof. now repeat split. Qed.

(** X14.  When the device of the targeted slot has no id in the decoded
    settings, nothing is configured for it: the key-up returns and, apart
    from the backfill request of the other slot, has no effect: no state, no
    alert, no change of the default device, no key event. *)
Theorem key_up_nothing_configured (aj : AudioJson) (p : Platform)
    (w : AudioWorld) (st : Plugin) (inAction inContext : string)
    (inPayload : json) (inDeviceID : string) (sj : json)
    (decoded : ButtonSettings) :
  json_at inPayload "settings" = Some sj ->
  get_ButtonSettings aj sj = Some decoded ->
  id (slot_device (target_slot inAction (GetIntByName inPayload "state"))
        decoded) = "" ->
  let o := KeyUpForAction aj p w st inAction inContext inPayload inDeviceID in
  completion o = Returns
  /\ effects o
     = effects (FillButtonDeviceInfo aj w (pressed_button st inContext decoded)
                  inContext)
  /\ (forall e, In e (effects o) -> exists blob, e = SetSettings blob inContext).
Proof.
  intros Hs Hd Hid o. subst o.
  rewrite (KeyUpForAction_eq _ _ _ _ _ _ _ _ _ _ Hs Hd). cbn zeta.
  assert (Hact : activate p w inAction inContext (GetIntByName inPayload "state")
                   (backfilled w decoded)
                   (target_slot inAction (GetIntByName inPayload "state"))
                 = ([], Returns)).
  { unfold activate. rewrite (backfilled_slot_empty w decoded _ Hid).
    rewrite (GetVolatileID_empty w _ _ Hid). reflexivity. }
  rewrite Hact. cbn [effects completion fst snd]. rewrite app_nil_r.
  split; [reflexivity|]. split; [reflexivity|].
  intros e. apply FillButtonDeviceInfo_persist.
Qed.

Lemma key_up_nothing_configured_witness :
  effects
    (KeyUpForAction audio_json_model Apple (demo_world "A")
       (demo_plugin TOGGLE_ACTION_ID headset_settings) TOGGLE_ACTION_ID "ctx"
       (press_payload headset_settings 0) "")
  = [].
Proof.
  destruct (key_up_nothing_configured audio_json_model Apple (demo_world "A")
              (demo_plugin TOGGLE_ACTION_ID headset_settings) TOGGLE_ACTION_ID
              "ctx" (press_payload headset_settings 0) ""
              (to_json_ButtonSettings audio_json_model headset_settings)
              headset_settings
              (press_payload_settings headset_settings 0)
              (model_settings_round_trip headset_settings) eq_refl)
    as (_ & E & _).
  rewrite E.
  rewrite (FillButtonDeviceInfo_eq audio_json_model _ _ _ _
             (pressed_button_lookup _ "ctx" headset_settings)).
  reflexivity.
Defined.

Lemma persist_not_key aj w st context e :
  In e (effects (FillButtonDeviceInfo aj w st context)) ->
  is_key_event e = false /\ is_switch e = false.
Proof.
  intros H. apply FillButtonDeviceInfo_persist in H as [blob ->]. now split.
Qed.

(** X15.  A key-up injects key events only together with a change of the
    default device: when one of its effects is a key event, its effects are
    the backfill request, one call of [SetDefaultAudioDeviceID] for the
    direction and role of the settings and the connected target, and then
    the events [TriggerHotkey] makes for the hotkey of the targeted slot,
    which is enabled and has a key name. *)
Theorem key_events_follow_switch (aj : AudioJson) (p : Platform)
    (w : AudioWorld) (st : Plugin) (inAction inContext : string)
    (inPayload : json) (inDeviceID : string) (sj : json)
    (decoded : ButtonSettings) (event : Effect) :
  json_at inPayload "settings" = Some sj ->
  get_ButtonSettings aj sj = Some decoded ->
  let o := KeyUpForAction aj p w st inAction inContext inPayload inDeviceID in
  let bs := backfilled w decoded in
  let slot := target_slot inAction (GetIntByName inPayload "state") in
  let targetId := GetVolatileID w (slot_device slot bs) (matchStrategy bs) in
  In event (effects o) -> is_key_event event = true ->
  effects o
  = effects (FillButtonDeviceInfo aj w (pressed_button st inContext decoded)
               inContext)
    ++ SetDefaultAudioDeviceID (bs_direction decoded) (bs_role decoded) targetId
       :: fst (TriggerHotkey p (slot_hotkey slot decoded))
  /\ targetId <> ""
  /\ GetAudioDeviceState w targetId = CONNECTED
  /\ enabled (slot_hotkey slot decoded) = true
  /\ keyCode (slot_hotkey slot decoded) <> "".
Proof.
  intros Hs Hd o bs slot targetId. subst o.
  rewrite (KeyUpForAction_eq _ _ _ _ _ _ _ _ _ _ Hs Hd). cbn zeta.
  cbn [effects]. fold bs slot.
  assert (Hhk : slot_hotkey slot bs = slot_hotkey slot decoded)
    by (now destruct slot).
  intros Hin Hkey.
  apply in_app_or in Hin as [Hin|Hin].
  { apply persist_not_key in Hin as [Hin _]. congruence. }
  destruct (activate_cases p w inAction inContext (GetIntByName inPayload "state")
              bs slot)
    as [(_ & E)|[(_ & _ & E)|[(_ & _ & _ & _ & E)|[(_ & _ & _ & E)
        |(Hid & Hconn & He & Hk & E)]]]];
    rewrite E in Hin |- *; cbn [fst] in Hin |- *.
  - destruct Hin.
  - destruct (is_set inAction); cbn in Hin;
      repeat (destruct Hin as [<-|Hin]; [discriminate Hkey|]); destruct Hin.
  - destruct Hin as [<-|[]]. discriminate Hkey.
  - destruct Hin as [<-|[]]. discriminate Hkey.
  - rewrite Hhk in *. now repeat split.
Qed.

Lemma key_events_follow_switch_witness :
  effects
    (KeyUpForAction audio_json_model Apple (demo_world "A")
       (demo_plugin SET_ACTION_ID headset_settings) SET_ACTION_ID "ctx"
       (press_payload headset_settings 0) "")
  = [SetDefaultAudioDeviceID OUTPUT DEFAULT "B";
     CGEventPost 122 true 262144; CGEventPost 122 false 262144].
Proof.
  destruct (key_events_follow_switch audio_json_model Apple (demo_world "A")
              (demo_plugin SET_ACTION_ID headset_settings) SET_ACTION_ID "ctx"
              (press_payload headset_settings 0) ""
              (to_json_ButtonSettings audio_json_model headset_settings)
              headset_settings (CGEventPost 122 true 262144)
              (press_payload_settings headset_settings 0)
              (model_settings_round_trip headset_settings))
    as (E & _).
  - right. left. reflexivity.
  - reflexivity.
  - rewrite E.
    rewrite (FillButtonDeviceInfo_eq audio_json_model _ _ _ _
               (pressed_button_lookup _ "ctx" headset_settings)).
    reflexivity.
Defined.

Lemma KeyUpForAction_button aj p w st inAction inContext inPayload inDeviceID
    sj decoded button :
  json_at inPayload "settings" = Some sj ->
  get_ButtonSettings aj sj = Some decoded ->
  mButtons st !! inContext = Some button ->
  mButtons
    (plugin (KeyUpForAction aj p w st inAction inContext inPayload inDeviceID))
    !! inContext
  = Some (mkButton (action button) (context button) (backfilled w decoded)).
Proof.
  intros Hs Hd Hb.
  rewrite (KeyUpForAction_eq _ _ _ _ _ _ _ _ _ _ Hs Hd). cbn zeta.
  cbn [plugin].
  rewrite (FillButtonDeviceInfo_eq aj w _ _ _
             (pressed_button_lookup st inContext decoded)).
  cbn [plugin set_mButtons mButtons].
  rewrite lookup_insert_eq, Hb. reflexivity.
Qed.

Lemma activate_switch p w action context reportedState bs slot d r t :
  In (SetDefaultAudioDeviceID d r t)
    (fst (activate p w action context reportedState bs slot)) ->
  d = bs_direction bs /\ r = bs_role bs
  /\ t = GetVolatileID w (slot_device slot bs) (matchStrategy bs)
  /\ t <> "".
Proof.
  intros Hin.
  assert (Hkeys : forall hk, ~ In (SetDefaultAudioDeviceID d r t)
                                 (fst (TriggerHotkey p hk))).
  { intros hk H. apply TriggerHotkey_key_events in H. discriminate H. }
  destruct (activate_cases p w action context reportedState bs slot)
    as [(_ & E)|[(_ & _ & E)|[(_ & _ & _ & _ & E)|[(Hid & _ & _ & E)
        |(Hid & _ & _ & _ & E)]]]];
    rewrite E in Hin; cbn [fst] in Hin.
  - destruct Hin.
  - destruct (is_set action); cbn in Hin;
      repeat (destruct Hin as [Hin|Hin]; [discriminate Hin|]); destruct Hin.
  - destruct Hin as [Hin|[]]. discriminate Hin.
  - destruct Hin as [Hin|[]]. inversion Hin; subst. now repeat split.
  - destruct Hin as [Hin|Hin]; [|now apply Hkeys in Hin].
    inversion Hin; subst. now repeat split.
Qed.

(** X16.  When a key-up on a registered button of that action changes the
    default device, the notification of that change puts the button in the
    state of the slot that was targeted: 0 for the primary slot, 1 for the
    secondary one, provided the secondary target is not also the primary
    volatile id. *)
Theorem press_then_notification (aj : AudioJson) (p : Platform)
    (w : AudioWorld) (st : Plugin) (inAction inContext : string)
    (inPayload : json) (inDeviceID : string) (sj : json)
    (decoded : ButtonSettings) (button : Button)
    (d : AudioDeviceDirection) (r : AudioDeviceRole) (t : string) :
  json_at inPayload "settings" = Some sj ->
  get_ButtonSettings aj sj = Some decoded ->
  mButtons st !! inContext = Some button ->
  action button = inAction ->
  let o := KeyUpForAction aj p w st inAction inContext inPayload inDeviceID in
  let bs := backfilled w decoded in
  let slot := target_slot inAction (GetIntByName inPayload "state") in
  In (SetDefaultAudioDeviceID d r t) (effects o) ->
  (slot = Secondary -> t <> VolatilePrimaryID w bs) ->
  t = GetVolatileID w (slot_device slot bs) (matchStrategy bs)
  /\ List.filter (addressed_to inContext)
       (effects (OnDefaultDeviceChanged w (plugin o) d r t))
     = [SetState (slot_state slot) inContext].
Proof.
  intros Hs Hd Hb Hact o bs slot Hin Hsec.
  pose proof (KeyUpForAction_button aj p w st inAction inContext inPayload
                inDeviceID sj decoded button Hs Hd Hb) as Hbutton.
  fold o in Hbutton. fold bs in Hbutton.
  assert (Ht : d = bs_direction bs /\ r = bs_role bs
               /\ t = GetVolatileID w (slot_device slot bs) (matchStrategy bs)
               /\ t <> "").
  { subst o. rewrite (KeyUpForAction_eq _ _ _ _ _ _ _ _ _ _ Hs Hd) in Hin.
    cbn zeta in Hin. cbn [effects] in Hin.
    apply in_app_or in Hin as [Hin|Hin].
    - apply persist_not_key in Hin as [_ Hin]. discriminate Hin.
    - now apply activate_switch in Hin. }
  destruct Ht as (-> & -> & Ht & Hne). split; [exact Ht|].
  rewrite OnDefaultDeviceChanged_eq. cbn [effects].
  rewrite (filter_notifications w _ _ t inContext _ _
             (NoDup_fst_entries_in_key_order _)
             (proj2 (elem_of_entries_in_key_order _ _ _) Hbutton)).
  unfold notify_entry. cbn [settings action].
  assert (Hdd : direction_eqb (bs_direction bs) (bs_direction bs) = true)
    by (now destruct (bs_direction bs)).
  assert (Hrr : role_eqb (bs_role bs) (bs_role bs) = true)
    by (now destruct (bs_role bs)).
  rewrite Hdd, Hrr. cbn [andb].
  destruct (String.eqb_spec t "") as [|_]; [contradiction|].
  unfold report_state. rewrite Hact.
  unfold slot, target_slot in *.
  destruct (is_set inAction) eqn:Hset; cbn [orb] in *.
  - cbn [slot_device] in Ht. unfold VolatilePrimaryID. rewrite <- Ht.
    now rewrite String.eqb_refl.
  - destruct (negb (GetIntByName inPayload "state" =? 0)%Z).
    + cbn [slot_device] in Ht. unfold VolatilePrimaryID. rewrite <- Ht.
      now rewrite String.eqb_refl.
    + cbn [slot_device] in Ht.
      destruct (String.eqb_spec t (VolatilePrimaryID w bs)) as [E|_];
        [now apply Hsec in E|].
      unfold VolatileSecondaryID. rewrite <- Ht. now rewrite String.eqb_refl.
Qed.

Lemma press_then_notification_witness :
  List.filter (addressed_to "ctx")
    (effects
       (OnDefaultDeviceChanged (demo_world "A")
          (plugin
             (KeyUpForAction audio_json_model Apple (demo_world "A")
                (demo_plugin TOGGLE_ACTION_ID ab_settings) TOGGLE_ACTION_ID
                "ctx" (press_payload ab_settings 0) ""))
          OUTPUT DEFAULT "B"))
  = [SetState 1 "ctx"].
Proof.
  destruct (press_then_notification audio_json_model Apple (demo_world "A")
              (demo_plugin TOGGLE_ACTION_ID ab_settings) TOGGLE_ACTION_ID "ctx"
              (press_payload ab_settings 0) ""
              (to_json_ButtonSettings audio_json_model ab_settings) ab_settings
              (mkButton TOGGLE_ACTION_ID "ctx" ab_settings) OUTPUT DEFAULT "B"
              (press_payload_settings ab_settings 0)
              (model_settings_round_trip ab_settings)
              (lookup_singleton_eq _ _) eq_refl)
    as [_ E].
  - left. reflexivity.
  - intros _. discriminate.
  - exact E.
Defined.

(** ** Appearance, disappearance and notification *)

Lemma FillButtonDeviceInfo_plugin aj w st context button :
  mButtons st !! context = Some button ->
  plugin (FillButtonDeviceInfo aj w st context)
  = set_mButtons st
      (<[context := set_settings button (backfilled w (settings button))]>
         (mButtons st)).
Proof. intros H. now rewrite (FillButtonDeviceInfo_eq aj w st context button H). Qed.

(** The plugin after [WillAppearForAction], in its three cases. *)
Lemma WillAppearForAction_plugin aj w st inAction inContext inPayload inDeviceID :
  exists bs,
    plugin (WillAppearForAction aj w st inAction inContext inPayload inDeviceID)
    = appeared st inAction inContext bs
    /\ ((contains inPayload "settings" = false /\ bs = default_settings)
        \/ (exists sj, json_at inPayload "settings" = Some sj
                       /\ get_ButtonSettings aj sj = None
                       /\ bs = default_settings)
        \/ (exists sj decoded,
              json_at inPayload "settings" = Some sj
              /\ get_ButtonSettings aj sj = Some decoded
              /\ bs = backfilled w decoded)).
Proof.
  destruct (contains inPayload "settings") eqn:Hc.
  - apply contains_json_at in Hc as [sj Hs].
    destruct (get_ButtonSettings aj sj) as [decoded|] eqn:Hd.
    + exists (backfilled w decoded). split; [|right; right; eauto].
      rewrite (WillAppearForAction_eq _ _ _ _ _ _ _ _ _ Hs Hd). cbn zeta.
      cbn [plugin].
      rewrite (FillButtonDeviceInfo_plugin aj w _ _
                 (mkButton inAction inContext decoded))
        by apply lookup_insert_eq.
      unfold appeared, set_mButtons, set_settings.
      cbn [mVisibleContexts mButtons action context settings].
      now rewrite insert_insert_eq.
    + exists default_settings. split; [|right; left; eauto].
      unfold WillAppearForAction.
      assert (Hc : contains inPayload "settings" = true)
        by (apply contains_json_at; eauto).
      rewrite Hc, Hs. cbn [negb mbind option_bind]. now rewrite Hd.
  - exists default_settings. split; [|left; now split].
    unfold WillAppearForAction. now rewrite Hc.
Qed.

(** X17.  Whatever the payload, after [WillAppearForAction] the context is
    visible and registered with the action and context of the event, and the
    other buttons are as before.  Its settings are the decoded ones,
    backfilled; they are the default ones, whatever the button had before,
    when the payload has no [settings] or when they do not decode, in which
    case the handler is left by the exception after the registration. *)
Theorem appearance_registers (aj : AudioJson) (w : AudioWorld) (st : Plugin)
    (inAction inContext : string) (inPayload : json) (inDeviceID : string) :
  let o := WillAppearForAction aj w st inAction inContext inPayload inDeviceID in
  inContext ∈ mVisibleContexts (plugin o)
  /\ (exists bs,
        mButtons (plugin o) !! inContext = Some (mkButton inAction inContext bs))
  /\ (forall c, c <> inContext -> mButtons (plugin o) !! c = mButtons st !! c)
  /\ (contains inPayload "settings" = false ->
      o = mkOutcome (appeared st inAction inContext default_settings) []
            Returns)
  /\ (forall sj, json_at inPayload "settings" = Some sj ->
        get_ButtonSettings aj sj = None ->
        o = mkOutcome (appeared st inAction inContext default_settings) []
              (Throws json_exception))
  /\ (forall sj decoded, json_at inPayload "settings" = Some sj ->
        get_ButtonSettings aj sj = Some decoded ->
        completion o = Returns
        /\ mButtons (plugin o) !! inContext
           = Some (mkButton inAction inContext (backfilled w decoded))).
Proof.
  intros o.
  destruct (WillAppearForAction_plugin aj w st inAction inContext inPayload
              inDeviceID) as (bs & Hp & Hcases).
  fold o in Hp.
  split; [rewrite Hp; cbn; set_solver|].
  split; [exists bs; rewrite Hp; apply lookup_insert_eq|].
  split; [intros c Hne; rewrite Hp; cbn; now rewrite lookup_insert_ne|].
  split; [|split].
  - intros Hc. subst o. unfold WillAppearForAction. now rewrite Hc.
  - intros sj Hs Hd. subst o. unfold WillAppearForAction.
    assert (Hc : contains inPayload "settings" = true)
      by (apply contains_json_at; eauto).
    rewrite Hc, Hs. cbn [negb mbind option_bind]. now rewrite Hd.
  - intros sj decoded Hs Hd. split.
    + subst o. rewrite (WillAppearForAction_eq _ _ _ _ _ _ _ _ _ Hs Hd).
      cbn zeta. cbn [completion].
      now rewrite (FillButtonDeviceInfo_eq aj w _ _
                     (mkButton inAction inContext decoded)
                     (lookup_insert_eq _ _ _)).
    + destruct Hcases as [[Hc _]|[(sj' & Hs' & Hd' & _)|(sj' & dec' & Hs' & Hd' & ->)]].
      * apply contains_false_json_at in Hc. congruence.
      * congruence.
      * assert (dec' = decoded) by congruence. subst dec'.
        rewrite Hp. apply lookup_insert_eq.
Qed.

Lemma appearance_registers_witness :
  WillAppearForAction audio_json_model (demo_world "A")
    (demo_plugin TOGGLE_ACTION_ID ab_settings) SET_ACTION_ID "ctx"
    (JObject [("state", JInt 0)]) ""
  = mkOutcome
      (appeared (demo_plugin TOGGLE_ACTION_ID ab_settings) SET_ACTION_ID "ctx"
         default_settings) [] Returns.
Proof.
  destruct (appearance_registers audio_json_model (demo_world "A")
              (demo_plugin TOGGLE_ACTION_ID ab_settings) SET_ACTION_ID "ctx"
              (JObject [("state", JInt 0)]) "")
    as (_ & _ & _ & H & _).
  apply H. reflexivity.
Defined.

(** X18.  A button that appears and disappears leaves no trace: for a
    context that was neither visible nor registered, [WillDisappearForAction]
    after [WillAppearForAction] gives the plugin back as it was, whatever the
    two payloads and whether or not the appearance was left by an
    exception. *)
Theorem appear_then_disappear (aj : AudioJson) (w : AudioWorld) (st : Plugin)
    (inAction inContext : string) (inPayload : json) (inDeviceID : string)
    (inAction' : string) (inPayload' : json) (inDeviceID' : string) :
  inContext ∉ mVisibleContexts st ->
  mButtons st !! inContext = None ->
  plugin
    (WillDisappearForAction
       (plugin (WillAppearForAction aj w st inAction inContext inPayload
                  inDeviceID))
       inAction' inContext inPayload' inDeviceID')
  = st.
Proof.
  intros Hv Hb.
  destruct (WillAppearForAction_plugin aj w st inAction inContext inPayload
              inDeviceID) as (bs & -> & _).
  unfold WillDisappearForAction, appeared. cbn [plugin mVisibleContexts mButtons].
  destruct st as [v m]. cbn [mVisibleContexts mButtons] in *. f_equal.
  - set_solver.
  - rewrite delete_insert_eq. now apply delete_id.
Qed.

Lemma appear_then_disappear_witness :
  plugin
    (WillDisappearForAction
       (plugin (WillAppearForAction audio_json_model (demo_world "A")
                  (demo_plugin TOGGLE_ACTION_ID ab_settings) SET_ACTION_ID
                  "other" (press_payload stale_settings 0) ""))
       SET_ACTION_ID "other" JNull "")
  = demo_plugin TOGGLE_ACTION_ID ab_settings.
Proof.
  apply (appear_then_disappear audio_json_model (demo_world "A")
           (demo_plugin TOGGLE_ACTION_ID ab_settings) SET_ACTION_ID "other"
           (press_payload stale_settings 0) "" SET_ACTION_ID JNull "").
  - cbn. set_solver.
  - apply lookup_singleton_ne. discriminate.
Defined.

Lemma notify_entry_single w direction role device context button :
  (concerns direction role (context, button) = true
   /\ exists e, notify_entry w direction role device (context, button) = [e]
                /\ is_report e = true /\ effect_context e = Some context)
  \/ (concerns direction role (context, button) = false
      /\ notify_entry w direction role device (context, button) = []).
Proof.
  unfold notify_entry, concerns. cbn [snd].
  destruct (_ && _); [left | right; now split].
  split; [reflexivity|]. unfold report_state.
  destruct (is_set (action button)); [eexists; now repeat split|].
  destruct (String.eqb _ (VolatilePrimaryID w (settings button)));
    [eexists; now repeat split|].
  destruct (String.eqb _ (VolatileSecondaryID w (settings button)));
    eexists; now repeat split.
Qed.

Lemma notifications_count w direction role device (entries : list (string * Button)) :
  length (flat_map (notify_entry w direction role device) entries)
  = length (List.filter (concerns direction role) entries)
  /\ forall e,
       In e (flat_map (notify_entry w direction role device) entries) ->
       is_report e = true
       /\ exists c button,
            In (c, button) entries /\ effect_context e = Some c
            /\ concerns direction role (c, button) = true.
Proof.
  induction entries as [|[c b] rest [IHlen IHin]]; [split; [reflexivity | intros e []]|].
  cbn [flat_map List.filter].
  destruct (notify_entry_single w direction role device c b)
    as [(Hc & e0 & -> & Hr & Ha)|(Hc & ->)]; rewrite Hc.
  - split; [cbn; now rewrite IHlen|].
    intros e [<-|Hin].
    + split; [exact Hr|]. exists c, b. split; [now left | now split].
    + destruct (IHin e Hin) as (He & c' & b' & Hin' & H').
      split; [exact He|]. exists c', b'. split; [now right | exact H'].
  - split; [exact IHlen|]. cbn [app]. intros e Hin.
    destruct (IHin e Hin) as (He & c' & b' & Hin' & H').
    split; [exact He|]. exists c', b'. split; [now right | exact H'].
Qed.

Lemma filter_addressed_elsewhere context effs :
  (forall e, In e effs ->
     exists other, effect_context e = Some other /\ other <> context) ->
  List.filter (addressed_to context) effs = [].
Proof.
  induction effs as [|e effs IH]; intros H; [reflexivity|].
  cbn [List.filter]. unfold addressed_to at 1.
  destruct (H e) as (other & -> & Hne); [now left|].
  destruct (String.eqb_spec other context); [contradiction|].
  apply IH. intros; apply H; now right.
Qed.

Lemma notified_contexts w direction role device (entries : list (string * Button)) :
  List.map effect_context
    (flat_map (notify_entry w direction role device) entries)
  = List.map (fun entry => Some (fst entry))
      (List.filter (concerns direction role) entries).
Proof.
  induction entries as [|[c b] rest IH]; [reflexivity|].
  cbn [flat_map List.filter]. rewrite List.map_app, IH.
  destruct (notify_entry_single w direction role device c b)
    as [(Hc & e0 & -> & _ & Ha)|(Hc & ->)]; rewrite Hc.
  - cbn [List.map app fst]. now rewrite Ha.
  - reflexivity.
Qed.

(** X19.  A default-device notification leaves the plugin as it is and
    returns.  Everything it sends is a state or an alert.  Each registered
    button of the notified direction and role is sent exactly one of them;
    a registered button of another direction or role is sent nothing, and
    neither is a context that is not registered.  The buttons are served in
    the order of their contexts: the contexts the effects are addressed to
    are, in this order, the contexts of the concerned entries of [mButtons]
    by increasing key.  So there are as many effects as concerned buttons,
    and each effect is addressed to one of them. *)
Theorem notification_reports (w : AudioWorld) (st : Plugin)
    (direction : AudioDeviceDirection) (role : AudioDeviceRole)
    (device : string) :
  let o := OnDefaultDeviceChanged w st direction role device in
  plugin o = st
  /\ completion o = Returns
  /\ (forall c button,
        mButtons st !! c = Some button ->
        concerns direction role (c, button) = true ->
        exists e, List.filter (addressed_to c) (effects o) = [e]
                  /\ is_report e = true)
  /\ (forall c button,
        mButtons st !! c = Some button ->
        concerns direction role (c, button) = false ->
        List.filter (addressed_to c) (effects o) = [])
  /\ (forall c,
        mButtons st !! c = None ->
        List.filter (addressed_to c) (effects o) = [])
  /\ List.map effect_context (effects o)
     = List.map (fun entry => Some (fst entry))
         (List.filter (concerns direction role)
            (entries_in_key_order (mButtons st)))
  /\ length (effects o)
     = length (List.filter (concerns direction role)
                 (entries_in_key_order (mButtons st)))
  /\ (forall e, In e (effects o) ->
        is_report e = true
        /\ exists c button,
             mButtons st !! c = Some button
             /\ effect_context e = Some c
             /\ concerns direction role (c, button) = true).
Proof.
  cbn zeta. rewrite OnDefaultDeviceChanged_eq. cbn [plugin completion effects].
  destruct (notifications_count w direction role device
              (entries_in_key_order (mButtons st))) as [Hlen Hin].
  assert (Hall : forall e,
            In e (flat_map (notify_entry w direction role device)
                    (entries_in_key_order (mButtons st))) ->
            is_report e = true
            /\ exists c button,
                 mButtons st !! c = Some button
                 /\ effect_context e = Some c
                 /\ concerns direction role (c, button) = true).
  { intros e He. destruct (Hin e He) as (Hr & c & b & Hcb & H').
    split; [exact Hr|]. exists c, b. split; [|exact H'].
    apply elem_of_entries_in_key_order. now apply list_elem_of_In. }
  split; [reflexivity|]. split; [reflexivity|].
  split; [|split; [|split; [|split; [|split; [exact Hlen | exact Hall]]]]].
  - intros c button Hreg Hc.
    rewrite (filter_notifications w direction role device c button _
               (NoDup_fst_entries_in_key_order _)
               (proj2 (elem_of_entries_in_key_order _ _ _) Hreg)).
    destruct (notify_entry_single w direction role device c button)
      as [(_ & e & -> & Hr & _)|(Hc' & _)]; [|congruence].
    exists e. now split.
  - intros c button Hreg Hc.
    rewrite (filter_notifications w direction role device c button _
               (NoDup_fst_entries_in_key_order _)
               (proj2 (elem_of_entries_in_key_order _ _ _) Hreg)).
    destruct (notify_entry_single w direction role device c button)
      as [(Hc' & _)|(_ & ->)]; [congruence | reflexivity].
  - intros c Hnone. apply filter_addressed_elsewhere.
    intros e He. destruct (Hall e He) as (_ & c' & b' & Hreg & Ha & _).
    exists c'. split; [exact Ha|]. intros ->. congruence.
  - apply notified_contexts.
Qed.

(** X20.  [FillButtonDeviceInfo] on a context that is not registered is left
    by the exception of [mButtons.at] with nothing changed and nothing sent.
    On a registered one it returns, sends at most one request, and changes
    at most the two devices of that one button: its action, context,
    direction, role, strategy and hotkeys, the other buttons and the visible
    contexts stay. *)
Theorem backfill_frame (aj : AudioJson) (w : AudioWorld) (st : Plugin)
    (inContext : string) :
  let o := FillButtonDeviceInfo aj w st inContext in
  (mButtons st !! inContext = None ->
   o = mkOutcome st [] (Throws out_of_range))
  /\ (forall button, mButtons st !! inContext = Some button ->
      completion o = Returns
      /\ length (effects o) <= 1
      /\ mVisibleContexts (plugin o) = mVisibleContexts st
      /\ (forall c, c <> inContext -> mButtons (plugin o) !! c = mButtons st !! c)
      /\ exists bs',
           mButtons (plugin o) !! inContext
           = Some (mkButton (action button) (context button) bs')
           /\ bs_direction bs' = bs_direction (settings button)
           /\ bs_role bs' = bs_role (settings button)
           /\ matchStrategy bs' = matchStrategy (settings button)
           /\ primaryHotkey bs' = primaryHotkey (settings button)
           /\ secondaryHotkey bs' = secondaryHotkey (settings button)).
Proof.
  cbn zeta. split.
  - intros H. unfold FillButtonDeviceInfo. now rewrite H.
  - intros button H. rewrite (FillButtonDeviceInfo_eq aj w st inContext button H).
    cbn [completion effects plugin set_mButtons mVisibleContexts mButtons].
    split; [reflexivity|]. split; [destruct (_ || _); cbn; lia|].
    split; [reflexivity|].
    split; [intros c Hne; now rewrite lookup_insert_ne|].
    exists (backfilled w (settings button)).
    split; [apply lookup_insert_eq | now repeat split].
Qed.

Lemma backfill_frame_witness :
  FillButtonDeviceInfo audio_json_model (demo_world "A")
    (demo_plugin TOGGLE_ACTION_ID ab_settings) "other"
  = mkOutcome (demo_plugin TOGGLE_ACTION_ID ab_settings) []
      (Throws out_of_range).
Proof.
  destruct (backfill_frame audio_json_model (demo_world "A")
              (demo_plugin TOGGLE_ACTION_ID ab_settings) "other") as [H _].
  apply H. apply lookup_singleton_ne. discriminate.
Defined.

Lemma notification_reports_witness :
  exists e,
    List.filter (addressed_to "ctx")
      (effects (OnDefaultDeviceChanged (demo_world "B")
                  (demo_plugin TOGGLE_ACTION_ID ab_settings) OUTPUT DEFAULT "B"))
    = [e]
    /\ is_report e = true.
Proof.
  destruct (notification_reports (demo_world "B")
              (demo_plugin TOGGLE_ACTION_ID ab_settings) OUTPUT DEFAULT "B")
    as (_ & _ & H & _).
  apply (H "ctx" (mkButton TOGGLE_ACTION_ID "ctx" ab_settings)).
  - apply lookup_singleton_eq.
  - reflexivity.
Defined.

(** The notification of two buttons registered as "a" and "B" serves "B"
    first: an upper-case letter sorts before a lower-case one. *)
Lemma notification_in_key_order :
  effects (OnDefaultDeviceChanged (demo_world "B") two_buttons
             OUTPUT DEFAULT "B")
  = [SetState 1 "B"; SetState 1 "a"].
Proof. vm_compute. reflexivity. Qed.

Lemma FillAudioDeviceInfo_cases w di :
  FillAudioDeviceInfo w di = (di, false)
  \/ exists live, needs_backfill w di live
                  /\ FillAudioDeviceInfo w di = (live, true).
Proof.
  unfold FillAudioDeviceInfo, needs_backfill.
  destruct (String.eqb_spec (id di) "") as [E|E]; [now left|].
  destruct (String.eqb_spec (displayName di) "") as [N|N]; cbn [negb];
    [|now left].
  destruct (map_find (id di) (GetAudioDeviceList w (direction di)))
    as [live|]; [|now left].
  right. exists live. now repeat split.
Qed.

Lemma FillAudioDeviceInfo_coherent w di :
  coherent_lists w ->
  id (fst (FillAudioDeviceInfo w di)) = id di
  /\ direction (fst (FillAudioDeviceInfo w di)) = direction di
  /\ fst (FillAudioDeviceInfo w (fst (FillAudioDeviceInfo w di)))
     = fst (FillAudioDeviceInfo w di).
Proof.
  intros Hco.
  destruct (FillAudioDeviceInfo_cases w di)
    as [E|(live & (Hid & Hname & Hfind) & E)].
  - rewrite E. cbn [fst]. rewrite E. now repeat split.
  - rewrite E. cbn [fst]. destruct (Hco _ _ _ Hfind) as [Hi Hd].
    split; [exact Hi|]. split; [exact Hd|].
    unfold FillAudioDeviceInfo. rewrite Hi, Hd, Hfind.
    destruct (id di =? ""); [reflexivity|].
    now destruct (negb (displayName live =? "")).
Qed.

Lemma provider_of_coherent live defaults :
  coherent_lists (provider_of live defaults).
Proof.
  intros dir key d. unfold provider_of. cbn [GetAudioDeviceList].
  induction live as [|x live IH]; [discriminate|].
  rewrite filter_cons. destruct (decide (direction_eqb (direction x) dir = true))
    as [Hd|Hd]; [|exact IH].
  cbn [map map_find]. destruct (String.eqb_spec (id x) key) as [E|E];
    [|exact IH].
  intros H. inversion H; subst. split; [reflexivity|].
  now apply direction_eqb_eq.
Qed.

(** X21.  When every device list holds its devices under their own id and
    direction, backfilling keeps the id and the direction of both devices,
    so the volatile ids under the [ID] strategy are those of the settings
    before; and backfilling twice gives the same settings as backfilling
    once. *)
Theorem backfill_idempotent (w : AudioWorld) (bs : ButtonSettings) :
  coherent_lists w ->
  id (primaryDevice (backfilled w bs)) = id (primaryDevice bs)
  /\ id (secondaryDevice (backfilled w bs)) = id (secondaryDevice bs)
  /\ direction (primaryDevice (backfilled w bs)) = direction (primaryDevice bs)
  /\ direction (secondaryDevice (backfilled w bs))
     = direction (secondaryDevice bs)
  /\ (matchStrategy bs = ID ->
      VolatilePrimaryID w (backfilled w bs) = VolatilePrimaryID w bs
      /\ VolatileSecondaryID w (backfilled w bs) = VolatileSecondaryID w bs)
  /\ backfilled w (backfilled w bs) = backfilled w bs.
Proof.
  intros Hco.
  destruct (FillAudioDeviceInfo_coherent w (primaryDevice bs) Hco)
    as (Hp1 & Hp2 & Hp3).
  destruct (FillAudioDeviceInfo_coherent w (secondaryDevice bs) Hco)
    as (Hs1 & Hs2 & Hs3).
  unfold backfilled.
  cbn [primaryDevice secondaryDevice set_primaryDevice set_secondaryDevice
       bs_direction bs_role matchStrategy primaryHotkey secondaryHotkey].
  do 4 (split; [assumption|]). split.
  - intros Hm. unfold VolatilePrimaryID, VolatileSecondaryID.
    cbn [primaryDevice secondaryDevice matchStrategy set_primaryDevice
         set_secondaryDevice].
    rewrite Hm, !GetVolatileID_ID. split; assumption.
  - now rewrite Hp3, Hs3.
Qed.

Lemma backfill_idempotent_witness :
  backfilled (demo_world "A") (backfilled (demo_world "A") stale_settings)
  = backfilled (demo_world "A") stale_settings.
Proof.
  apply (backfill_idempotent (demo_world "A") stale_settings).
  apply provider_of_coherent.
Defined.

(** ** [TriggerHotkey] *)

(** X22.  On Windows [TriggerHotkey] returns for every hotkey and keyboard
    layout.  It sends nothing for a hotkey that is disabled or has no key
    name; otherwise nothing, or one [SendInput] of at most five key presses
    (the modifiers, then the key) followed by the releases of the same keys
    in the reverse order, ten events at most. *)
Theorem win_hotkey_balanced (VkKeyScanA : ascii -> Z) (hotkey : HotkeyConfig) :
  snd (TriggerHotkey (Win32 VkKeyScanA) hotkey) = Returns
  /\ (enabled hotkey = false \/ keyCode hotkey = "" ->
      fst (TriggerHotkey (Win32 VkKeyScanA) hotkey) = [])
  /\ (fst (TriggerHotkey (Win32 VkKeyScanA) hotkey) = []
      \/ exists key,
           let presses := win_modifiers hotkey ++ [press key] in
           fst (TriggerHotkey (Win32 VkKeyScanA) hotkey)
           = [SendInput (presses ++ map release (rev presses))]
           /\ length presses <= 5
           /\ length (presses ++ map release (rev presses)) <= 10
           /\ (forall i, In i presses ->
                 dwFlags i = 0%Z /\ type i = INPUT_KEYBOARD)
           /\ (forall i, In i (map release (rev presses)) ->
                 dwFlags i = KEYEVENTF_KEYUP)).
Proof.
  split; [apply TriggerHotkey_win_returns|]. split.
  - intros H. unfold TriggerHotkey.
    destruct H as [-> | ->]; [reflexivity|]. now rewrite orb_true_r.
  - unfold TriggerHotkey, TriggerHotkey_win.
    destruct (negb (enabled hotkey) || (keyCode hotkey =? "")); [now left|].
    destruct (negb (win_vkCode VkKeyScanA (keyCode hotkey) =? 0)%Z);
      [|now left].
    right. exists (LOBYTE (win_vkCode VkKeyScanA (keyCode hotkey))).
    cbn zeta. split.
    + cbn [fst]. rewrite rev_app_distr. cbn [rev app map].
      now rewrite <- !app_assoc.
    + assert (Hm : length (win_modifiers hotkey) <= 4).
      { unfold win_modifiers.
        destruct (ctrl hotkey), (alt hotkey), (shift hotkey), (win hotkey);
          cbn; lia. }
      assert (Hflags : forall i, In i (win_modifiers hotkey ++ [press
                         (LOBYTE (win_vkCode VkKeyScanA (keyCode hotkey)))]) ->
                       dwFlags i = 0%Z /\ type i = INPUT_KEYBOARD).
      { intros i Hi. apply in_app_or in Hi as [Hi|[<-|[]]]; [|now split].
        unfold win_modifiers in Hi.
        repeat (apply in_app_or in Hi as [Hi|Hi]);
          match type of Hi with
          | In _ (if ?b then _ else _) => destruct b
          end; cbn in Hi; try contradiction;
          destruct Hi as [<-|Hi]; try contradiction; now split. }
      split; [rewrite length_app; cbn; lia|].
      split; [rewrite !length_app, length_map, length_rev, length_app; cbn; lia|].
      split; [exact Hflags|].
      intros i Hi. apply in_map_iff in Hi as (x & <- & _). reflexivity.
Qed.

Lemma win_hotkey_balanced_witness :
  fst (TriggerHotkey (Win32 (fun _ => (-1)%Z))
         (mkHotkey false true true true true "A")) = [].
Proof.
  destruct (win_hotkey_balanced (fun _ => (-1)%Z)
              (mkHotkey false true true true true "A")) as (_ & H & _).
  apply H. left. reflexivity.
Defined.

(** X23.  On Windows a key name of two or more characters that is neither
    of the function-key form nor one of SPACE, ENTER, RETURN, ESCAPE, ESC,
    TAB is resolved by its first character alone, without the keyboard
    layout: it is the key of that character when it is a capital letter or a
    digit, and no key at all otherwise. *)
Theorem win_first_character (VkKeyScanA : ascii -> Z) (keyCode : string)
    (a : ascii) :
  2 <= String.length keyCode ->
  function_key_form keyCode = false ->
  ~ In keyCode win_named_keys ->
  first_char keyCode = Some a ->
  win_vkCode VkKeyScanA keyCode
  = if is_key_letter_or_digit a then Z.of_N (N_of_ascii a) else 0%Z.
Proof.
  intros Hlen Hform Hnamed Hfirst. unfold win_vkCode.
  destruct keyCode as [|b rest]; [discriminate|].
  cbn [first_char] in Hfirst. inversion Hfirst; subst b.
  destruct (Nat.eqb_spec (String.length (String a rest)) 1) as [E|_];
    [lia|].
  unfold function_key_form in Hform.
  destruct (Nat.eqb_spec (String.length (String a rest)) 1) as [E|_];
    [lia|].
  cbn [negb] in Hform. rewrite andb_true_r in Hform. rewrite Hform.
  unfold win_named_keys in Hnamed. cbn [In] in Hnamed.
  repeat match goal with
         | |- context [String.eqb (String a rest) ?k] =>
             destruct (String.eqb_spec (String a rest) k) as [Hk|_];
               [exfalso; apply Hnamed; rewrite Hk; tauto|]
         end.
  reflexivity.
Qed.

Lemma win_first_character_witness :
  win_vkCode (fun _ => (-1)%Z) "HELLO" = 72%Z.
Proof.
  apply (win_first_character (fun _ => (-1)%Z) "HELLO" "H"%char).
  - cbn. lia.
  - reflexivity.
  - cbn. intros H. repeat (destruct H as [H|H]; [discriminate H|]). exact H.
  - reflexivity.
Defined.

(** X24.  On macOS an enabled hotkey whose key name is one character fires
    only for the capital letters B to Z, as a key down and a key up of the
    code "letter minus A" with the flags of the modifiers; "A", the digits
    and every other character fire nothing.  A longer name that is not of
    the function-key form (SPACE, ENTER, ...) fires nothing and raises
    nothing. *)
Theorem mac_single_character (hotkey : HotkeyConfig) :
  (forall a, enabled hotkey = true -> keyCode hotkey = String a "" ->
     TriggerHotkey Apple hotkey
     = if (N.leb 66 (N_of_ascii a)) && (N.leb (N_of_ascii a) 90)
       then ([CGEventPost (Z.of_N (N_of_ascii a) - 65) true (mac_flags hotkey);
              CGEventPost (Z.of_N (N_of_ascii a) - 65) false (mac_flags hotkey)],
             Returns)
       else ([], Returns))
  /\ (String.length (keyCode hotkey) <> 1 ->
      function_key_form (keyCode hotkey) = false ->
      TriggerHotkey Apple hotkey = ([], Returns)).
Proof.
  split.
  - intros a He Hk. unfold TriggerHotkey, TriggerHotkey_mac, mac_keyCode.
    rewrite He, Hk. cbn [negb orb String.eqb String.length Nat.eqb].
    destruct (N.leb_spec 65 (N_of_ascii a)) as [H65|H65];
      destruct (N.leb_spec (N_of_ascii a) 90) as [H90|H90];
      destruct (N.leb_spec 66 (N_of_ascii a)) as [H66|H66];
      cbn [andb]; try lia; try reflexivity.
    + destruct (Z.eqb_spec (Z.of_N (N_of_ascii a) - 65) 0) as [E|E];
        [lia | reflexivity].
    + destruct (Z.eqb_spec (Z.of_N (N_of_ascii a) - 65) 0) as [E|E];
        [reflexivity | lia].
  - intros Hlen Hform. unfold TriggerHotkey, TriggerHotkey_mac, mac_keyCode.
    destruct (negb (enabled hotkey) || (keyCode hotkey =? "")); [reflexivity|].
    destruct (Nat.eqb_spec (String.length (keyCode hotkey)) 1) as [E|_];
      [contradiction|].
    unfold function_key_form in Hform.
    destruct (Nat.eqb_spec (String.length (keyCode hotkey)) 1) as [E|_];
      [contradiction|].
    cbn [negb] in Hform. rewrite andb_true_r in Hform. rewrite Hform.
    reflexivity.
Qed.

Lemma mac_single_character_witness :
  TriggerHotkey Apple (mkHotkey true false false true false "A") = ([], Returns)
  /\ TriggerHotkey Apple (mkHotkey true false false true false "SPACE")
     = ([], Returns).
Proof.
  split.
  - destruct (mac_single_character (mkHotkey true false false true false "A"))
      as [H _].
    apply (H "A"%char); reflexivity.
  - destruct (mac_single_character
                (mkHotkey true false false true false "SPACE")) as [_ H].
    apply H; [cbn; lia | reflexivity].
Defined.

Lemma TriggerHotkey_mac_throws_witness :
  snd (TriggerHotkey Apple (mkHotkey true false false false false "F-"))
  = Throws invalid_argument.
Proof.
  apply (TriggerHotkey_mac_throws
           (mkHotkey true false false false false "F-") invalid_argument).
  repeat split; try discriminate. cbn. lia.
Defined.

(** ** [SendToPlugin] *)

Lemma json_at_device_list aj devices key :
  json_at (device_list_to_json aj devices) key
  = match map_find key devices with
    | Some d => Some (device_to_json aj d)
    | None => None
    end.
Proof.
  unfold json_at, device_list_to_json. cbn [json_find].
  induction devices as [|[k d] rest IH]; [reflexivity|].
  cbn [map map_find fst snd]. now destruct (k =? key).
Qed.

(** X26.  [SendToPlugin] never changes the plugin.  It answers the event
    "getDeviceList" alone, with one message to the property inspector of the
    same action and context that repeats the event and holds the two device
    lists, each device encoded under its key; to any other payload it
    answers nothing. *)
Theorem device_list_reply (aj : AudioJson) (w : AudioWorld) (st : Plugin)
    (inAction inContext : string) (inPayload : json) (inDeviceID : string) :
  let o := SendToPlugin aj w st inAction inContext inPayload inDeviceID in
  plugin o = st
  /\ completion o = Returns
  /\ (json_at inPayload "event" <> Some (JString "getDeviceList") ->
      effects o = [])
  /\ (json_at inPayload "event" = Some (JString "getDeviceList") ->
      exists reply,
        effects o = [SendToPropertyInspector inAction inContext reply]
        /\ json_at reply "event" = Some (JString "getDeviceList")
        /\ (forall key,
              json_at reply "outputDevices" ≫= (fun l => json_at l key)
              = match map_find key (GetAudioDeviceList w OUTPUT) with
                | Some d => Some (device_to_json aj d)
                | None => None
                end)
        /\ (forall key,
              json_at reply "inputDevices" ≫= (fun l => json_at l key)
              = match map_find key (GetAudioDeviceList w INPUT) with
                | Some d => Some (device_to_json aj d)
                | None => None
                end)).
Proof.
  cbn zeta. unfold SendToPlugin, GetStringByName, json_at.
  destruct (json_find inPayload "event") as [[| | | |s| |]|] eqn:E;
    cbn [String.eqb plugin completion effects];
    try (repeat split; try reflexivity; intros H; discriminate H).
  destruct (String.eqb_spec s "getDeviceList") as [->|Hne];
    cbn [plugin completion effects].
  - split; [reflexivity|]. split; [reflexivity|].
    split; [intros H; now contradiction H|].
    intros _. eexists. split; [reflexivity|]. split; [reflexivity|].
    split; intros key; cbn [json_find map_find String.eqb Ascii.eqb
                            mbind option_bind];
      apply json_at_device_list.
  - split; [reflexivity|]. split; [reflexivity|].
    split; [reflexivity|]. intros H. inversion H. contradiction.
Qed.

Lemma device_list_reply_witness :
  effects (SendToPlugin audio_json_model (demo_world "A")
             (demo_plugin TOGGLE_ACTION_ID ab_settings) TOGGLE_ACTION_ID "ctx"
             (JObject [("event", JString "somethingElse")]) "")
  = [].
Proof.
  destruct (device_list_reply audio_json_model (demo_world "A")
              (demo_plugin TOGGLE_ACTION_ID ab_settings) TOGGLE_ACTION_ID "ctx"
              (JObject [("event", JString "somethingElse")]) "")
    as (_ & _ & H & _).
  apply H. discriminate.
Defined.

(** ** Blobs that do not decode *)

Lemma hotkey_decode_throws_witness :
  from_json_HotkeyConfig (JObject [("enabled", JString "yes")]) default_hotkey
  = None.
Proof.
  apply (hotkey_decode_throws (JObject [("enabled", JString "yes")])
           default_hotkey).
  intros ((H & _) & _). destruct (H (JString "yes") eq_refl) as [b Hb].
  discriminate Hb.
Defined.

Lemma settings_decode_throws_witness :
  from_json_ButtonSettings audio_json_model
    (JObject [("direction", JString "output");
              ("secondaryHotkey", JObject [("keyCode", JInt 65)])])
    some_settings
  = None.
Proof.
  apply (settings_decode_throws audio_json_model
           (JObject [("direction", JString "output");
                     ("secondaryHotkey", JObject [("keyCode", JInt 65)])])
           some_settings).
  split; [reflexivity|].
  intros (_ & _ & _ & _ & _ & H).
  destruct (H (JObject [("keyCode", JInt 65)]) eq_refl) as [hk Hhk].
  discriminate Hhk.
Defined.
